(** * 4chess-fortress: a shallow embedding of [4chess.py] and [utils.py]

    The rules engine of a four-player chess variant on a 16x16 grid with
    four "fortress" corners.  Python values are modelled as follows.

    - [str] is [string]; a string of length one (a file letter) is [ascii].
      Code points beyond one byte are outside the model: [chr] raises
      there where Python would build a wider character.
    - [int] is [Z]; [//] and [%] with a positive divisor are [Z.div] and
      [Z.modulo].
    - Exceptions are the constructors of [exn]; a function that can raise
      returns [res A].
    - Recursion and [itertools.count] loops that the source does not bound
      run on a [fuel] budget; [OutOfFuel] is "not finished within that
      depth", so a result for every fuel is a computation that never
      finishes (Python: RecursionError, or a loop without end).
    - Piece kinds and colours, fixed strings in the source, are the
      enumerations [PieceType] and [Color].
    - [dict] is an association list in insertion order. *)

From Stdlib Require Import ZArith List String Ascii Bool Lia DecimalString.
Import ListNotations.

Open Scope string_scope.
Open Scope list_scope.
Open Scope Z_scope.

(** ** Results and exceptions *)

Inductive exn : Type :=
| ValueError | IndexError | KeyError | AttributeError | TypeError.

Inductive res (A : Type) : Type :=
| Ret (a : A)
| Raise (e : exn)
| OutOfFuel.

Arguments Ret {A} a.
Arguments Raise {A} e.
Arguments OutOfFuel {A}.

Definition bind {A B : Type} (m : res A) (k : A -> res B) : res B :=
  match m with
  | Ret a => k a
  | Raise e => Raise e
  | OutOfFuel => OutOfFuel
  end.

Notation "x <- m ;; k" := (bind m (fun x => k))
  (at level 61, m at next level, right associativity).
Notation "' pat <- m ;; k" := (bind m (fun x => match x with pat => k end))
  (at level 61, pat pattern, m at next level, right associativity).

(** [[f(x) for x in l]] where [f] may raise: left to right, first failure wins. *)
Fixpoint mapM {A B : Type} (f : A -> res B) (l : list A) : res (list B) :=
  match l with
  | [] => Ret []
  | x :: l' => y <- f x ;; ys <- mapM f l' ;; Ret (y :: ys)
  end.

(** ** Python primitives *)

Definition ord (c : ascii) : Z := Z.of_N (N_of_ascii c).

Definition chr_byte (z : Z) : ascii := ascii_of_N (Z.to_N z).

Definition chr (z : Z) : res ascii :=
  if (0 <=? z) && (z <? 256) then Ret (chr_byte z) else Raise ValueError.

Definition upper_char (c : ascii) : ascii :=
  if (ord "a" <=? ord c) && (ord c <=? ord "z") then chr_byte (ord c - 32) else c.

Fixpoint upper (s : string) : string :=
  match s with
  | EmptyString => EmptyString
  | String c s' => String (upper_char c) (upper s')
  end.

(** [s[0]] *)
Definition str_head (s : string) : res ascii :=
  match s with
  | EmptyString => Raise IndexError
  | String c _ => Ret c
  end.

(** [s[1:]] *)
Definition str_tail (s : string) : string :=
  match s with
  | EmptyString => EmptyString
  | String _ s' => s'
  end.

Definition is_digit (c : ascii) : bool := (ord "0" <=? ord c) && (ord c <=? ord "9").

(** The characters [int] strips from both ends of its argument. *)
Definition is_space (c : ascii) : bool :=
  ((9 <=? ord c) && (ord c <=? 13)) || (ord c =? 32) || (ord c =? 133) || (ord c =? 160).

Fixpoint lstrip (s : string) : string :=
  match s with
  | EmptyString => EmptyString
  | String c s' => if is_space c then lstrip s' else s
  end.

Fixpoint rstrip (s : string) : string :=
  match s with
  | EmptyString => EmptyString
  | String c s' =>
      match rstrip s' with
      | EmptyString => if is_space c then EmptyString else String c EmptyString
      | r => String c r
      end
  end.

(** Decimal digits, with single underscores between digits. *)
Fixpoint int_digits (s : string) (acc : Z) (after_digit : bool) : res Z :=
  match s with
  | EmptyString => if after_digit then Ret acc else Raise ValueError
  | String c s' =>
      if is_digit c then int_digits s' (10 * acc + (ord c - ord "0")) true
      else if Ascii.eqb c "_" && after_digit then int_digits s' acc false
      else Raise ValueError
  end.

(** [int(s)]: white space around the number is dropped, then an optional
    sign and the digits are read; anything else raises ValueError.  (The
    limit on the number of digits that Python 3.11 introduced is not
    modelled.) *)
Definition int (s : string) : res Z :=
  match lstrip (rstrip s) with
  | String "-" d => n <- int_digits d 0 false ;; Ret (- n)
  | String "+" d => int_digits d 0 false
  | d => int_digits d 0 false
  end.

(** [str(n)] *)
Definition str (n : Z) : string := NilZero.string_of_int (Z.to_int n).

Fixpoint zeros (n : nat) : string :=
  match n with
  | O => EmptyString
  | S n' => String "0" (zeros n')
  end.

(** [s.zfill(width)]: a leading sign stays in front of the padding. *)
Definition zfill (width : nat) (s : string) : string :=
  let pad := zeros (width - String.length s) in
  match s with
  | String c s' =>
      if (Ascii.eqb c "+" || Ascii.eqb c "-")%bool then String c (String.append pad s') else String.append pad s
  | EmptyString => pad
  end.

(** Lexicographic [<] on strings, by code point. *)
Fixpoint str_ltb (s t : string) : bool :=
  match s, t with
  | _, EmptyString => false
  | EmptyString, String _ _ => true
  | String a s', String b t' =>
      if ord a <? ord b then true
      else if ord b <? ord a then false
      else str_ltb s' t'
  end.

(** [range(start, stop, step)] for [step <> 0]. *)
Definition py_range (start stop step : Z) : list Z :=
  let n := if 0 <? step then (stop - start + step - 1) / step
           else (start - stop - step - 1) / (- step) in
  map (fun i => start + Z.of_nat i * step) (seq 0 (Z.to_nat n)).

(** [list[i]]: a negative index counts from the end; outside the list,
    IndexError. *)
Definition list_get {A : Type} (l : list A) (i : Z) : res A :=
  let j := if i <? 0 then i + Z.of_nat (List.length l) else i in
  if j <? 0 then Raise IndexError
  else match nth_error l (Z.to_nat j) with
       | Some a => Ret a
       | None => Raise IndexError
       end.

Fixpoint set_nth {A : Type} (l : list A) (n : nat) (v : A) : option (list A) :=
  match l, n with
  | [], _ => None
  | _ :: l', O => Some (v :: l')
  | a :: l', S n' =>
      match set_nth l' n' v with
      | Some r => Some (a :: r)
      | None => None
      end
  end.

(** [list[i] = v], with the same indices. *)
Definition list_set {A : Type} (l : list A) (i : Z) (v : A) : res (list A) :=
  let j := if i <? 0 then i + Z.of_nat (List.length l) else i in
  if j <? 0 then Raise IndexError
  else match set_nth l (Z.to_nat j) v with
       | Some r => Ret r
       | None => Raise IndexError
       end.

(** [list[i:j] = vs] for [0 <= i <= j <= len(list)]. *)
Definition slice_assign {A : Type} (l : list A) (i j : nat) (vs : list A) : list A :=
  firstn i l ++ vs ++ skipn j l.

(** ** utils.py *)

Section ListInList.

Context {A : Type} (eqb : A -> A -> bool).

(** [x in l] *)
Definition mem (x : A) (l : list A) : bool := existsb (eqb x) l.

Fixpoint list_in_list (list1 list2 : list A) (require_all : bool) : bool :=
  match list1 with
  | [] => require_all
  | i :: rest =>
      if mem i list2 && negb require_all then true
      else if negb (mem i list2) && require_all then false
      else list_in_list rest list2 require_all
  end.

End ListInList.

(** [str_range(start, stop, step)], stop inclusive.  Every value of the
    range lies between the two code points, so [chr] cannot raise. *)
Definition str_range (start stop : ascii) (step : Z) : list ascii :=
  map chr_byte (py_range (ord start) (ord stop + (if 0 <? step then 1 else -1)) step).

(** ** Geometry: the static methods of [Square] *)

Definition pos_stoi (pos : string) : res Z :=
  c <- str_head pos ;;
  r <- int (str_tail pos) ;;
  Ret (ord (upper_char c) - ord "A" + (r - 1) * 16 + 1).

Definition pos_itos (pos : Z) : string :=
  String (chr_byte (ord "A" + (pos - 1) mod 16))
         (zfill 2 (str (pos / 16 + (if negb (pos mod 16 =? 0) then 1 else 0)))).

Fixpoint pos_rot90 (fuel : nat) (pos : string) (times : Z) : res string :=
  match fuel with
  | O => OutOfFuel
  | S fuel' =>
      if times =? 0 then
        c <- str_head pos ;; Ret (String c (zfill 2 (str_tail pos)))
      else
        r <- int (str_tail pos) ;;
        col <- chr (ord "P" - r + 1) ;;
        c <- str_head pos ;;
        pos_rot90 fuel' (String col (zfill 2 (str (ord (upper_char c) - ord "A" + 1)))) (times - 1)
  end.

Definition pos_rot90_list (fuel : nat) (pos : list string) (times : Z) : res (list string) :=
  mapM (fun a => pos_rot90 fuel a times) pos.

Definition get_ray (pos1 pos2 : string) : res (list string) :=
  let pos1 := upper pos1 in
  let pos2 := upper pos2 in
  c1 <- str_head pos1 ;;
  c2 <- str_head pos2 ;;
  r1 <- int (str_tail pos1) ;;
  r2 <- int (str_tail pos2) ;;
  if negb (Z.abs (ord c1 - ord c2) =? Z.abs (r1 - r2)) then Raise ValueError
  else
    let ystep := if str_ltb (str_tail pos1) (str_tail pos2) then 1 else -1 in
    let path := combine (str_range c1 c2 (if ord c1 <? ord c2 then 1 else -1))
                        (py_range r1 (r2 + ystep) ystep) in
    Ret (map (fun '(a, b) => String a (zfill 2 (str b))) path).

(** ** Pieces, squares, moves and the board *)

Inductive PieceType : Type := king | queen | rook | bishop | knight | pawn.

Inductive Color : Type := white | brown | grey | black.

Record Piece : Type := mkPiece { type : PieceType; color : Color }.

Record Square : Type := mkSquare { position : string; piece_at : option Piece }.

(** A dictionary, in insertion order. *)
Definition dict (V : Type) : Type := list (Color * V).

Record Move : Type := mkMove {
  from_square : Square;
  to_square : option Square;
  promotion : option Piece;
  castling : option (list bool);
  checks : option (dict bool)
}.

Record Board : Type := mkBoard {
  turn : Color;
  graveyard : list Piece;
  castling_rights : dict (list bool);
  checked : dict bool;
  frozen : dict bool;
  layout : list (option Square);
  winner : option (list Color);
  move_stack : list Move
}.

Inductive CheckErrorMsg : Type :=
| SquareToOutOfBounds | SquareFromNoPiece | SquareFromNotYourPiece
| SquareFromAndToSame | FriendlyFire | WallsInTheWay
| PromotionFromNonPawn | PromotionOutOfBounds | SquareToIllegal
| CheckmateYourself | CheckmateTeammate | TargetFrozen.

(** What [Board.is_valid] returns: [(False, message)] or [(True, move.checks)]. *)
Inductive verdict : Type :=
| Invalid (msg : CheckErrorMsg)
| Valid (cks : option (dict bool)).

Definition PieceType_eqb (a b : PieceType) : bool :=
  match a, b with
  | king, king | queen, queen | rook, rook
  | bishop, bishop | knight, knight | pawn, pawn => true
  | _, _ => false
  end.

Definition Color_eqb (a b : Color) : bool :=
  match a, b with
  | white, white | brown, brown | grey, grey | black, black => true
  | _, _ => false
  end.

(** [Piece.__eq__] *)
Definition Piece_eqb (a b : Piece) : bool :=
  PieceType_eqb (type a) (type b) && Color_eqb (color a) (color b).

Definition opt_eqb {A : Type} (eqb : A -> A -> bool) (a b : option A) : bool :=
  match a, b with
  | None, None => true
  | Some x, Some y => eqb x y
  | _, _ => false
  end.

(** [Square.__eq__] *)
Definition Square_eqb (a b : Square) : bool :=
  String.eqb (position a) (position b) && opt_eqb Piece_eqb (piece_at a) (piece_at b).

Definition dict_get {V : Type} (d : dict V) (k : Color) : option V :=
  match find (fun kv => Color_eqb (fst kv) k) d with
  | Some kv => Some (snd kv)
  | None => None
  end.

(** [d[k]] *)
Definition dict_item {V : Type} (d : dict V) (k : Color) : res V :=
  match dict_get d k with
  | Some v => Ret v
  | None => Raise KeyError
  end.

(** [d.get(k, default)] *)
Definition dict_get_default {V : Type} (d : dict V) (k : Color) (default : V) : V :=
  match dict_get d k with
  | Some v => v
  | None => default
  end.

(** [d[k] = v] for a key that is present. *)
Definition dict_set {V : Type} (d : dict V) (k : Color) (v : V) : dict V :=
  map (fun kv => if Color_eqb (fst kv) k then (k, v) else kv) d.

(** [Piece.from_initial] *)
Definition from_initial (initial : ascii) : option PieceType :=
  if Ascii.eqb initial "k" then Some king
  else if Ascii.eqb initial "q" then Some queen
  else if Ascii.eqb initial "r" then Some rook
  else if Ascii.eqb initial "b" then Some bishop
  else if Ascii.eqb initial "n" then Some knight
  else if Ascii.eqb initial "p" then Some pawn
  else None.

(** [Square(position, piece_at)] for a string position. *)
Definition Square_new (pos : string) (piece : option Piece) : res Square :=
  c <- str_head pos ;;
  Ret (mkSquare (String (upper_char c) (zfill 2 (str_tail pos))) piece).

(** [Square(position)] for an integer position. *)
Definition Square_of_int (pos : Z) : Square := mkSquare (pos_itos pos) None.

(** [Square.__int__] *)
Definition Square_int (sq : Square) : res Z := pos_stoi (position sq).

Definition Square_x (sq : Square) : res ascii := str_head (position sq).

Definition Square_row (sq : Square) : res Z := int (str_tail (position sq)).

(** [Square.check_enemy] *)
Definition check_enemy (square : option Square) (colors : list Color) : bool :=
  match square with
  | Some sq =>
      match piece_at sq with
      | Some p => mem Color_eqb (color p) colors
      | None => false
      end
  | None => false
  end.

Definition COLORS : list Color := [white; brown; grey; black].
Definition TEAMS : list (list Color) := [[white; grey]; [brown; black]].

(** [Board.COLORS.index(c)] *)
Definition COLORS_index (c : Color) : Z :=
  match c with white => 0 | brown => 1 | grey => 2 | black => 3 end.

(** [Board.COLORS[::-1].index(c)] *)
Definition COLORS_rev_index (c : Color) : Z :=
  match c with black => 0 | grey => 1 | brown => 2 | white => 3 end.

(** [Board.get_teams]: the pair [(team, enemy_team)]. *)
Definition get_teams (c : Color) (own_first : bool) : list Color * list Color :=
  let probe := nth (if own_first then 1%nat else 0%nat) TEAMS [] in
  let teams := if mem Color_eqb c probe then rev TEAMS else TEAMS in
  (nth 0 teams [], nth 1 teams []).

Definition set_layout (b : Board) (l : list (option Square)) : Board :=
  mkBoard (turn b) (graveyard b) (castling_rights b) (checked b) (frozen b) l
          (winner b) (move_stack b).

Definition set_turn (b : Board) (c : Color) : Board :=
  mkBoard c (graveyard b) (castling_rights b) (checked b) (frozen b) (layout b)
          (winner b) (move_stack b).

Definition set_graveyard (b : Board) (g : list Piece) : Board :=
  mkBoard (turn b) g (castling_rights b) (checked b) (frozen b) (layout b)
          (winner b) (move_stack b).

Definition set_castling_rights (b : Board) (r : dict (list bool)) : Board :=
  mkBoard (turn b) (graveyard b) r (checked b) (frozen b) (layout b)
          (winner b) (move_stack b).

Definition set_checked (b : Board) (d : dict bool) : Board :=
  mkBoard (turn b) (graveyard b) (castling_rights b) d (frozen b) (layout b)
          (winner b) (move_stack b).

Definition set_frozen (b : Board) (d : dict bool) : Board :=
  mkBoard (turn b) (graveyard b) (castling_rights b) (checked b) d (layout b)
          (winner b) (move_stack b).

Definition set_winner (b : Board) (w : option (list Color)) : Board :=
  mkBoard (turn b) (graveyard b) (castling_rights b) (checked b) (frozen b) (layout b)
          w (move_stack b).

Definition set_move_stack (b : Board) (s : list Move) : Board :=
  mkBoard (turn b) (graveyard b) (castling_rights b) (checked b) (frozen b) (layout b)
          (winner b) s.

Definition set_castling (m : Move) (c : option (list bool)) : Move :=
  mkMove (from_square m) (to_square m) (promotion m) c (checks m).

Definition set_checks (m : Move) (c : option (dict bool)) : Move :=
  mkMove (from_square m) (to_square m) (promotion m) (castling m) c.

(** [x.attr] on a value that may be [None]. *)
Definition deref {A : Type} (o : option A) : res A :=
  match o with
  | Some a => Ret a
  | None => Raise AttributeError
  end.

(** [a or b] on optional pieces: a [Piece] is always truthy. *)
Definition piece_or (a : option Piece) (b : option Piece) : option Piece :=
  match a with
  | Some _ => a
  | None => b
  end.

(** [Board.currently_frozen] *)
Definition currently_frozen (b : Board) : list Color :=
  map fst (filter (fun kv => snd kv) (frozen b)).

(** [Board.update_square] *)
Definition update_square (b : Board) (square : Square) : res Board :=
  i <- Square_int square ;;
  l <- list_set (layout b) (i - 1) (Some square) ;;
  Ret (set_layout b l).

(** [Board.get_square] for a position string. *)
Definition get_square (b : Board) (num : string) : res (option Square) :=
  i <- pos_stoi num ;;
  list_get (layout b) (i - 1).

(** [Board.get_neighbour] *)
Definition get_neighbour (b : Board) (square : Square) (column row : Z) (adjust : bool)
  : res (option Square) :=
  let '(column, row) :=
    match piece_at square with
    | Some p =>
        if adjust then
          (match color p with
           | black => row | brown => - row | grey => column | white => - column
           end,
           match color p with
           | grey => row | white => - row | brown => column | black => - column
           end)
        else (column, row)
    | None => (column, row)
    end in
  x <- Square_x square ;;
  column' <- chr (ord x + column) ;;
  r <- Square_row square ;;
  let row' := r + row in
  if negb (mem Ascii.eqb column' (str_range "A" "P" 1)) || negb (mem Z.eqb row' (py_range 1 (16 + 1) 1))
  then Ret None
  else get_square b (String column' (str row')).

(** [Board.get_kings(ignore=ignore)] *)
Definition get_kings (b : Board) (ignore : option Color) : res (list Square) :=
  mapM (fun col =>
          list_get (flat_map (fun o => match o with
                                       | Some sq =>
                                           if opt_eqb Piece_eqb (piece_at sq) (Some (mkPiece king col))
                                           then [sq] else []
                                       | None => []
                                       end) (layout b)) 0)
       (filter (fun col => negb (opt_eqb Color_eqb ignore (Some col))) COLORS).

(** [Board.get_pawn_promotion_rank] *)
Definition promotion_rank_black : list string :=
  flat_map (fun l =>
              let jkl := mem Ascii.eqb l ["J"; "K"; "L"]%char in
              flat_map (fun n =>
                          if negb (mem Ascii.eqb l ["O"; "P"]%char && (4 <? n) && (n <? 13))
                          then [String l (str n)] else [])
                       (py_range (if jkl then 3 else 1) (if jkl then 15 else 17) 1))
           (str_range "J" "P" 1).

Definition get_pawn_promotion_rank (fuel : nat) (c : Color) : res (list string) :=
  mapM (fun s => pos_rot90 fuel s (COLORS_rev_index c)) promotion_rank_black.

(** Python's short-circuit [x or k] and [x and k] on tests that may raise:
    [k] is evaluated only when [x] does not decide. *)
Abbreviation orM x k := (bind x (fun r : bool => if r then Ret true else k)).
Abbreviation andM x k := (bind x (fun r : bool => if r then k else Ret false)).

(** The four orthogonal, the four diagonal and the eight knight offsets,
    in the order the source indexes them. *)
Definition orthogonal : list (Z * Z) := [(1, 0); (0, 1); (-1, 0); (0, -1)].
Definition diagonal : list (Z * Z) := [(1, 1); (1, -1); (-1, -1); (-1, 1)].
Definition knight_jumps : list (list (Z * Z)) :=
  [[(1, 2); (-1, 2)]; [(1, -2); (-1, -2)]; [(2, 1); (2, -1)]; [(-2, 1); (-2, -1)]].

(** ** Check detection: [Move.check_check] *)

(** One [for b in itertools.count(start=1)] scan away from the king. *)
Fixpoint attack_scan (fuel : nat) (board : Board) (square : Square) (d : Z * Z) (b : Z)
         (by_types : list PieceType) (enemy_team cf : list Color) : res bool :=
  match fuel with
  | O => OutOfFuel
  | S fuel' =>
      t1 <- get_neighbour board square (b * fst d) (b * snd d) false ;;
      match t1 with
      | None => Ret false
      | Some t =>
          match piece_at t with
          | None => attack_scan fuel' board square d (b + 1) by_types enemy_team cf
          | Some p =>
              Ret (mem Color_eqb (color p) enemy_team
                   && mem PieceType_eqb (type p) by_types
                   && negb (mem Color_eqb (color p) cf))
          end
      end
  end.

Fixpoint knight_scan (board : Board) (square : Square) (jumps : list (Z * Z))
         (enemy_team cf : list Color) : res bool :=
  match jumps with
  | [] => Ret false
  | d :: rest =>
      t1 <- get_neighbour board square (fst d) (snd d) false ;;
      match t1 with
      | None => knight_scan board square rest enemy_team cf
      | Some t =>
          match piece_at t with
          | None => knight_scan board square rest enemy_team cf
          | Some p =>
              if mem Color_eqb (color p) enemy_team
                 && mem PieceType_eqb (type p) [knight; queen]
                 && negb (mem Color_eqb (color p) cf)
              then Ret true
              else knight_scan board square rest enemy_team cf
          end
      end
  end.

Fixpoint pawn_scan (board : Board) (square : Square) (king_color : Color)
         (corners : list Z) (cf : list Color) : res bool :=
  match corners with
  | [] => Ret false
  | corner :: rest =>
      let d := nth (Z.to_nat corner) [(-1, 1); (-1, -1); (1, 1); (1, -1)] (0, 0) in
      t1 <- get_neighbour board square (fst d) (snd d) false ;;
      match t1 with
      | None => pawn_scan board square king_color rest cf
      | Some t =>
          match piece_at t with
          | None => pawn_scan board square king_color rest cf
          | Some p =>
              if negb (PieceType_eqb (type p) pawn)
              then pawn_scan board square king_color rest cf
              else
                let index := COLORS_index king_color - 1 in
                let index :=
                  if mem Color_eqb king_color (nth 1 TEAMS []) then
                    if Z.land corner 1 =? (if Color_eqb king_color brown then 1 else 0)
                    then index - 2 else index
                  else
                    (if Color_eqb king_color grey then index - 2 else index)
                    + (corner - Z.land corner 1) in
                attacker <- list_get COLORS index ;;
                if Color_eqb (color p) attacker && negb (mem Color_eqb (color p) cf)
                then Ret true
                else pawn_scan board square king_color rest cf
          end
      end
  end.

Fixpoint check_rays (fuel : nat) (board : Board) (square : Square) (a : list nat)
         (enemy_team cf : list Color) : res bool :=
  match a with
  | [] => Ret false
  | i :: rest =>
      orM (attack_scan fuel board square (nth i orthogonal (0, 0)) 1 [rook; queen] enemy_team cf)
      (orM (attack_scan fuel board square (nth i diagonal (0, 0)) 1 [bishop; queen] enemy_team cf)
      (orM (knight_scan board square (nth i knight_jumps []) enemy_team cf)
           (check_rays fuel board square rest enemy_team cf)))
  end.

Definition check_check (fuel : nat) (board : Board) (square : option Square) : res bool :=
  match square with
  | None => Ret false
  | Some sq =>
      match piece_at sq with
      | None => Ret false
      | Some p =>
          if negb (PieceType_eqb (type p) king) then Ret false
          else
            let '(team, enemy_team) := get_teams (color p) true in
            let cf := currently_frozen board in
            orM (check_rays fuel board sq [0; 1; 2; 3]%nat enemy_team cf)
                (pawn_scan board sq (color p) [0; 1; 2; 3] cf)
      end
  end.

(** ** Move generation: [Move.possible_moves] *)

(** One [for b in itertools.count(start=1)] ray of a rook, bishop or queen. *)
Fixpoint slide (fuel : nat) (board : Board) (square : Square) (d : Z * Z) (b : Z)
         (enemy_team : list Color) : res (list (option Square)) :=
  match fuel with
  | O => OutOfFuel
  | S fuel' =>
      t1 <- get_neighbour board square (b * fst d) (b * snd d) false ;;
      match t1 with
      | None => Ret []
      | Some t =>
          match piece_at t with
          | None =>
              rest <- slide fuel' board square d (b + 1) enemy_team ;;
              Ret (Some t :: rest)
          | Some p =>
              Ret (if mem Color_eqb (color p) enemy_team then [Some t] else [])
          end
      end
  end.

(** A list of single steps (king, knight): empty squares and enemies. *)
Fixpoint steps (board : Board) (square : Square) (ds : list (Z * Z))
         (enemy_team : list Color) : res (list (option Square)) :=
  match ds with
  | [] => Ret []
  | d :: rest =>
      t1 <- get_neighbour board square (fst d) (snd d) false ;;
      more <- steps board square rest enemy_team ;;
      match t1 with
      | None => Ret more
      | Some t =>
          match piece_at t with
          | None => Ret (Some t :: more)
          | Some p =>
              Ret (if mem Color_eqb (color p) enemy_team then Some t :: more else more)
          end
      end
  end.

(** [for step in range(1, 3+queenside): ... break ... else: ...]: true
    when the loop ends without [break]. *)
Fixpoint castling_path_free (board : Board) (square : Square) (queenside : Z)
         (step_list : list Z) : res bool :=
  match step_list with
  | [] => Ret true
  | step :: rest =>
      t1 <- get_neighbour board square (if queenside =? 0 then step else - step) 0 true ;;
      t <- deref t1 ;;
      match piece_at t with
      | Some _ => Ret false
      | None => castling_path_free board square queenside rest
      end
  end.

Fixpoint castling_moves (board : Board) (square : Square) (queenside : Z)
         (rights : list bool) : res (list (option Square)) :=
  match rights with
  | [] => Ret []
  | granted :: rest =>
      here <-
        (if negb granted then Ret []
         else
           free <- castling_path_free board square queenside (py_range 1 (3 + queenside) 1) ;;
           if free then
             t <- get_neighbour board square (if queenside =? 0 then 2 else -2) 0 true ;;
             Ret [t]
           else Ret []) ;;
      more <- castling_moves board square (queenside + 1) rest ;;
      Ret (here ++ more)
  end.

Fixpoint concatM {A : Type} (l : list (res (list A))) : res (list A) :=
  match l with
  | [] => Ret []
  | x :: rest => a <- x ;; b <- concatM rest ;; Ret (a ++ b)
  end.

Definition possible_moves (fuel : nat) (board : Board) (square : Square)
  : res (list (option Square)) :=
  p <- deref (piece_at square) ;;
  let '(team, enemy_team) := get_teams (color p) true in
  (* enemy_team is a tuple: enemy_team.remove(cf) raises AttributeError *)
  if existsb (fun cf => mem Color_eqb cf enemy_team) (currently_frozen board)
  then Raise AttributeError
  else
    match type p with
    | pawn =>
        t1 <- get_neighbour board square 0 1 true ;;
        match t1 with
        | None => Ret []
        | Some t =>
            ahead <-
              (match piece_at t with
               | Some _ => Ret []
               | None =>
                   home <- mapM (fun s => pos_rot90 fuel s (COLORS_rev_index (color p)))
                                (map (fun n => String "D" (str n)) (py_range 5 13 1)) ;;
                   if mem String.eqb (position square) home then
                     t2 <- get_neighbour board square 0 2 true ;;
                     match t2 with
                     | Some t2' =>
                         match piece_at t2' with
                         | None => Ret [Some t; Some t2']
                         | Some _ => Ret [Some t]
                         end
                     | None => Ret [Some t]
                     end
                   else Ret [Some t]
               end) ;;
            t1 <- get_neighbour board square 1 1 true ;;
            let take1 := if check_enemy t1 enemy_team then [t1] else [] in
            t1 <- get_neighbour board square (-1) 1 true ;;
            let take2 := if check_enemy t1 enemy_team then [t1] else [] in
            Ret (ahead ++ take1 ++ take2)
        end
    | king =>
        around <- steps board square
                        [(1, 1); (1, 0); (1, -1); (0, -1); (-1, -1); (-1, 0); (-1, 1); (0, 1)]
                        enemy_team ;;
        rights <- dict_item (castling_rights board) (color p) ;;
        castles <- (if existsb (fun r => r) rights
                    then castling_moves board square 0 rights
                    else Ret []) ;;
        Ret (around ++ castles)
    | _ =>
        straight <-
          (if mem PieceType_eqb (type p) [rook; queen]
           then concatM (map (fun d => slide fuel board square d 1 enemy_team) orthogonal)
           else Ret []) ;;
        slanted <-
          (if mem PieceType_eqb (type p) [bishop; queen]
           then concatM (map (fun d => slide fuel board square d 1 enemy_team) diagonal)
           else Ret []) ;;
        jumps <-
          (if mem PieceType_eqb (type p) [knight; queen]
           then steps board square (List.concat knight_jumps) enemy_team
           else Ret []) ;;
        Ret (straight ++ slanted ++ jumps)
    end.

(** ** The legality pipeline: [Board.is_valid] *)

(** The squares of the four fortress regions:
    [[pos_rot90(a+str(b).zfill(2), n) for n in range(4)
      for a in str_range("K", "P") for b in range(1, 7)]]. *)
Definition fortress_squares (fuel : nat) : res (list string) :=
  mapM (fun nab : Z * string => pos_rot90 fuel (snd nab) (fst nab))
       (flat_map (fun n =>
                    flat_map (fun a => map (fun b => (n, String a (zfill 2 (str b))))
                                           (py_range 1 7 1))
                             (str_range "K" "P" 1))
                 (py_range 0 4 1)).

Definition knight_walls : list (list string) :=
  [["F03"; "D02"]; ["F03"; "D04"]; ["F04"; "D03"]; ["E03"; "C02"];
   ["E03"; "C04"]; ["E03"; "D01"]; ["E04"; "D02"]; ["E04"; "C03"]].

Definition bishop_walls : list (list (list string)) :=
  [[["K03"; "L04"]; ["M05"; "N06"]];
   [["L03"; "M04"]; ["N05"; "N05"]];
   [["A14"; "L03"]; ["M02"; "N01"]];
   [["K03"; "A13"]; ["M01"; "M01"]];
   [["P01"; "M04"]; ["L05"; "A16"]];
   [["P02"; "N04"]; ["M05"; "B16"]];
   [["P03"; "O04"]; ["N05"; "C16"]];
   [["D16"; "N06"]; ["P04"; "P04"]]].

(** [Square.square_in_ray(squares, *positions)] with [require_all=False]. *)
Definition square_in_ray (squares : list Square) (positions : list string) : res bool :=
  match positions with
  | [pos1; pos2] =>
      ray <- get_ray pos1 pos2 ;;
      Ret (list_in_list String.eqb (map position squares) ray false)
  | _ => Raise TypeError
  end.

(** The knight part of the wall test. *)
Definition knight_wall (fuel : nat) (fs ts : Square) : res bool :=
  l <- mapM (fun na : Z * list string =>
               r <- pos_rot90_list fuel (snd na) (fst na) ;;
               Ret (list_in_list String.eqb [position fs; position ts] r true))
            (flat_map (fun n => map (fun a => (n, a)) knight_walls) (py_range 0 4 1)) ;;
  Ret (existsb (fun x => x) l).

(** One of the four rook parts: both files (or both rows) inside [lane],
    and the other coordinates not both on one side of the wall. *)
Definition rook_wall {A B : Type} (eqa : A -> A -> bool) (eqb : B -> B -> bool)
           (along : res (list A)) (lane : list A)
           (across : res (list B)) (side1 side2 : list B) : res bool :=
  andM (l <- along ;; Ret (list_in_list eqa l lane true))
       (l <- across ;;
        Ret (negb (list_in_list eqb l side1 true || list_in_list eqb l side2 true))).

(** The bishop part of the wall test. *)
Definition bishop_wall (fuel : nat) (fs ts : Square) : res bool :=
  l <- mapM (fun n =>
               l' <- mapM (fun a =>
                             l'' <- mapM (fun xy =>
                                            r <- pos_rot90_list fuel xy n ;;
                                            square_in_ray [fs; ts] r) a ;;
                             Ret (forallb (fun x => x) l''))
                          bishop_walls ;;
               Ret (existsb (fun x => x) l'))
            (py_range 0 4 1) ;;
  Ret (existsb (fun x => x) l).

(** The condition of the fortress test (lines 311-340 of [4chess.py]). *)
Definition walls_in_the_way (fuel : nat) (fs ts : Square) : res bool :=
  let xs := (a <- Square_x fs ;; b <- Square_x ts ;; Ret [a; b]) in
  let rows := (a <- Square_row fs ;; b <- Square_row ts ;; Ret [a; b]) in
  andM (region <- fortress_squares fuel ;;
        Ret (list_in_list String.eqb [position fs; position ts] region false))
  (orM (knight_wall fuel fs ts)
  (orM (rook_wall Ascii.eqb Z.eqb xs ["M"; "N"]%char rows (py_range 1 5 1) (py_range 5 17 1))
  (orM (rook_wall Ascii.eqb Z.eqb xs ["C"; "D"]%char rows (py_range 1 13 1) (py_range 13 17 1))
  (orM (rook_wall Z.eqb Ascii.eqb rows [3; 4] xs (str_range "A" "D" 1) (str_range "E" "P" 1))
  (orM (rook_wall Z.eqb Ascii.eqb rows [13; 14] xs (str_range "A" "L" 1) (str_range "M" "P" 1))
       (bishop_wall fuel fs ts)))))).

(** The layout on which the checks of a move to [pos] are computed:
    the source square emptied, the moving (or promoted) piece put on [pos]. *)
Definition scratch (b : Board) (m : Move) (pos : string) : res Board :=
  empty <- Square_new (position (from_square m)) None ;;
  b1 <- update_square b empty ;;
  moved <- Square_new pos (piece_or (promotion m) (piece_at (from_square m))) ;;
  update_square b1 moved.

(** [{king_sq.piece_at.color: Move.check_check(self, king_sq)
      for king_sq in self.get_kings(ignore=ignore)}] *)
Definition check_map (fuel : nat) (b : Board) (ignore : option Color) : res (dict bool) :=
  kings <- get_kings b ignore ;;
  mapM (fun king_sq =>
          p <- deref (piece_at king_sq) ;;
          c <- check_check fuel b (Some king_sq) ;;
          Ret (color p, c)) kings.

(** [(set(team) - {color}).pop()] *)
Definition other_of (team : list Color) (c : Color) : res Color :=
  match filter (fun a => negb (Color_eqb a c)) team with
  | a :: _ => Ret a
  | [] => Raise KeyError
  end.

(** The loop "check checks" of [is_valid] over the squares the king
    crosses (when castling) and the destination. *)
Fixpoint check_loop (fuel : nat) (b : Board) (m : Move) (mover : Piece) (team : list Color)
         (ignore_check : bool) (positions : list string) : res (verdict * Move * Board) :=
  match positions with
  | [] => Ret (Valid (checks m), m, b)
  | pos :: rest =>
      sq <- get_square b pos ;;
      sq <- deref sq ;;
      let ignore :=
        match piece_at sq with
        | Some q => if PieceType_eqb (type q) king then Some (color q) else None
        | None => None
        end in
      let tmp := layout b in
      b2 <- scratch b m pos ;;
      cks <- check_map fuel b2 ignore ;;
      let m := set_checks m (Some cks) in
      let b := set_layout b2 tmp in
      if negb ignore_check && dict_get_default cks (color mover) true
      then Ret (Invalid CheckmateYourself, m, b)
      else
        c <- other_of team (color mover) ;;
        if negb ignore_check && dict_get_default cks c true
           && negb (dict_get_default (checked b) c false)
        then Ret (Invalid CheckmateTeammate, m, b)
        else check_loop fuel b m mover team ignore_check rest
  end.

(** [for n, a in enumerate((6, 10))]: the castling flag of a king move
    from its home square, if the destination is a castling square. *)
Fixpoint castling_flag (fuel : nat) (ts : Square) (mover : Piece)
         (sides : list (list bool * Z)) : res (option (list bool)) :=
  match sides with
  | [] => Ret None
  | (flag, a) :: rest =>
      target <- pos_rot90 fuel (String "C" (str a)) (COLORS_rev_index (color mover)) ;;
      if String.eqb (position ts) target then Ret (Some flag)
      else castling_flag fuel ts mover rest
  end.

Definition is_valid (fuel : nat) (b : Board) (m : Move) (ignore_turn ignore_check : bool)
  : res (verdict * Move * Board) :=
  match to_square m with
  | None => Ret (Invalid SquareToOutOfBounds, m, b)
  | Some ts =>
  let fs := from_square m in
  match piece_at fs with
  | None => Ret (Invalid SquareFromNoPiece, m, b)
  | Some p =>
  if negb ignore_turn && negb (Color_eqb (color p) (turn b))
  then Ret (Invalid SquareFromNotYourPiece, m, b)
  else if Square_eqb fs ts
  then Ret (Invalid SquareFromAndToSame, m, b)
  else
  let '(team, enemy_team) := get_teams (color p) true in
  if match piece_at ts with
     | Some q => mem Color_eqb (color q) team
     | None => false
     end
  then Ret (Invalid FriendlyFire, m, b)
  else
  walled <- walls_in_the_way fuel fs ts ;;
  if walled then Ret (Invalid WallsInTheWay, m, b)
  else
  bad_promotion <-
    (match promotion m with
     | None => Ret None
     | Some _ =>
         if negb (PieceType_eqb (type p) pawn) then Ret (Some PromotionFromNonPawn)
         else
           rank <- get_pawn_promotion_rank fuel (color p) ;;
           if negb (mem String.eqb (position ts) rank) then Ret (Some PromotionOutOfBounds)
           else Ret None
     end) ;;
  match bad_promotion with
  | Some msg => Ret (Invalid msg, m, b)
  | None =>
  if match piece_at ts with
     | Some q => mem Color_eqb (color q) (currently_frozen b)
     | None => false
     end
  then Ret (Invalid TargetFrozen, m, b)
  else
  pm <- possible_moves fuel b fs ;;
  if negb (mem (opt_eqb Square_eqb) (Some ts) pm)
  then Ret (Invalid SquareToIllegal, m, b)
  else
  (* check castling next *)
  home <- pos_rot90 fuel "C8" (COLORS_rev_index (color p)) ;;
  home_sq <- Square_new home (Some (mkPiece king (color p))) ;;
  flag <- (if Square_eqb fs home_sq
           then castling_flag fuel ts p [([true; false], 6); ([false; true], 10)]
           else Ret None) ;;
  let m := match flag with Some f => set_castling m (Some f) | None => m end in
  transit <-
    (match flag with
     | None => Ret []
     | Some _ =>
         c <- deref (castling m) ;;
         kingside <- list_get c 0 ;;
         mapM (fun step =>
                 t <- get_neighbour b fs step 0 true ;;
                 t <- deref t ;;
                 Ret (position t))
              (if kingside then [1] else [-1; -2])
     end) ;;
  check_loop fuel b m p team ignore_check (transit ++ [position ts])
  end end end.

(** ** Enumerating moves: [Move.possible_legal_moves_color] *)

(** [for c in range(2 if promotion else 1)] *)
Fixpoint variants (fuel : nat) (b : Board) (square : Square) (possible_square : option Square)
         (c0 : Color) (is_promotion : bool) (cs : list Z) : res (list Move * Board) :=
  match cs with
  | [] => Ret ([], b)
  | c :: rest =>
      let mv := mkMove square possible_square
                       (if is_promotion && negb (c =? 0) then Some (mkPiece queen c0) else None)
                       None None in
      '(v, mv, b) <- is_valid fuel b mv true true ;;
      '(more, b) <- variants fuel b square possible_square c0 is_promotion rest ;;
      Ret (match v with Valid _ => mv :: more | Invalid _ => more end, b)
  end.

(** [for possible_square in filter(..., possible_moves(board, square))] *)
Fixpoint targets (fuel : nat) (b : Board) (square : Square) (c0 : Color) (cf : list Color)
         (pm : list (option Square)) : res (list Move * Board) :=
  match pm with
  | [] => Ret ([], b)
  | s :: rest =>
      sq <- deref s ;;
      if match piece_at sq with
         | None => true
         | Some q => negb (mem Color_eqb (color q) cf)
         end
      then
        p <- deref (piece_at square) ;;
        is_promotion <-
          (if PieceType_eqb (type p) pawn
           then rank <- get_pawn_promotion_rank fuel (color p) ;;
                Ret (mem String.eqb (position sq) rank)
           else Ret false) ;;
        '(found, b) <- variants fuel b square s c0 is_promotion
                                (py_range 0 (if is_promotion then 2 else 1) 1) ;;
        '(more, b) <- targets fuel b square c0 cf rest ;;
        Ret (found ++ more, b)
      else targets fuel b square c0 cf rest
  end.

(** [for square in squares] *)
Fixpoint sources (fuel : nat) (b : Board) (c0 : Color) (cf : list Color)
         (squares : list Square) : res (list Move * Board) :=
  match squares with
  | [] => Ret ([], b)
  | square :: rest =>
      pm <- possible_moves fuel b square ;;
      '(found, b) <- targets fuel b square c0 cf pm ;;
      '(more, b) <- sources fuel b c0 cf rest ;;
      Ret (found ++ more, b)
  end.

Definition possible_legal_moves_color (fuel : nat) (board : Board) (c0 : Color)
  : res (list Move * Board) :=
  let squares :=
    flat_map (fun a => match a with
                       | Some sq =>
                           match piece_at sq with
                           | Some p => if Color_eqb (color p) c0 then [sq] else []
                           | None => []
                           end
                       | None => []
                       end) (layout board) in
  match squares with
  | [] => Raise ValueError
  | _ => sources fuel board c0 (currently_frozen board) squares
  end.

(** ** The state machine: [is_mate], [update_frozen], [next_turn], [move], [pop] *)

Definition is_mate (fuel : nat) (b : Board) (c : Color) : res (Z * Board) :=
  '(pm, b) <- possible_legal_moves_color fuel b c ;;
  match pm with
  | _ :: _ => Ret (0, b)
  | [] =>
      chk <- dict_item (checked b) c ;;
      Ret (if chk then 1 else 2, b)
  end.

Fixpoint mates (fuel : nat) (b : Board) (keys : list Color) : res (dict bool * Board) :=
  match keys with
  | [] => Ret ([], b)
  | k :: rest =>
      '(r, b) <- is_mate fuel b k ;;
      '(more, b) <- mates fuel b rest ;;
      Ret ((k, negb (r =? 0)) :: more, b)
  end.

Definition update_frozen (fuel : nat) (b : Board) : res Board :=
  '(d, b) <- mates fuel b (map fst (frozen b)) ;;
  Ret (set_frozen b d).

Definition check_checks (fuel : nat) (b : Board) : res Board :=
  d <- check_map fuel b None ;;
  Ret (set_checked b d).

Fixpoint next_turn (fuel : nat) (b : Board) (jumps : Z) (skip_frozen : bool) : res Board :=
  match fuel with
  | O => OutOfFuel
  | S fuel' =>
      t <- list_get COLORS ((COLORS_index (turn b) + jumps) mod 4) ;;
      let b := set_turn b t in
      if skip_frozen then
        f <- dict_item (frozen b) (turn b) ;;
        if f then next_turn fuel' b jumps skip_frozen else Ret b
      else Ret b
  end.

(** The rook's share of castling, in [move] and (with the two squares
    exchanged) in [pop]: [for index, start, end in ...].  [mover] is
    [move.from_square.piece_at.color], read when a flag is set. *)
Fixpoint castle_rooks (fuel : nat) (b : Board) (cs : list bool) (mover : res Color)
         (rooks : list (Z * string * string)) : res Board :=
  match rooks with
  | [] => Ret b
  | (index, rook_start, rook_end) :: rest =>
      c <- list_get cs index ;;
      b <- (if c then
              who <- mover ;;
              start <- pos_rot90 fuel rook_start (COLORS_rev_index who) ;;
              rook_sq <- get_square b start ;;
              rook_target_sq <- pos_rot90 fuel rook_end (COLORS_rev_index who) ;;
              rook_sq <- deref rook_sq ;;
              empty <- Square_new (position rook_sq) None ;;
              b <- update_square b empty ;;
              moved <- Square_new rook_target_sq (piece_at rook_sq) ;;
              update_square b moved
            else Ret b) ;;
      castle_rooks fuel b cs mover rest
  end.

(** [for n in range(2): if move.castling[n]:
       self.castling_rights[color][n] = value; break] *)
Fixpoint grant (b : Board) (cs : list bool) (mover : res Color) (value : bool) (ns : list Z)
  : res Board :=
  match ns with
  | [] => Ret b
  | n :: rest =>
      c <- list_get cs n ;;
      if c then
        who <- mover ;;
        rights <- dict_item (castling_rights b) who ;;
        rights <- list_set rights n value ;;
        Ret (set_castling_rights b (dict_set (castling_rights b) who rights))
      else grant b cs mover value rest
  end.

(** [Board.move] down to [self.move_stack.append(move)]. *)
Definition execute (fuel : nat) (b : Board) (m : Move) : res Board :=
  p <- deref (piece_at (from_square m)) ;;
  let '(team, enemy_team) := get_teams (color p) true in
  ts <- deref (to_square m) ;;
  let b := match piece_at ts with
           | Some q => set_graveyard b (graveyard b ++ [q])
           | None => b
           end in
  empty <- Square_new (position (from_square m)) None ;;
  b <- update_square b empty ;;
  moved <- Square_new (position ts) (piece_or (promotion m) (piece_at (from_square m))) ;;
  b <- update_square b moved ;;
  b <- (match castling m with
        | None => Ret b
        | Some cs =>
            b <- castle_rooks fuel b cs (Ret (color p)) [(0, "C5", "C7"); (1, "C12", "C9")] ;;
            grant b cs (Ret (color p)) false (py_range 0 2 1)
        end) ;;
  let b := set_checked b (match checks m with
                          | Some ((_ :: _) as d) => d
                          | _ => checked b
                          end) in
  b <- update_frozen fuel b ;;
  lost <- mapM (fun a => dict_item (frozen b) a) enemy_team ;;
  let b := if forallb (fun x => x) lost then set_winner b (Some team) else b in
  Ret (set_move_stack b (move_stack b ++ [m])).

(** [Board.move]: execute a move, then [self.next_turn()]. *)
Definition move (fuel : nat) (b : Board) (m : Move) : res Board :=
  b <- execute fuel b m ;;
  next_turn fuel b 1 true.

(** [Board.pop]: undo a move. *)
Definition pop (fuel : nat) (b : Board) : res (bool * Board) :=
  match rev (move_stack b) with
  | [] => Ret (false, b)
  | m :: _ =>
      let b := set_move_stack b (removelast (move_stack b)) in
      ts <- deref (to_square m) ;;
      b <- (match piece_at ts with
            | Some _ =>
                match graveyard b with
                | [] => Raise IndexError
                | _ => Ret (set_graveyard b (removelast (graveyard b)))
                end
            | None => Ret b
            end) ;;
      b <- update_square b (from_square m) ;;
      b <- update_square b ts ;;
      b <- (match checks m with
            | Some ((_ :: _) as d) => Ret (set_checked b d)
            | _ => check_checks fuel b
            end) ;;
      b <- update_frozen fuel b ;;
      b <- (match castling m with
            | None => Ret b
            | Some cs =>
                let mover := (p <- deref (piece_at (from_square m)) ;; Ret (color p)) in
                b <- castle_rooks fuel b cs mover [(0, "C7", "C5"); (1, "C9", "C12")] ;;
                grant b cs mover true (py_range 0 2 1)
            end) ;;
      b <- next_turn fuel b (-1) true ;;
      Ret (true, b)
  end.

(** [Board.__init__] *)
Definition start_pieces (fuel : nat) (n : Z) (a : Color) : res (list Square) :=
  main <- mapM (fun x : string * Z * ascii =>
                  let '(num, n2, p) := x in
                  c <- chr n2 ;;
                  pos <- pos_rot90 fuel (String c (zfill 2 num)) n ;;
                  t <- match from_initial p with Some t => Ret t | None => Raise TypeError end ;;
                  Square_new pos (Some (mkPiece t a)))
               (flat_map (fun rn : string * string =>
                            map (fun np : Z * ascii => (snd rn, fst np, snd np))
                                (combine (py_range (ord "E") (ord "E" + 8) 1)
                                         (list_ascii_of_string (fst rn))))
                         [("rnbqkbnr", "3"); ("pppppppp", "4")]) ;;
  extra <- mapM (fun ps : ascii * string =>
                   pos <- pos_rot90 fuel (snd ps) n ;;
                   t <- match from_initial (fst ps) with
                        | Some t => Ret t
                        | None => Raise TypeError
                        end ;;
                   Square_new pos (Some (mkPiece t a)))
                [("n"%char, "N3"); ("b"%char, "O1"); ("r"%char, "P4")] ;;
  Ret (main ++ extra).

Fixpoint place (b : Board) (squares : list Square) : res Board :=
  match squares with
  | [] => Ret b
  | s :: rest => b <- update_square b s ;; place b rest
  end.

Fixpoint place_colors (fuel : nat) (b : Board) (colors : list (Z * Color)) : res Board :=
  match colors with
  | [] => Ret b
  | (n, a) :: rest =>
      squares <- start_pieces fuel n a ;;
      b <- place b squares ;;
      place_colors fuel b rest
  end.

Definition empty_layout : list (option Square) :=
  let full := map (fun a => Some (Square_of_int a)) (py_range 1 (16 * 16 + 1) 1) in
  let notched :=
    fold_left (fun l a => slice_assign l (a * 16 + 4) (a * 16 + 12) (repeat None 8))
              [0; 1; 14; 15]%nat full in
  fold_left (fun l a =>
               slice_assign (slice_assign l (a * 16) (a * 16 + 2) (repeat None 2))
                            ((a + 1) * 16 - 2) ((a + 1) * 16) (repeat None 2))
            (seq 4 8) notched.

Definition Board_init (fuel : nat) : res Board :=
  let checked0 := map (fun a => (a, false)) COLORS in
  place_colors fuel
    (mkBoard white [] (map (fun a => (a, repeat true 2)) COLORS) checked0 checked0
             empty_layout None [])
    [(0, grey); (1, brown); (2, white); (3, black)].

(** ** Positions, counts and games used in the statements *)

(** The 256 position strings of the grid, ["A01"] to ["P16"], as
    [Square(a)] names them for [a] in [range(1, 257)]. *)
Definition positions : list string := map pos_itos (py_range 1 (16 * 16 + 1) 1).

Definition valid_position (p : string) : bool := mem String.eqb p positions.

(** The ray of the specification: the squares on the straight line from
    [pos1] to [pos2], both ends included; ValueError off a diagonal. *)
Definition ray_spec (pos1 pos2 : string) : res (list string) :=
  c1 <- str_head (upper pos1) ;;
  c2 <- str_head (upper pos2) ;;
  r1 <- int (str_tail pos1) ;;
  r2 <- int (str_tail pos2) ;;
  if negb (Z.abs (ord c1 - ord c2) =? Z.abs (r1 - r2)) then Raise ValueError
  else Ret (map (fun i => String (chr_byte (ord c1 + i * Z.sgn (ord c2 - ord c1)))
                                 (zfill 2 (str (r1 + i * Z.sgn (r2 - r1)))))
                (py_range 0 (Z.abs (r1 - r2) + 1) 1)).

(** The pieces on the board, in layout order. *)
Definition pieces (b : Board) : list Piece :=
  flat_map (fun o => match o with
                     | Some sq => match piece_at sq with Some p => [p] | None => [] end
                     | None => []
                     end) (layout b).

Definition count (b : Board) (t : PieceType) (c : Color) : nat :=
  List.length (filter (Piece_eqb (mkPiece t c)) (pieces b)).

Definition force {A : Type} (default : A) (r : res A) : A :=
  match r with
  | Ret a => a
  | _ => default
  end.

(** A board with no piece on it. *)
Definition bare : Board :=
  mkBoard white [] (map (fun a => (a, repeat true 2)) COLORS)
          (map (fun a => (a, false)) COLORS) (map (fun a => (a, false)) COLORS)
          empty_layout None [].

(** The board [Board()] builds. *)
Definition start : Board := Eval vm_compute in force bare (Board_init 4).

(** A caller's [Move(board.get_square(a), board.get_square(b), promotion)]. *)
Definition new_move (b : Board) (a z : string) (promo : option Piece) : res Move :=
  fs <- get_square b a ;;
  fs <- deref fs ;;
  ts <- get_square b z ;;
  Ret (mkMove fs ts promo None None).

(** A caller's turn: build the move, validate it, execute it when valid. *)
Definition play (fuel : nat) (b : Board) (az : string * string) : res Board :=
  m <- new_move b (fst az) (snd az) None ;;
  '(v, m, b) <- is_valid fuel b m false false ;;
  match v with
  | Valid _ => move fuel b m
  | Invalid _ => Raise ValueError
  end.

Fixpoint play_all (fuel : nat) (b : Board) (game : list (string * string)) : res Board :=
  match game with
  | [] => Ret b
  | az :: rest => b <- play fuel b az ;; play_all fuel b rest
  end.

(** Four rounds from the start.  White clears its king side and opens
    its queen's diagonal, black walks a pawn to file I, brown and grey
    push a pawn each. *)
Definition opening : list (string * string) :=
  [("F14", "G12"); ("M06", "L06"); ("E04", "E05"); ("D08", "F08");
   ("F13", "F12"); ("L06", "K06"); ("E05", "E06"); ("F08", "G08");
   ("G14", "F13"); ("K06", "J06"); ("E06", "E07"); ("G08", "H08");
   ("J13", "J12"); ("J06", "I06"); ("E07", "E08"); ("H08", "I08")].

(** The position after [opening], white to move. *)
Definition midgame : Board := Eval vm_compute in force bare (play_all 20 start opening).

(** White's queen takes the pawn on M10, with check to the brown king:
    the move as a caller builds it, as [is_valid] leaves it, the board
    after [move], and the board after [pop]. *)
Definition queen_takes : Move :=
  mkMove (mkSquare "I14" (Some (mkPiece queen white)))
         (Some (mkSquare "M10" (Some (mkPiece pawn brown)))) None None None.

Definition queen_takes_valid : Move :=
  Eval vm_compute in
    force queen_takes ('(_, m, _) <- is_valid 20 midgame queen_takes false false ;; Ret m).

Definition after_queen_takes : Board :=
  Eval vm_compute in force bare (move 20 midgame queen_takes_valid).

Definition queen_undone : Board :=
  Eval vm_compute in force bare ('(_, b) <- pop 20 after_queen_takes ;; Ret b).

(** White castles king side in the same position. *)
Definition castle : Move :=
  mkMove (mkSquare "H14" (Some (mkPiece king white))) (Some (mkSquare "F14" None))
         None None None.

Definition castle_valid : Move :=
  Eval vm_compute in
    force castle ('(_, m, _) <- is_valid 20 midgame castle false false ;; Ret m).


(** The rotations of the jump F03-D02, by [pos_rot90]. *)
Definition F03_D02 : list (string * string) :=
  Eval vm_compute in
    force [] (mapM (fun n => a <- pos_rot90 4 "F03" n ;; z <- pos_rot90 4 "D02" n ;; Ret (a, z))
                   (py_range 0 4 1)).

(** Grey's knight on its own square, jumping into the fortress. *)
Definition grey_knight_jump : Move :=
  mkMove (mkSquare "F03" (Some (mkPiece knight grey))) (Some (mkSquare "D02" None))
         None None None.

(** A position where every colour can move, and one capture away from
    none being able to: two kings walled in by their own pawns on the
    lower edge, two on the right edge, and in the upper middle a white
    pawn on H05 that can take the brown pawn on I04. *)
Definition sqr (pos : string) (t : PieceType) (c : Color) : Square :=
  mkSquare pos (Some (mkPiece t c)).

Definition deadlock_pieces : list Square :=
  [ sqr "H03" pawn white; sqr "I03" pawn brown; sqr "J03" pawn grey;
    sqr "I04" pawn brown; sqr "J04" pawn brown;
    sqr "H05" pawn white;
    sqr "G06" pawn black; sqr "H06" pawn brown;
    sqr "G12" pawn grey; sqr "H12" pawn grey; sqr "I12" pawn grey;
    sqr "G13" pawn grey; sqr "H13" king grey; sqr "I13" pawn grey;
    sqr "G14" pawn white; sqr "H14" king white; sqr "I14" pawn white;
    sqr "L07" pawn black; sqr "M07" pawn black; sqr "N07" pawn brown;
    sqr "L08" pawn black; sqr "M08" king black; sqr "N08" king brown;
    sqr "L09" pawn black; sqr "M09" pawn black; sqr "N09" pawn brown ].

Definition before_deadlock : Board :=
  Eval vm_compute in force bare (place bare deadlock_pieces).

Definition pawn_takes : Move :=
  mkMove (sqr "H05" pawn white) (Some (sqr "I04" pawn brown)) None None None.

Definition pawn_takes_valid : Move :=
  Eval vm_compute in
    force pawn_takes ('(_, m, _) <- is_valid 4 before_deadlock pawn_takes false false ;; Ret m).

(** The board [move] has built when it reaches [self.next_turn()]. *)
Definition deadlock : Board :=
  Eval vm_compute in force bare (execute 4 before_deadlock pawn_takes_valid).

(** One quarter turn of a position of the grid, and [n] of them. *)
Definition quarter (p : string) : string := force p (pos_rot90 2 p 1).

Fixpoint turns (n : nat) (p : string) : string :=
  match n with
  | O => p
  | S n' => turns n' (quarter p)
  end.



Fixpoint list_eqb {A : Type} (eqb : A -> A -> bool) (a b : list A) : bool :=
  match a, b with
  | [], [] => true
  | x :: a', y :: b' => eqb x y && list_eqb eqb a' b'
  | _, _ => false
  end.

(** Two results of [get_ray] are the same list, or the same ValueError. *)
Definition same_ray (r1 r2 : res (list string)) : bool :=
  match r1, r2 with
  | Ret a, Ret b => list_eqb String.eqb a b
  | Raise ValueError, Raise ValueError => true
  | _, _ => false
  end.

(** ** The remaining helpers of the two files *)

(** [Piece.piece_initials], as the list of its items. *)
Definition piece_initials : list (ascii * PieceType) :=
  combine ["k"; "q"; "r"; "b"; "n"; "p"]%char [king; queen; rook; bishop; knight; pawn].

(** [Piece.to_initial]: [{v: k for k, v in piece_initials.items()}.get(name)] *)
Definition to_initial (name : PieceType) : option ascii :=
  match find (fun kv => PieceType_eqb (snd kv) name) (rev piece_initials) with
  | Some kv => Some (fst kv)
  | None => None
  end.

(** [Board.get_teammate] for one of the four colours (for any other
    string the source returns None; [Color] has no such value). *)
Definition get_teammate (c : Color) : res Color :=
  list_get COLORS (COLORS_index c - 2).

(** [utils.chunk_list]: [[_lst[i:i+n] for i in range(0, len(_lst), n)]];
    [range] raises ValueError for a step of zero. *)
Definition chunk_list {A : Type} (lst : list A) (n : Z) : res (list (list A)) :=
  if n =? 0 then Raise ValueError
  else Ret (map (fun i => firstn (Z.to_nat n) (skipn (Z.to_nat i) lst))
                (py_range 0 (Z.of_nat (List.length lst)) n)).

(** Four ways to write the position of index [i]: file in upper or
    lower case, row padded to two digits or not. *)
Definition spellings (i : Z) : list string :=
  let file := ord "A" + (i - 1) mod 16 in
  let row := (i - 1) / 16 + 1 in
  [String (chr_byte file) (zfill 2 (str row)); String (chr_byte file) (str row);
   String (chr_byte (file + 32)) (zfill 2 (str row)); String (chr_byte (file + 32)) (str row)].

(** The order in which [Board.__init__] turns the first setup around
    the board: grey, brown, white, black, and grey again. *)
Definition clockwise (c : Color) : Color :=
  match c with
  | grey => brown
  | brown => white
  | white => black
  | black => grey
  end.

Definition turn_piece (o : option Piece) : option Piece :=
  match o with
  | Some p => Some (mkPiece (type p) (clockwise (color p)))
  | None => None
  end.

(** What stands on a position: no square, an empty square, or a piece. *)
Definition content (b : Board) (p : string) : res (option (option Piece)) :=
  sq <- get_square b p ;;
  Ret (match sq with
       | Some s => Some (piece_at s)
       | None => None
       end).

(** The piece a move takes, as the list [move] appends to the graveyard. *)
Definition captured (m : Move) : list Piece :=
  match to_square m with
  | Some ts => match piece_at ts with Some q => [q] | None => [] end
  | None => []
  end.

(** Every colour is a key of the dictionary. *)
Definition all_keys {V : Type} (d : dict V) : Prop :=
  forall c, exists v, dict_get d c = Some v.

(** The colour has a piece on the board. *)
Definition has_piece (b : Board) (c : Color) : Prop :=
  exists sq p, In (Some sq) (layout b) /\ piece_at sq = Some p /\ color p = c.

(** The colours of the other team. *)
Definition enemies (c : Color) : list Color := snd (get_teams c true).

(** What [possible_moves] may offer to a piece of colour [c]: a square of
    the layout that is empty or holds a piece of the other team. *)
Definition offer (b : Board) (c : Color) (o : option Square) : Prop :=
  exists t, o = Some t /\ In (Some t) (layout b)
            /\ forall q, piece_at t = Some q -> In (color q) (enemies c).

(** A piece that can give check to a king of colour [c]: it stands on a
    square of the layout, belongs to the other team and is not frozen. *)
Definition attacker (b : Board) (c : Color) (t : Square) : Prop :=
  In (Some t) (layout b)
  /\ exists q, piece_at t = Some q /\ In (color q) (enemies c)
               /\ ~ In (color q) (currently_frozen b).

(** The colours [get_kings] looks for: all of [COLORS] but [ignore]. *)
Definition wanted (ignore : option Color) : list Color :=
  filter (fun col => negb (opt_eqb Color_eqb ignore (Some col))) COLORS.

(** No square of the layout holds the king of colour [c]. *)
Definition no_king (b : Board) (c : Color) : Prop :=
  forall s, In (Some s) (layout b) -> piece_at s <> Some (mkPiece king c).

(** The slot of a list of [len] entries that [list[i - 1]] addresses:
    Python counts a negative subscript from the end; [None] is IndexError. *)
Definition slot (len : nat) (i : Z) : option nat :=
  let j := if i - 1 <? 0 then i - 1 + Z.of_nat len else i - 1 in
  if (0 <=? j) && (j <? Z.of_nat len) then Some (Z.to_nat j) else None.

(** ** The board a call leaves behind

    [is_valid] writes to [self.layout] while it tries a move out.  A
    result in [res] says what a call returns or raises; an [outcome]
    says in addition which board the call leaves, also when it ends by
    an exception.  [is_valid_run] is [is_valid] read once more with the
    board threaded through every step. *)

Inductive outcome (A : Type) : Type :=
| Returned (a : A) (b : Board)
| Raised (e : exn) (b : Board)
| Unfinished.

Arguments Returned {A} a b.
Arguments Raised {A} e b.
Arguments Unfinished {A}.

Definition run (A : Type) : Type := Board -> outcome A.

Definition ret_run {A : Type} (a : A) : run A := fun b => Returned a b.

Definition bind_run {A B : Type} (r : run A) (k : A -> run B) : run B :=
  fun b => match r b with
           | Returned a b' => k a b'
           | Raised e b' => Raised e b'
           | Unfinished => Unfinished
           end.

(** A step that reads the board; when it raises the board is as it was. *)
Definition read {A : Type} (f : Board -> res A) : run A :=
  fun b => match f b with
           | Ret a => Returned a b
           | Raise e => Raised e b
           | OutOfFuel => Unfinished
           end.

(** A step that writes one field; an assignment that raises has written nothing. *)
Definition write (f : Board -> res Board) : run unit :=
  fun b => match f b with
           | Ret b' => Returned tt b'
           | Raise e => Raised e b
           | OutOfFuel => Unfinished
           end.

Notation "x <~ m ;; k" := (bind_run m (fun x => k))
  (at level 61, m at next level, right associativity).

(** The loop "check checks" of [is_valid]. *)
Fixpoint check_loop_run (fuel : nat) (m : Move) (mover : Piece) (team : list Color)
         (ignore_check : bool) (positions : list string) : run (verdict * Move) :=
  match positions with
  | [] => ret_run (Valid (checks m), m)
  | pos :: rest =>
      sq <~ read (fun b => sq <- get_square b pos ;; deref sq) ;;
      let ignore :=
        match piece_at sq with
        | Some q => if PieceType_eqb (type q) king then Some (color q) else None
        | None => None
        end in
      tmp <~ read (fun b => Ret (layout b)) ;;
      empty <~ read (fun _ => Square_new (position (from_square m)) None) ;;
      _ <~ write (fun b => update_square b empty) ;;
      moved <~ read (fun _ => Square_new pos (piece_or (promotion m) (piece_at (from_square m)))) ;;
      _ <~ write (fun b => update_square b moved) ;;
      cks <~ read (fun b => check_map fuel b ignore) ;;
      let m := set_checks m (Some cks) in
      _ <~ write (fun b => Ret (set_layout b tmp)) ;;
      if negb ignore_check && dict_get_default cks (color mover) true
      then ret_run (Invalid CheckmateYourself, m)
      else
        c <~ read (fun _ => other_of team (color mover)) ;;
        was <~ read (fun b => Ret (dict_get_default (checked b) c false)) ;;
        if negb ignore_check && dict_get_default cks c true && negb was
        then ret_run (Invalid CheckmateTeammate, m)
        else check_loop_run fuel m mover team ignore_check rest
  end.

Definition is_valid_run (fuel : nat) (m : Move) (ignore_turn ignore_check : bool)
  : run (verdict * Move) :=
  match to_square m with
  | None => ret_run (Invalid SquareToOutOfBounds, m)
  | Some ts =>
  let fs := from_square m in
  match piece_at fs with
  | None => ret_run (Invalid SquareFromNoPiece, m)
  | Some p =>
  now <~ read (fun b => Ret (turn b)) ;;
  if negb ignore_turn && negb (Color_eqb (color p) now)
  then ret_run (Invalid SquareFromNotYourPiece, m)
  else if Square_eqb fs ts
  then ret_run (Invalid SquareFromAndToSame, m)
  else
  let '(team, enemy_team) := get_teams (color p) true in
  if match piece_at ts with
     | Some q => mem Color_eqb (color q) team
     | None => false
     end
  then ret_run (Invalid FriendlyFire, m)
  else
  walled <~ read (fun _ => walls_in_the_way fuel fs ts) ;;
  if walled then ret_run (Invalid WallsInTheWay, m)
  else
  bad_promotion <~
    read (fun _ =>
            match promotion m with
            | None => Ret None
            | Some _ =>
                if negb (PieceType_eqb (type p) pawn) then Ret (Some PromotionFromNonPawn)
                else
                  rank <- get_pawn_promotion_rank fuel (color p) ;;
                  if negb (mem String.eqb (position ts) rank)
                  then Ret (Some PromotionOutOfBounds)
                  else Ret None
            end) ;;
  match bad_promotion with
  | Some msg => ret_run (Invalid msg, m)
  | None =>
  cf <~ read (fun b => Ret (currently_frozen b)) ;;
  if match piece_at ts with
     | Some q => mem Color_eqb (color q) cf
     | None => false
     end
  then ret_run (Invalid TargetFrozen, m)
  else
  pm <~ read (fun b => possible_moves fuel b fs) ;;
  if negb (mem (opt_eqb Square_eqb) (Some ts) pm)
  then ret_run (Invalid SquareToIllegal, m)
  else
  home <~ read (fun _ => pos_rot90 fuel "C8" (COLORS_rev_index (color p))) ;;
  home_sq <~ read (fun _ => Square_new home (Some (mkPiece king (color p)))) ;;
  flag <~ read (fun _ => if Square_eqb fs home_sq
                         then castling_flag fuel ts p [([true; false], 6); ([false; true], 10)]
                         else Ret None) ;;
  let m := match flag with Some f => set_castling m (Some f) | None => m end in
  transit <~
    read (fun b =>
            match flag with
            | None => Ret []
            | Some _ =>
                c <- deref (castling m) ;;
                kingside <- list_get c 0 ;;
                mapM (fun step =>
                        t <- get_neighbour b fs step 0 true ;;
                        t <- deref t ;;
                        Ret (position t))
                     (if kingside then [1] else [-1; -2])
            end) ;;
  check_loop_run fuel m p team ignore_check (transit ++ [position ts])
  end end end.

(** What [res] keeps of an outcome. *)
Definition forget (o : outcome (verdict * Move)) : res (verdict * Move * Board) :=
  match o with
  | Returned (v, m) b => Ret (v, m, b)
  | Raised e _ => Raise e
  | Unfinished => OutOfFuel
  end.

(** A board without the brown king: [Board()] with the square N09
    emptied; and white's first pawn step on it. *)
Definition kingless : Board :=
  Eval vm_compute in force bare (update_square start (mkSquare "N09" None)).

Definition pawn_step : Move :=
  mkMove (sqr "F13" pawn white) (Some (mkSquare "F12" None)) None None None.

(** The board after white has castled king side in [midgame]. *)
Definition after_castle : Board :=
  Eval vm_compute in force bare (move 20 midgame castle_valid).





(** * Proofs *)

(** Taking apart a computation that returned. *)
Ltac step H :=
  lazymatch type of H with
  | Ret _ = Ret _ => inversion H; subst; clear H
  | Raise _ = Ret _ => discriminate H
  | OutOfFuel = Ret _ => discriminate H
  | bind ?m _ = Ret _ =>
      let E := fresh "E" in
      destruct m eqn:E; cbn [bind] in H; [| discriminate H | discriminate H]
  | (let '(_, _) := ?x in _) = Ret _ => destruct x
  | match ?x with _ => _ end = Ret _ =>
      let E := fresh "E" in destruct x eqn:E
  end.


(** ** Geometry *)

Lemma mem_In_string (p : string) (l : list string) :
  mem String.eqb p l = true <-> In p l.
Proof.
  unfold mem. rewrite existsb_exists. split.
  - intros [x [Hx He]]. apply String.eqb_eq in He. now subst.
  - intros H. exists p. split; [assumption | apply String.eqb_refl].
Qed.

Lemma grid_facts :
  forallb (fun p =>
             valid_position (quarter p)
             && String.eqb (turns 4 p) p
             && match str_head p with
                | Ret c => String.eqb (String c (zfill 2 (str_tail p))) p
                | _ => false
                end
             && match int (str_tail p) with
                | Ret r =>
                    match chr (ord "P" - r + 1), str_head p with
                    | Ret col, Ret c =>
                        String.eqb (String col (zfill 2 (str (ord (upper_char c) - ord "A" + 1))))
                                   (quarter p)
                    | _, _ => false
                    end
                | _ => false
                end) positions = true.
Proof. vm_compute. reflexivity. Qed.

Lemma grid_fact (p : string) :
  valid_position p = true ->
  valid_position (quarter p) = true
  /\ turns 4 p = p
  /\ (forall fuel, pos_rot90 (S fuel) p 0 = Ret p)
  /\ (forall fuel times, times <> 0 ->
        pos_rot90 (S fuel) p times = pos_rot90 fuel (quarter p) (times - 1)).
Proof.
  intros Hp. apply mem_In_string in Hp.
  pose proof grid_facts as H. rewrite forallb_forall in H. specialize (H p Hp).
  rewrite !andb_true_iff in H. destruct H as [[[H1 H2] H3] H4].
  split; [assumption |]. split; [now apply String.eqb_eq |]. split.
  - intros fuel. cbn [pos_rot90]. change (0 =? 0) with true. cbv iota.
    destruct (str_head p); try discriminate. cbn [bind].
    f_equal. now apply String.eqb_eq.
  - intros fuel times Ht. cbn [pos_rot90]. apply Z.eqb_neq in Ht. rewrite Ht.
    destruct (int (str_tail p)); try discriminate. cbn [bind].
    destruct (chr (ord "P" - a + 1)); try discriminate. cbn [bind].
    destruct (str_head p); try discriminate. cbn [bind].
    apply String.eqb_eq in H4. now rewrite H4.
Qed.

Lemma turns_valid (n : nat) (p : string) :
  valid_position p = true -> valid_position (turns n p) = true.
Proof.
  revert p. induction n as [|n IH]; intros p Hp; simpl; [assumption |].
  apply IH. now apply grid_fact.
Qed.

Lemma turns_add (n m : nat) (p : string) : turns (n + m) p = turns m (turns n p).
Proof. revert p. induction n as [|n IH]; intros p; simpl; [reflexivity | apply IH]. Qed.

Lemma turns_4k (k : nat) (p : string) :
  valid_position p = true -> turns (4 * k) p = p.
Proof.
  intros Hp. induction k as [|k IH]; [reflexivity |].
  replace (4 * S k)%nat with (4 + 4 * k)%nat by lia.
  rewrite turns_add. replace (turns 4 p) with p; [assumption |].
  symmetry. now apply grid_fact.
Qed.

Lemma turns_mod (n : nat) (p : string) :
  valid_position p = true -> turns n p = turns (n mod 4) p.
Proof.
  intros Hp. rewrite (Nat.div_mod_eq n 4) at 1.
  rewrite turns_add. now rewrite turns_4k.
Qed.

Lemma pos_rot90_turns (n : nat) (fuel : nat) (p : string) :
  valid_position p = true -> (n < fuel)%nat ->
  pos_rot90 fuel p (Z.of_nat n) = Ret (turns n p).
Proof.
  revert fuel p. induction n as [|n IH]; intros fuel p Hp Hf.
  - destruct fuel as [|fuel]; [lia |]. now apply grid_fact.
  - destruct fuel as [|fuel]; [lia |].
    destruct (grid_fact p Hp) as [Hq [_ [_ Hstep]]].
    rewrite Hstep by lia.
    replace (Z.of_nat (S n) - 1) with (Z.of_nat n) by lia.
    simpl. apply IH; [assumption | lia].
Qed.

Lemma turns_inverse (n : nat) (p : string) :
  valid_position p = true -> turns (3 * n) (turns n p) = p.
Proof.
  intros Hp. rewrite <- turns_add. replace (n + 3 * n)%nat with (4 * n)%nat by lia.
  now apply turns_4k.
Qed.

Lemma turns_inverse' (n : nat) (p : string) :
  valid_position p = true -> turns n (turns (3 * n) p) = p.
Proof.
  intros Hp. rewrite <- turns_add. replace (3 * n + n)%nat with (4 * n)%nat by lia.
  now apply turns_4k.
Qed.

(** C7 (amended): for a position of the grid and a count [times >= 0],
    [pos_rot90] returns (given a recursion depth above [times]), its
    result is the one for [times mod 4], four quarter turns give the
    position back, and [pos_rot90(_, times)] is a bijection of the grid. *)
Theorem pos_rot90_nonnegative (times : Z) (fuel : nat) :
  0 <= times -> (Z.to_nat times < fuel)%nat ->
  (forall p, valid_position p = true ->
     exists q, valid_position q = true
               /\ pos_rot90 fuel p times = Ret q
               /\ pos_rot90 fuel p (times mod 4) = Ret q)
  /\ (forall p, valid_position p = true -> times = 4 -> pos_rot90 fuel p times = Ret p)
  /\ (forall p p' q, valid_position p = true -> valid_position p' = true ->
        pos_rot90 fuel p times = Ret q -> pos_rot90 fuel p' times = Ret q -> p = p')
  /\ (forall q, valid_position q = true ->
        exists p, valid_position p = true /\ pos_rot90 fuel p times = Ret q).
Proof.
  intros Ht Hf.
  assert (Hrun : forall p, valid_position p = true ->
                           pos_rot90 fuel p times = Ret (turns (Z.to_nat times) p)).
  { intros p Hp. rewrite <- (Z2Nat.id times) at 1 by assumption.
    now apply pos_rot90_turns. }
  repeat split.
  - intros p Hp. exists (turns (Z.to_nat times) p).
    split; [now apply turns_valid |]. split; [now apply Hrun |].
    assert (Hm : 0 <= times mod 4 < 4) by (apply Z.mod_pos_bound; lia).
    rewrite <- (Z2Nat.id (times mod 4)) by lia.
    rewrite pos_rot90_turns; [| assumption |].
    + f_equal. rewrite (turns_mod (Z.to_nat times)) by assumption.
      f_equal. rewrite Z2Nat.inj_mod by lia. reflexivity.
    + assert (times mod 4 <= times) by (apply Z.mod_le; lia). lia.
  - intros p Hp H4. rewrite Hrun by assumption. subst times.
    f_equal. now apply (turns_4k 1).
  - intros p p' q Hp Hp' H H'.
    rewrite Hrun in H, H' by assumption.
    assert (E : turns (Z.to_nat times) p = turns (Z.to_nat times) p') by congruence.
    apply (f_equal (turns (3 * Z.to_nat times))) in E.
    now rewrite !turns_inverse in E.
  - intros q Hq. exists (turns (3 * Z.to_nat times) q).
    split; [now apply turns_valid |].
    rewrite Hrun by now apply turns_valid.
    f_equal. now apply turns_inverse'.
Qed.

Lemma pos_rot90_nonnegative_witness :
  pos_rot90 8 "I03" 4 = Ret "I03" /\ pos_rot90 8 "I03" 7 = pos_rot90 8 "I03" (7 mod 4).
Proof.
  split.
  - apply (pos_rot90_nonnegative 4 8); [lia | simpl; lia | reflexivity | reflexivity].
  - destruct (pos_rot90_nonnegative 7 8) as [H _]; [lia | simpl; lia |].
    destruct (H "I03" eq_refl) as [q [_ [H1 H2]]]. now rewrite H1, H2.
Defined.

Lemma pos_rot90_negative (fuel : nat) (p : string) (times : Z) :
  valid_position p = true -> times < 0 -> pos_rot90 fuel p times = OutOfFuel.
Proof.
  revert p times. induction fuel as [|fuel IH]; intros p times Hp Ht; [reflexivity |].
  destruct (grid_fact p Hp) as [Hq [_ [_ Hstep]]].
  rewrite Hstep by lia. apply IH; [assumption | lia].
Qed.

(** C7 (as stated) fails: with a negative count the recursion never
    reaches [times == 0]; at no depth does [pos_rot90("A01", -1)] return. *)
Lemma pos_rot90_minus_one_diverges :
  ~ (exists fuel q, pos_rot90 fuel "A01" (-1) = Ret q).
Proof.
  intros [fuel [q H]]. rewrite pos_rot90_negative in H; [discriminate H | reflexivity | lia].
Qed.

(** C9: a failing input.  ["a4"] and ["i12"] lie on a common diagonal
    (eight files, eight rows apart); [get_ray] neither raises nor
    returns the nine squares of the line: it returns the empty list. *)
Theorem get_ray_unpadded_rows :
  get_ray "a4" "i12" = Ret []
  /\ ray_spec "a4" "i12"
     = Ret ["A04"; "B05"; "C06"; "D07"; "E08"; "F09"; "G10"; "H11"; "I12"]
  /\ get_ray "a4" "d7" = Ret ["A04"; "B05"; "C06"; "D07"].
Proof. repeat split. Qed.

Lemma list_eqb_string (a b : list string) : list_eqb String.eqb a b = true -> a = b.
Proof.
  revert b. induction a as [|x a IH]; intros [|y b] H; try discriminate H; [reflexivity |].
  cbn [list_eqb] in H. apply andb_true_iff in H. destruct H as [Hx Hr].
  apply String.eqb_eq in Hx. apply IH in Hr. now subst.
Qed.

Lemma get_ray_grid_check :
  forallb (fun p1 => forallb (fun p2 => same_ray (get_ray p1 p2) (ray_spec p1 p2)) positions)
          positions = true.
Proof. vm_cast_no_check (eq_refl true). Qed.

(** On zero-padded positions of the grid [get_ray] is the ray of the
    specification: the squares of the line, or ValueError off a diagonal. *)
Lemma get_ray_on_grid (p1 p2 : string) :
  valid_position p1 = true -> valid_position p2 = true ->
  get_ray p1 p2 = ray_spec p1 p2.
Proof.
  intros H1 H2. apply mem_In_string in H1, H2.
  pose proof get_ray_grid_check as H. rewrite forallb_forall in H.
  specialize (H p1 H1). rewrite forallb_forall in H. specialize (H p2 H2).
  destruct (get_ray p1 p2) as [a|e|], (ray_spec p1 p2) as [b|e'|]; cbn [same_ray] in H;
    try discriminate H; try (destruct e; discriminate H).
  - f_equal. now apply list_eqb_string.
  - destruct e; try discriminate H. destruct e'; try discriminate H. reflexivity.
Qed.

(** ** The starting position *)

Lemma Board_init_start (k : nat) : Board_init (4 + k) = Ret start.
Proof. vm_compute. reflexivity. Qed.

Lemma Color_eqb_refl (c : Color) : Color_eqb c c = true.
Proof. destruct c; reflexivity. Qed.

(** C2 (amended): the board [Board()] builds holds, for each of the four
    colours, one king, one queen, three rooks, three bishops, three
    knights and eight pawns (76 pieces: the third rook, bishop and
    knight stand in the fortress corners), with every castling right
    true, no colour checked or frozen, and white to move. *)
Theorem Board_init_position (k : nat) :
  exists b, Board_init (4 + k) = Ret b
    /\ (forall c, count b king c = 1 /\ count b queen c = 1 /\ count b rook c = 3
                  /\ count b bishop c = 3 /\ count b knight c = 3 /\ count b pawn c = 8)%nat
    /\ List.length (pieces b) = 76%nat
    /\ (forall c, dict_get (castling_rights b) c = Some [true; true])
    /\ (forall c, dict_get (checked b) c = Some false /\ dict_get (frozen b) c = Some false)
    /\ turn b = white.
Proof.
  exists start. split; [apply Board_init_start |].
  repeat split; try (destruct c; vm_compute; reflexivity).
Qed.

(** C2 (as stated) fails: the board does not hold two rooks, two bishops
    and two knights a colour, nor 64 pieces. *)
Lemma Board_init_not_64 :
  ~ (exists b, Board_init 4 = Ret b
               /\ (forall c, count b rook c = 2 /\ count b bishop c = 2 /\ count b knight c = 2)%nat
               /\ List.length (pieces b) = 64%nat).
Proof.
  intros [b [Hb [_ H]]]. change (Board_init 4) with (Board_init (4 + 0)) in Hb.
  rewrite Board_init_start in Hb.
  injection Hb as <-. vm_compute in H. discriminate H.
Qed.

(** ** The fortress wall *)

Lemma walls_F03_D02 (k : nat) (a z : string) (pa pz : option Piece) :
  In (a, z) F03_D02 \/ In (z, a) F03_D02 ->
  walls_in_the_way (4 + k) (mkSquare a pa) (mkSquare z pz) = Ret true.
Proof.
  unfold F03_D02. cbn [In].
  intros [H | H];
    repeat (destruct H as [H | H]; [injection H as <- <-; vm_compute; reflexivity |]);
    contradiction.
Qed.

Lemma positions_differ (a z : string) :
  In (a, z) F03_D02 \/ In (z, a) F03_D02 -> String.eqb a z = false.
Proof.
  unfold F03_D02. cbn [In].
  intros [H | H];
    repeat (destruct H as [H | H]; [injection H as <- <-; reflexivity |]);
    contradiction.
Qed.

(** C8 (amended): a move between F03 and D02, or between the squares
    of one of their three rotations, whatever piece stands on its
    source, is rejected with [WallsInTheWay] once the tests that come
    first have passed: the destination is a square, the source holds a
    piece, that piece is of the colour to move (or [ignore_turn] is
    set), and the destination holds no piece of the mover's team. *)
Theorem knight_jump_walled (fuel : nat) (b : Board) (m : Move) (ts : Square) (p : Piece)
        (ignore_turn ignore_check : bool) :
  (4 <= fuel)%nat ->
  to_square m = Some ts ->
  piece_at (from_square m) = Some p ->
  ignore_turn = true \/ color p = turn b ->
  (forall q, piece_at ts = Some q ->
             mem Color_eqb (color q) (fst (get_teams (color p) true)) = false) ->
  In (position (from_square m), position ts) F03_D02
  \/ In (position ts, position (from_square m)) F03_D02 ->
  is_valid fuel b m ignore_turn ignore_check = Ret (Invalid WallsInTheWay, m, b).
Proof.
  intros Hf Hts Hp Hturn Hfriend Hpos.
  replace fuel with (4 + (fuel - 4))%nat by lia.
  unfold is_valid. rewrite Hts, Hp.
  assert (T : negb ignore_turn && negb (Color_eqb (color p) (turn b)) = false).
  { destruct Hturn as [-> | ->]; [reflexivity |].
    rewrite Color_eqb_refl. apply andb_false_r. }
  rewrite T.
  assert (S : Square_eqb (from_square m) ts = false).
  { unfold Square_eqb. now rewrite (positions_differ _ _ Hpos). }
  rewrite S.
  destruct (get_teams (color p) true) as [team enemy_team] eqn:G.
  assert (F : match piece_at ts with
              | Some q => mem Color_eqb (color q) team
              | None => false
              end = false).
  { destruct (piece_at ts) as [q|] eqn:Q; [| reflexivity].
    specialize (Hfriend q eq_refl). try rewrite G in Hfriend. exact Hfriend. }
  rewrite F.
  destruct (from_square m) as [a pa], ts as [z pz]. cbn [position] in Hpos.
  rewrite (walls_F03_D02 _ a z pa pz Hpos). reflexivity.
Qed.

Lemma knight_jump_walled_witness :
  is_valid 4 start grey_knight_jump true false = Ret (Invalid WallsInTheWay, grey_knight_jump, start).
Proof.
  apply (knight_jump_walled 4 start grey_knight_jump (mkSquare "D02" None) (mkPiece knight grey));
    [lia | reflexivity | reflexivity | left; reflexivity | intros q H; discriminate H
     | left; left; reflexivity].
Defined.

(** C8 (as stated) fails: on the starting board it is white's turn;
    grey's knight jumping from F03 to D02 is turned down for the turn,
    before the walls are looked at. *)
Lemma knight_jump_out_of_turn :
  turn start = white
  /\ get_square start "F03" = Ret (Some (from_square grey_knight_jump))
  /\ get_square start "D02" = Ret (to_square grey_knight_jump)
  /\ is_valid 4 start grey_knight_jump false false
     = Ret (Invalid SquareFromNotYourPiece, grey_knight_jump, start).
Proof. repeat split. Qed.

(** ** Frames: what [is_valid] and its callers leave of the board *)

Lemma set_layout_back (b : Board) (l1 : list (option Square)) :
  set_layout (set_layout b l1) (layout b) = b.
Proof. destruct b. reflexivity. Qed.

Lemma update_square_layout (b b' : Board) (sq : Square) :
  update_square b sq = Ret b' -> exists l, b' = set_layout b l.
Proof.
  unfold update_square. intros H. do 3 step H. eexists. reflexivity.
Qed.

Lemma scratch_layout (b b2 : Board) (m : Move) (pos : string) :
  scratch b m pos = Ret b2 -> exists l, b2 = set_layout b l.
Proof.
  unfold scratch. intros H. do 3 step H.
  apply update_square_layout in E0. destruct E0 as [l1 ->].
  apply update_square_layout in H. destruct H as [l2 ->].
  exists l2. destruct b. reflexivity.
Qed.

Lemma check_loop_board (fuel : nat) (mover : Piece) (team : list Color) (ic : bool)
      (positions : list string) :
  forall b m v m' b',
    check_loop fuel b m mover team ic positions = Ret (v, m', b') -> b' = b.
Proof.
  induction positions as [|pos rest IH]; intros b m v m' b' H; cbn [check_loop] in H.
  - now step H.
  - do 4 step H.
    apply scratch_layout in E1. destruct E1 as [l ->].
    rewrite set_layout_back in H.
    step H; [now step H |].
    step H. step H; [now step H |].
    now apply IH in H.
Qed.

Lemma is_valid_board (fuel : nat) (b : Board) (m : Move) (it ic : bool)
      (v : verdict) (m' : Move) (b' : Board) :
  is_valid fuel b m it ic = Ret (v, m', b') -> b' = b.
Proof.
  unfold is_valid. intros H.
  repeat (step H; try reflexivity).
  now apply check_loop_board in H.
Qed.

Lemma variants_board (fuel : nat) (sq : Square) (psq : option Square) (c0 : Color)
      (promo : bool) (cs : list Z) :
  forall b found b',
    variants fuel b sq psq c0 promo cs = Ret (found, b') -> b' = b.
Proof.
  induction cs as [|c rest IH]; intros b found b' H; cbn [variants] in H.
  - now step H.
  - step H. destruct a as [[v mv] b1]. apply is_valid_board in E. subst b1.
    step H. destruct a as [more b2]. apply IH in E. subst b2. now step H.
Qed.

Lemma targets_board (fuel : nat) (sq : Square) (c0 : Color) (cf : list Color)
      (pm : list (option Square)) :
  forall b found b',
    targets fuel b sq c0 cf pm = Ret (found, b') -> b' = b.
Proof.
  induction pm as [|s rest IH]; intros b found b' H; cbn [targets] in H.
  - now step H.
  - step H. step H; [| now apply IH in H].
    do 3 step H. destruct a2 as [fnd b1]. apply variants_board in E3. subst b1.
    step H. destruct a2 as [more b2]. apply IH in E3. subst b2. now step H.
Qed.

Lemma sources_board (fuel : nat) (c0 : Color) (cf : list Color) (squares : list Square) :
  forall b found b',
    sources fuel b c0 cf squares = Ret (found, b') -> b' = b.
Proof.
  induction squares as [|sq rest IH]; intros b found b' H; cbn [sources] in H.
  - now step H.
  - do 2 step H. destruct a0 as [fnd b1]. apply targets_board in E0. subst b1.
    step H. destruct a0 as [more b2]. apply IH in E0. subst b2. now step H.
Qed.

Lemma possible_legal_moves_color_board (fuel : nat) (b : Board) (c0 : Color)
      (pm : list Move) (b' : Board) :
  possible_legal_moves_color fuel b c0 = Ret (pm, b') -> b' = b.
Proof.
  unfold possible_legal_moves_color. intros H.
  step H; [discriminate H |]. now apply sources_board in H.
Qed.

Lemma is_mate_board (fuel : nat) (b : Board) (c : Color) (r : Z) (b' : Board) :
  is_mate fuel b c = Ret (r, b') -> b' = b.
Proof.
  unfold is_mate. intros H. step H. destruct a as [pm b1].
  apply possible_legal_moves_color_board in E. subst b1.
  step H; [step H | ]; now step H.
Qed.

Lemma mates_board (fuel : nat) (keys : list Color) :
  forall b d b', mates fuel b keys = Ret (d, b') -> b' = b.
Proof.
  induction keys as [|k rest IH]; intros b d b' H; cbn [mates] in H.
  - now step H.
  - step H. destruct a as [r b1]. apply is_mate_board in E. subst b1.
    step H. destruct a as [more b2]. apply IH in E. subst b2. now step H.
Qed.

Lemma update_frozen_frozen (fuel : nat) (b b' : Board) :
  update_frozen fuel b = Ret b' -> exists d, b' = set_frozen b d.
Proof.
  unfold update_frozen. intros H. step H. destruct a as [d b1].
  apply mates_board in E. subst b1. step H. now exists d.
Qed.

(** Whenever [is_valid] returns, every field of the board is what it
    was before the call; the squares written for the simulation are back. *)
Lemma is_valid_restores (fuel : nat) (b : Board) (m : Move) (ignore_turn ignore_check : bool)
        (v : verdict) (m' : Move) (b' : Board) :
  is_valid fuel b m ignore_turn ignore_check = Ret (v, m', b') ->
  layout b' = layout b /\ turn b' = turn b /\ checked b' = checked b
  /\ frozen b' = frozen b /\ graveyard b' = graveyard b
  /\ castling_rights b' = castling_rights b /\ move_stack b' = move_stack b
  /\ winner b' = winner b.
Proof. intros H. apply is_valid_board in H. subst b'. repeat split. Qed.

(** ** The winner through [pop] *)

Lemma update_square_winner (b b' : Board) (sq : Square) :
  update_square b sq = Ret b' -> winner b' = winner b.
Proof. intros H. apply update_square_layout in H. destruct H as [l ->]. reflexivity. Qed.

Lemma update_frozen_winner (fuel : nat) (b b' : Board) :
  update_frozen fuel b = Ret b' -> winner b' = winner b.
Proof. intros H. apply update_frozen_frozen in H. destruct H as [d ->]. reflexivity. Qed.

Lemma castle_rooks_winner (fuel : nat) (cs : list bool) (mover : res Color)
      (rooks : list (Z * string * string)) :
  forall b b', castle_rooks fuel b cs mover rooks = Ret b' -> winner b' = winner b.
Proof.
  induction rooks as [|[[index rook_start] rook_end] rest IH]; intros b b' H;
    cbn [castle_rooks] in H.
  - now step H.
  - do 2 step H. apply IH in H. rewrite H. clear H.
    step E0; [| now step E0].
    repeat step E0.
    repeat match goal with
           | G : update_square _ _ = Ret _ |- _ => apply update_square_winner in G
           end.
    congruence.
Qed.

Lemma grant_winner (cs : list bool) (mover : res Color) (value : bool) (ns : list Z) :
  forall b b', grant b cs mover value ns = Ret b' -> winner b' = winner b.
Proof.
  induction ns as [|n rest IH]; intros b b' H; cbn [grant] in H.
  - now step H.
  - step H. step H; [| now apply IH].
    repeat step H. reflexivity.
Qed.

Lemma next_turn_winner (fuel : nat) (jumps : Z) (skip : bool) :
  forall b b', next_turn fuel b jumps skip = Ret b' -> winner b' = winner b.
Proof.
  induction fuel as [|fuel IH]; intros b b' H; cbn [next_turn] in H; [discriminate H |].
  step H. step H; [| now step H].
  step H. step H; [| now step H].
  apply IH in H. exact H.
Qed.

Lemma check_checks_winner (fuel : nat) (b b' : Board) :
  check_checks fuel b = Ret b' -> winner b' = winner b.
Proof. unfold check_checks. intros H. do 2 step H. reflexivity. Qed.

(** [pop] never writes the winner: whenever it returns, the board it
    leaves has the winner it found. *)
Lemma pop_keeps_winner (fuel : nat) (b b' : Board) (ok : bool) :
  pop fuel b = Ret (ok, b') -> winner b' = winner b.
Proof.
  unfold pop. intros H.
  step H; [now step H |].
  repeat step H.
  repeat match goal with
         | G : update_square _ _ = Ret _ |- _ => apply update_square_winner in G
         | G : update_frozen _ _ = Ret _ |- _ => apply update_frozen_winner in G
         | G : next_turn _ _ _ _ = Ret _ |- _ => apply next_turn_winner in G
         end.
  repeat match goal with
         | G : match ?x with _ => _ end = Ret _ |- _ => step G
         | G : Ret _ = Ret _ |- _ => step G
         | G : Raise _ = Ret _ |- _ => step G
         | G : bind _ _ = Ret _ |- _ => step G
         | G : check_checks _ _ = Ret _ |- _ => apply check_checks_winner in G
         | G : castle_rooks _ _ _ _ _ = Ret _ |- _ => apply castle_rooks_winner in G
         | G : grant _ _ _ _ _ = Ret _ |- _ => apply grant_winner in G
         end;
    cbn [winner set_move_stack set_graveyard set_checked] in *; congruence.
Qed.

(** ** The turn after [move] *)

Lemma next_turn_not_frozen (fuel : nat) (jumps : Z) :
  forall b b', next_turn fuel b jumps true = Ret b' ->
               dict_get (frozen b') (turn b') = Some false /\ frozen b' = frozen b.
Proof.
  induction fuel as [|fuel IH]; intros b b' H; cbn [next_turn] in H; [discriminate H |].
  step H. step H. unfold dict_item in E0.
  destruct (dict_get (frozen (set_turn b a)) (turn (set_turn b a))) eqn:G; [| discriminate E0].
  step E0. step H.
  - apply IH in H. destruct H as [H1 H2]. split; [exact H1 | exact H2].
  - step H. split; [exact G | reflexivity].
Qed.

(** The part of C6 that holds: whenever [move] returns, the colour to
    move is not frozen. *)
Lemma move_turn_not_frozen (fuel : nat) (b b' : Board) (m : Move) :
  move fuel b m = Ret b' -> dict_get (frozen b') (turn b') = Some false.
Proof.
  unfold move. intros H. step H. now apply next_turn_not_frozen in H.
Qed.

Lemma COLORS_cycle (c : Color) (jumps : Z) :
  exists t, list_get COLORS ((COLORS_index c + jumps) mod 4) = Ret t.
Proof.
  assert (Hm : 0 <= (COLORS_index c + jumps) mod 4 < 4) by (apply Z.mod_pos_bound; lia).
  assert (Hc : (COLORS_index c + jumps) mod 4 = 0 \/ (COLORS_index c + jumps) mod 4 = 1
               \/ (COLORS_index c + jumps) mod 4 = 2 \/ (COLORS_index c + jumps) mod 4 = 3) by lia.
  destruct Hc as [-> | [-> | [-> | ->]]]; eexists; reflexivity.
Qed.

Lemma next_turn_all_frozen (fuel : nat) (jumps : Z) :
  forall b, (forall c, dict_get (frozen b) c = Some true) ->
            next_turn fuel b jumps true = OutOfFuel.
Proof.
  induction fuel as [|fuel IH]; intros b Hall; cbn [next_turn]; [reflexivity |].
  destruct (COLORS_cycle (turn b) jumps) as [t ->]. cbn [bind].
  unfold dict_item. change (frozen (set_turn b t)) with (frozen b).
  rewrite Hall. cbn [bind]. apply IH. exact Hall.
Qed.

(** ** The two variants of a promotion *)





(** ** The entries of [possible_legal_moves_color] *)











(** ** The layout of the check simulation *)

Lemma set_nth_changes {A : Type} (v : A) (l : list A) :
  forall n l', set_nth l n v = Some l' ->
               forall k, nth_error l' k = nth_error l k \/ nth_error l' k = Some v.
Proof.
  induction l as [|a l IH]; intros n l' H k; [discriminate H |].
  destruct n as [|n]; cbn [set_nth] in H.
  - injection H as <-. destruct k as [|k]; [right | left]; reflexivity.
  - destruct (set_nth l n v) as [r|] eqn:E; [| discriminate H]. injection H as <-.
    destruct k as [|k]; [left; reflexivity |]. cbn [nth_error]. now apply (IH n).
Qed.

Lemma update_square_changes (b b' : Board) (sq : Square) :
  update_square b sq = Ret b' ->
  forall k, nth_error (layout b') k = nth_error (layout b) k
            \/ nth_error (layout b') k = Some (Some sq).
Proof.
  unfold update_square, list_set. intros H k. step H. step H. step E0; [discriminate E0 |].
  step E0; [| discriminate E0]. step E0. step H. cbn [layout set_layout].
  now apply (set_nth_changes _ _ _ _ E2).
Qed.

Lemma castle_is_valid :
  is_valid 20 midgame castle false false
  = Ret (Valid (checks castle_valid), castle_valid, midgame).
Proof. vm_compute. reflexivity. Qed.

(** ** Undoing a check *)

Lemma queen_takes_is_valid :
  is_valid 20 midgame queen_takes false false
  = Ret (Valid (checks queen_takes_valid), queen_takes_valid, midgame).
Proof. vm_compute. reflexivity. Qed.

Lemma move_queen_takes : move 20 midgame queen_takes_valid = Ret after_queen_takes.
Proof. vm_cast_no_check (eq_refl (Ret after_queen_takes)). Qed.

Lemma pop_queen_takes : pop 20 after_queen_takes = Ret (true, queen_undone).
Proof. vm_cast_no_check (eq_refl (Ret (true, queen_undone))). Qed.

(** C1: a failing input.  After [opening] white's queen takes on M10 and
    checks the brown king.  [move] then [pop] give back the layout, the
    turn, the castling rights, the frozen flags, the graveyard and the
    history, and leave brown marked as checked, which it was not. *)
Theorem pop_after_checking_move :
  new_move midgame "I14" "M10" None = Ret queen_takes
  /\ is_valid 20 midgame queen_takes false false
     = Ret (Valid (checks queen_takes_valid), queen_takes_valid, midgame)
  /\ move 20 midgame queen_takes_valid = Ret after_queen_takes
  /\ pop 20 after_queen_takes = Ret (true, queen_undone)
  /\ layout queen_undone = layout midgame
  /\ turn queen_undone = turn midgame
  /\ castling_rights queen_undone = castling_rights midgame
  /\ frozen queen_undone = frozen midgame
  /\ graveyard queen_undone = graveyard midgame
  /\ move_stack queen_undone = move_stack midgame
  /\ dict_get (checked midgame) brown = Some false
  /\ dict_get (checked queen_undone) brown = Some true.
Proof.
  split; [reflexivity |]. split; [apply queen_takes_is_valid |].
  split; [apply move_queen_takes |]. split; [apply pop_queen_takes |].
  repeat split.
Qed.

(** ** A position without a next turn *)

Lemma before_deadlock_flags : update_frozen 4 before_deadlock = Ret before_deadlock.
Proof. vm_compute. reflexivity. Qed.

Lemma pawn_takes_is_valid :
  is_valid 4 before_deadlock pawn_takes false false
  = Ret (Valid (checks pawn_takes_valid), pawn_takes_valid, before_deadlock).
Proof. vm_compute. reflexivity. Qed.

Lemma execute_pawn_takes (k : nat) :
  execute (4 + k) before_deadlock pawn_takes_valid = Ret deadlock.
Proof. vm_compute. reflexivity. Qed.

Lemma deadlock_all_frozen (c : Color) : dict_get (frozen deadlock) c = Some true.
Proof. destruct c; reflexivity. Qed.

(** C6: a failing input.  In [before_deadlock] every colour has a move
    and no colour is frozen; white's pawn takes on I04, a valid move.
    [move] finds all four colours frozen, declares white and grey the
    winners, and [next_turn] never returns, at any recursion depth. *)
Theorem move_into_deadlock :
  new_move before_deadlock "H05" "I04" None = Ret pawn_takes
  /\ update_frozen 4 before_deadlock = Ret before_deadlock
  /\ (forall c, dict_get (frozen before_deadlock) c = Some false)
  /\ is_valid 4 before_deadlock pawn_takes false false
     = Ret (Valid (checks pawn_takes_valid), pawn_takes_valid, before_deadlock)
  /\ (forall k, execute (4 + k) before_deadlock pawn_takes_valid = Ret deadlock)
  /\ (forall c, dict_get (frozen deadlock) c = Some true)
  /\ winner deadlock = Some [white; grey]
  /\ forall fuel, move fuel before_deadlock pawn_takes_valid = OutOfFuel.
Proof.
  split; [reflexivity |]. split; [apply before_deadlock_flags |].
  split; [intros c; destruct c; reflexivity |].
  split; [apply pawn_takes_is_valid |]. split; [apply execute_pawn_takes |].
  split; [apply deadlock_all_frozen |]. split; [reflexivity |].
  intros fuel. destruct fuel as [|[|[|[|k]]]]; try (vm_compute; reflexivity).
  unfold move. change (S (S (S (S k)))) with (4 + k)%nat.
  rewrite execute_pawn_takes. cbn [bind].
  apply next_turn_all_frozen. apply deadlock_all_frozen.
Qed.

(** * Further properties *)

(** ** utils.py *)

(** X1: [list_in_list] without [require_all] is "some element of the
    first list is in the second", with it "every element is"; on an
    empty first list it answers [require_all]. *)
Theorem list_in_list_any_all {A : Type} (eqb : A -> A -> bool) (list1 list2 : list A) :
  list_in_list eqb list1 list2 false = existsb (fun i => mem eqb i list2) list1
  /\ list_in_list eqb list1 list2 true = forallb (fun i => mem eqb i list2) list1.
Proof.
  induction list1 as [|i rest [IHf IHt]]; [split; reflexivity |].
  cbn [list_in_list existsb forallb]. rewrite IHf, IHt.
  destruct (mem eqb i list2); split; reflexivity.
Qed.

Lemma py_range_up (s e : Z) :
  py_range s e 1 = map (fun i => s + Z.of_nat i) (seq 0 (Z.to_nat (e - s))).
Proof.
  unfold py_range. change (0 <? 1) with true. cbv iota.
  replace ((e - s + 1 - 1) / 1) with (e - s) by (rewrite Z.div_1_r; lia).
  apply map_ext. intros i. lia.
Qed.

Lemma py_range_down (s e : Z) :
  py_range s e (-1) = map (fun i => s - Z.of_nat i) (seq 0 (Z.to_nat (s - e))).
Proof.
  unfold py_range. change (0 <? -1) with false. cbv iota.
  replace ((s - e - -1 - 1) / - -1) with (s - e) by (change (- -1) with 1; rewrite Z.div_1_r; lia).
  apply map_ext. intros i. lia.
Qed.

Lemma In_py_range_up (s e x : Z) : In x (py_range s e 1) <-> s <= x < e.
Proof.
  rewrite py_range_up, in_map_iff. split.
  - intros [i [<- Hi]]. apply in_seq in Hi. lia.
  - intros H. exists (Z.to_nat (x - s)). split; [lia |]. apply in_seq. lia.
Qed.

Lemma In_py_range_down (s e x : Z) : In x (py_range s e (-1)) <-> e < x <= s.
Proof.
  rewrite py_range_down, in_map_iff. split.
  - intros [i [<- Hi]]. apply in_seq in Hi. lia.
  - intros H. exists (Z.to_nat (s - x)). split; [lia |]. apply in_seq. lia.
Qed.

Lemma ord_bounds (c : ascii) : 0 <= ord c < 256.
Proof.
  unfold ord. pose proof (N_ascii_bounded c) as H. lia.
Qed.

Lemma chr_byte_ord (c : ascii) : chr_byte (ord c) = c.
Proof. unfold chr_byte, ord. rewrite N2Z.id. apply ascii_N_embedding. Qed.

Lemma ord_chr_byte (z : Z) : 0 <= z < 256 -> ord (chr_byte z) = z.
Proof.
  intros H. unfold chr_byte, ord. rewrite N_ascii_embedding by lia. lia.
Qed.

Lemma mem_ascii_In (c : ascii) (l : list ascii) : mem Ascii.eqb c l = true <-> In c l.
Proof.
  unfold mem. rewrite existsb_exists. split.
  - intros [x [Hx He]]. apply Ascii.eqb_eq in He. now subst.
  - intros H. exists c. split; [assumption | apply Ascii.eqb_refl].
Qed.

(** X2: [str_range] includes its stop: counting up it is the characters
    from [start] to [stop] (none when [start] comes after [stop]),
    counting down those from [start] down to [stop]. *)
Theorem str_range_inclusive (start stop c : ascii) :
  (mem Ascii.eqb c (str_range start stop 1) = true <-> ord start <= ord c <= ord stop)
  /\ (mem Ascii.eqb c (str_range start stop (-1)) = true <-> ord stop <= ord c <= ord start)
  /\ List.length (str_range start stop 1) = Z.to_nat (ord stop - ord start + 1)
  /\ List.length (str_range start stop (-1)) = Z.to_nat (ord start - ord stop + 1).
Proof.
  pose proof (ord_bounds start) as Hs. pose proof (ord_bounds stop) as He.
  unfold str_range. change (0 <? 1) with true. change (0 <? -1) with false. cbv iota.
  split; [split | split; [split | split]].
  - intros H. apply mem_ascii_In, in_map_iff in H. destruct H as [z [<- Hz]].
    apply In_py_range_up in Hz. rewrite ord_chr_byte by lia. lia.
  - intros H. apply mem_ascii_In, in_map_iff. exists (ord c).
    split; [apply chr_byte_ord | apply In_py_range_up; lia].
  - intros H. apply mem_ascii_In, in_map_iff in H. destruct H as [z [<- Hz]].
    apply In_py_range_down in Hz. rewrite ord_chr_byte by lia. lia.
  - intros H. apply mem_ascii_In, in_map_iff. exists (ord c).
    split; [apply chr_byte_ord | apply In_py_range_down; lia].
  - rewrite length_map, py_range_up, length_map, length_seq. f_equal. lia.
  - rewrite length_map, py_range_down, length_map, length_seq. f_equal. lia.
Qed.

Lemma firstn_plus {A : Type} (a b : nat) (l : list A) :
  firstn (a + b) l = firstn a l ++ firstn b (skipn a l).
Proof.
  revert l. induction a as [|a IH]; intros l; [reflexivity |].
  destruct l as [|x l]; [now destruct b |]. cbn. now rewrite IH.
Qed.

Lemma concat_chunks {A : Type} (N : nat) (l : list A) (K : nat) :
  List.concat (map (fun i => firstn N (skipn (i * N) l)) (seq 0 K)) = firstn (K * N) l.
Proof.
  induction K as [|K IH]; [reflexivity |].
  rewrite seq_S, map_app, concat_app, IH. cbn [map List.concat plus].
  rewrite app_nil_r. replace (S K * N)%nat with (K * N + N)%nat by lia.
  now rewrite firstn_plus.
Qed.

(** X3: for a chunk size [n > 0], [chunk_list] cuts the list into
    non-empty pieces of at most [n] elements whose concatenation is the
    list; a size of zero raises ValueError, a negative one gives no
    piece at all. *)
Theorem chunk_list_partition {A : Type} (lst : list A) (n : Z) :
  (0 < n ->
   exists chunks,
     chunk_list lst n = Ret chunks
     /\ List.concat chunks = lst
     /\ forall c, In c chunks -> c <> [] /\ (List.length c <= Z.to_nat n)%nat)
  /\ (n = 0 -> chunk_list lst n = Raise ValueError)
  /\ (n < 0 -> chunk_list lst n = Ret []).
Proof.
  split; [| split].
  - intros Hn. unfold chunk_list.
    assert (E : (n =? 0) = false) by (apply Z.eqb_neq; lia). rewrite E.
    eexists. split; [reflexivity |].
    set (L := Z.of_nat (List.length lst)).
    set (K := Z.to_nat ((L - 0 + n - 1) / n)).
    assert (HK : 0 <= (L - 0 + n - 1) / n) by (apply Z.div_pos; lia).
    assert (Hup : L <= n * ((L - 0 + n - 1) / n)).
    { pose proof (Z.mul_succ_div_gt (L - 0 + n - 1) n Hn). lia. }
    assert (Hlow : n * ((L - 0 + n - 1) / n) <= L + n - 1).
    { pose proof (Z.mul_div_le (L - 0 + n - 1) n Hn). lia. }
    assert (R : map (fun i => firstn (Z.to_nat n) (skipn (Z.to_nat i) lst)) (py_range 0 L n)
                = map (fun i => firstn (Z.to_nat n) (skipn (i * Z.to_nat n) lst)) (seq 0 K)).
    { unfold py_range. assert (P : (0 <? n) = true) by (apply Z.ltb_lt; lia). rewrite P.
      fold K. rewrite map_map. apply map_ext. intros i.
      do 2 f_equal. rewrite Z.add_0_l, Z2Nat.inj_mul by lia. now rewrite Nat2Z.id. }
    rewrite R. split.
    + rewrite concat_chunks. apply firstn_all2. unfold K, L in *. nia.
    + intros c Hc. apply in_map_iff in Hc. destruct Hc as [i [<- Hi]].
      apply in_seq in Hi. split; [| apply firstn_le_length].
      assert (Hlen : (i * Z.to_nat n < List.length lst)%nat) by (unfold K, L in *; nia).
      destruct (skipn (i * Z.to_nat n) lst) as [|x r] eqn:S.
      * apply (f_equal (@List.length A)) in S. rewrite length_skipn in S. cbn in S. lia.
      * destruct (Z.to_nat n) eqn:N; [lia | discriminate].
  - intros ->. reflexivity.
  - intros Hn. unfold chunk_list.
    assert (E : (n =? 0) = false) by (apply Z.eqb_neq; lia). rewrite E.
    unfold py_range. assert (P : (0 <? n) = false) by (apply Z.ltb_ge; lia). rewrite P.
    assert (Z : (0 - Z.of_nat (List.length lst) - n - 1) / - n <= 0).
    { assert (0 - Z.of_nat (List.length lst) - n - 1 < - n) by lia.
      destruct (Z_lt_le_dec (0 - Z.of_nat (List.length lst) - n - 1) 0) as [Hneg | Hpos].
      - pose proof (Z.div_lt_upper_bound (0 - Z.of_nat (List.length lst) - n - 1) (- n) 1).
        lia.
      - rewrite Z.div_small by lia. lia. }
    replace (Z.to_nat ((0 - Z.of_nat (List.length lst) - n - 1) / - n)) with 0%nat by lia.
    reflexivity.
Qed.

Lemma chunk_list_partition_witness :
  exists chunks,
    chunk_list [1; 2; 3; 4; 5] 2 = Ret chunks
    /\ List.concat chunks = [1; 2; 3; 4; 5]
    /\ forall c, In c chunks -> c <> [] /\ (List.length c <= Z.to_nat 2)%nat.
Proof. apply (chunk_list_partition [1; 2; 3; 4; 5] 2). lia. Defined.

(** ** Positions *)

Lemma In_indices (i : Z) : 1 <= i <= 256 -> In i (py_range 1 (16 * 16 + 1) 1).
Proof. intros H. apply In_py_range_up. lia. Qed.

Lemma index_checks :
  forallb (fun i =>
             match pos_stoi (pos_itos i) with Ret j => j =? i | _ => false end
             && forallb (fun s =>
                           match pos_stoi s, Square_new s None with
                           | Ret j, Ret sq => (j =? i) && String.eqb (position sq) (pos_itos i)
                           | _, _ => false
                           end) (spellings i))
          (py_range 1 (16 * 16 + 1) 1) = true.
Proof. vm_compute. reflexivity. Qed.

Lemma position_checks :
  forallb (fun p =>
             match pos_stoi p with
             | Ret i => String.eqb (pos_itos i) p && (1 <=? i) && (i <=? 256)
             | _ => false
             end) positions = true.
Proof. vm_compute. reflexivity. Qed.

(** X4: [pos_itos] and [pos_stoi] are inverse to each other between the
    indices 1 to 256 and the positions "A01" to "P16". *)
Theorem pos_itos_pos_stoi :
  (forall i, 1 <= i <= 256 ->
             valid_position (pos_itos i) = true /\ pos_stoi (pos_itos i) = Ret i)
  /\ (forall p, valid_position p = true ->
                exists i, 1 <= i <= 256 /\ pos_stoi p = Ret i /\ pos_itos i = p).
Proof.
  split.
  - intros i Hi. split.
    + apply mem_In_string. unfold positions. apply in_map. now apply In_indices.
    + pose proof index_checks as H. rewrite forallb_forall in H.
      specialize (H i (In_indices i Hi)). apply andb_true_iff in H. destruct H as [H _].
      destruct (pos_stoi (pos_itos i)); try discriminate H.
      apply Z.eqb_eq in H. now subst.
  - intros p Hp. apply mem_In_string in Hp.
    pose proof position_checks as H. rewrite forallb_forall in H. specialize (H p Hp).
    destruct (pos_stoi p) as [i| |]; try discriminate H.
    rewrite !andb_true_iff in H. destruct H as [[H1 H2] H3].
    exists i. split; [lia |]. split; [reflexivity | now apply String.eqb_eq].
Qed.

(** X5: a position may be written with its file in lower case and its
    row without padding: [pos_stoi] gives each spelling the index of the
    position, and [Square(...)] stores the zero-padded upper-case name. *)
Theorem spellings_accepted (i : Z) (s : string) (piece : option Piece) :
  1 <= i <= 256 -> In s (spellings i) ->
  pos_stoi s = Ret i /\ Square_new s piece = Ret (mkSquare (pos_itos i) piece).
Proof.
  intros Hi Hs.
  pose proof index_checks as H. rewrite forallb_forall in H.
  specialize (H i (In_indices i Hi)). apply andb_true_iff in H. destruct H as [_ H].
  rewrite forallb_forall in H. specialize (H s Hs).
  destruct (pos_stoi s) as [j| |]; try discriminate H.
  unfold Square_new in *. destruct (str_head s) as [c| |]; cbn [bind] in *; try discriminate H.
  apply andb_true_iff in H. destruct H as [H1 H2].
  apply Z.eqb_eq in H1. apply String.eqb_eq in H2. cbn [position] in H2.
  subst j. rewrite H2. split; reflexivity.
Qed.

Lemma spellings_accepted_witness :
  pos_stoi "e3" = Ret 37 /\ Square_new "e3" None = Ret (mkSquare "E03" None).
Proof.
  apply (spellings_accepted 37 "e3" None); [lia | right; right; right; left; reflexivity].
Defined.

Lemma pos_itos_pos_stoi_witness :
  pos_stoi (pos_itos 200) = Ret 200
  /\ exists i, 1 <= i <= 256 /\ pos_stoi "H13" = Ret i /\ pos_itos i = "H13".
Proof.
  destruct pos_itos_pos_stoi as [H1 H2]. split.
  - apply (H1 200). lia.
  - apply (H2 "H13"). reflexivity.
Defined.

(** X6: quarter turns add up: turning a position of the grid [a] times
    and the result [b] times is turning it [a + b] times. *)
Theorem pos_rot90_compose (p q : string) (a b : Z) (fuel : nat) :
  valid_position p = true -> 0 <= a -> 0 <= b -> (Z.to_nat (a + b) < fuel)%nat ->
  pos_rot90 fuel p a = Ret q ->
  pos_rot90 fuel q b = pos_rot90 fuel p (a + b).
Proof.
  intros Hp Ha Hb Hf Hq.
  rewrite <- (Z2Nat.id a) in Hq by assumption.
  rewrite pos_rot90_turns in Hq by (assumption || lia). injection Hq as <-.
  rewrite <- (Z2Nat.id b) at 1 by assumption.
  rewrite pos_rot90_turns by (try apply turns_valid; assumption || lia).
  rewrite <- (Z2Nat.id (a + b)) by lia.
  rewrite pos_rot90_turns by (assumption || lia).
  rewrite Z2Nat.inj_add by assumption. now rewrite turns_add.
Qed.

Lemma pos_rot90_compose_witness :
  pos_rot90 8 "N09" 2 = pos_rot90 8 "I03" (1 + 2).
Proof.
  apply (pos_rot90_compose "I03" "N09" 1 2 8); [reflexivity | lia | lia | simpl; lia | reflexivity].
Defined.

(** X7: for two zero-padded positions of the grid [get_ray] is the ray
    of the positions: the squares of the straight line between them,
    both ends included, when they share a diagonal, and ValueError
    otherwise. *)
Theorem get_ray_padded (p1 p2 : string) :
  valid_position p1 = true -> valid_position p2 = true ->
  get_ray p1 p2 = ray_spec p1 p2.
Proof. apply get_ray_on_grid. Qed.

Lemma get_ray_padded_witness :
  get_ray "P01" "M04" = ray_spec "P01" "M04" /\ get_ray "A01" "B03" = ray_spec "A01" "B03".
Proof.
  split; apply get_ray_padded; reflexivity.
Defined.

(** ** The starting position and the quarter turn *)

Lemma start_turn_checks :
  forallb (fun p =>
             match content start p, content start (quarter p) with
             | Ret None, Ret None => true
             | Ret (Some a), Ret (Some b) => opt_eqb Piece_eqb (turn_piece a) b
             | _, _ => false
             end) positions = true.
Proof. vm_compute. reflexivity. Qed.

Lemma Piece_eqb_eq (a b : Piece) : Piece_eqb a b = true -> a = b.
Proof.
  destruct a as [ta ca], b as [tb cb]. unfold Piece_eqb. cbn [type color].
  destruct ta, tb; try discriminate; destruct ca, cb; try discriminate; reflexivity.
Qed.

Lemma opt_Piece_eqb_eq (a b : option Piece) : opt_eqb Piece_eqb a b = true -> a = b.
Proof.
  destruct a as [x|], b as [y|]; try discriminate; [| reflexivity].
  cbn [opt_eqb]. intros H. f_equal. now apply Piece_eqb_eq.
Qed.

(** X8: the board [Board()] builds is the same seen from each side: a
    quarter turn takes a missing square to a missing square, an empty
    one to an empty one, and a piece to a piece of the same kind and of
    the next colour in the order grey, brown, white, black. *)
Theorem start_quarter_turn (p q : string) :
  valid_position p = true -> pos_rot90 2 p 1 = Ret q ->
  exists c, content start p = Ret c
            /\ content start q = Ret (match c with
                                      | Some a => Some (turn_piece a)
                                      | None => None
                                      end).
Proof.
  intros Hp Hq.
  assert (E : q = quarter p) by (unfold quarter; now rewrite Hq). subst q.
  apply mem_In_string in Hp.
  pose proof start_turn_checks as H. rewrite forallb_forall in H. specialize (H p Hp).
  destruct (content start p) as [[a|]| |], (content start (quarter p)) as [[b|]| |];
    try discriminate H.
  - eexists. split; [reflexivity |]. apply opt_Piece_eqb_eq in H. subst b. reflexivity.
  - eexists. split; reflexivity.
Qed.

Lemma start_quarter_turn_witness :
  exists c, content start "I03" = Ret c
            /\ content start "N09" = Ret (match c with
                                          | Some a => Some (turn_piece a)
                                          | None => None
                                          end).
Proof. apply (start_quarter_turn "I03" "N09"); reflexivity. Defined.

(** ** Pieces and teams *)

(** X9: [to_initial] and [from_initial] are inverse to each other
    between the six piece kinds and the letters k, q, r, b, n, p; any
    other letter has no piece kind. *)
Theorem initials_round_trip :
  (forall t, exists c, to_initial t = Some c /\ from_initial c = Some t)
  /\ (forall c t, from_initial c = Some t -> to_initial t = Some c)
  /\ (forall c, from_initial c = None <-> ~ In c (map fst piece_initials)).
Proof.
  split; [| split].
  - intros t. destruct t; eexists; split; reflexivity.
  - intros c t. unfold from_initial.
    repeat match goal with
           | |- (if Ascii.eqb c ?x then _ else _) = _ -> _ =>
               destruct (Ascii.eqb_spec c x) as [-> | ?];
               [intros H; injection H as <-; reflexivity |]
           end.
    discriminate.
  - intros c. unfold from_initial. cbn [piece_initials combine map fst In].
    repeat match goal with
           | |- context [Ascii.eqb c ?x] =>
               destruct (Ascii.eqb_spec c x) as [-> | ?];
               [split; [discriminate | intros H; exfalso; apply H; tauto] |]
           end.
    split; [| reflexivity]. intros _ H.
    repeat (destruct H as [H | H]; [congruence |]). exact H.
Qed.

(** X10: [get_teams] puts the colour's own team first and the other
    team second (the other way round without [own_first]); the two
    teams share no colour; and the colour two places on in [COLORS],
    which [get_teammate] returns, is the other member of the own team,
    the one [is_valid] tests for a check on the teammate. *)
Theorem teams_and_teammate (c : Color) :
  exists team enemy_team mate,
    get_teams c true = (team, enemy_team)
    /\ get_teams c false = (enemy_team, team)
    /\ mem Color_eqb c team = true
    /\ (forall d, mem Color_eqb d enemy_team = negb (mem Color_eqb d team))
    /\ get_teammate c = Ret mate
    /\ mate <> c
    /\ mem Color_eqb mate team = true
    /\ other_of team c = Ret mate
    /\ get_teammate mate = Ret c.
Proof.
  destruct c; do 3 eexists;
    (split; [reflexivity |]); (split; [reflexivity |]); (split; [reflexivity |]);
    (split; [intros d; destruct d; reflexivity |]);
    (split; [reflexivity |]); (split; [discriminate |]); repeat split.
Qed.

(** ** Squares of the layout *)

Lemma set_nth_spec {A : Type} (v : A) (l : list A) :
  forall n, (n < List.length l)%nat ->
            exists l', set_nth l n v = Some l'
                       /\ List.length l' = List.length l
                       /\ nth_error l' n = Some v
                       /\ forall k, k <> n -> nth_error l' k = nth_error l k.
Proof.
  induction l as [|a l IH]; intros n Hn; [cbn in Hn; lia |].
  destruct n as [|n]; cbn [set_nth].
  - eexists. split; [reflexivity |]. split; [reflexivity |]. split; [reflexivity |].
    intros [|k] Hk; [congruence | reflexivity].
  - destruct (IH n) as [l' [E [L [G O]]]]; [cbn in Hn; lia |].
    rewrite E. eexists. split; [reflexivity |]. split; [cbn [List.length]; f_equal; exact L |].
    split; [exact G |]. intros [|k] Hk; [reflexivity | cbn; apply O; congruence].
Qed.

Lemma set_nth_None {A : Type} (v : A) (l : list A) :
  forall n, (List.length l <= n)%nat -> set_nth l n v = None.
Proof.
  induction l as [|a l IH]; intros n Hn; [reflexivity |].
  destruct n as [|n]; [cbn in Hn; lia |]. cbn [set_nth]. rewrite IH; [reflexivity | cbn in Hn; lia].
Qed.

Lemma get_square_at (b : Board) (p : string) (j : Z) :
  pos_stoi p = Ret j -> 1 <= j ->
  get_square b p = match nth_error (layout b) (Z.to_nat (j - 1)) with
                   | Some a => Ret a
                   | None => Raise IndexError
                   end.
Proof.
  intros Hp Hj. unfold get_square. rewrite Hp. cbn [bind]. unfold list_get.
  assert (E : (j - 1 <? 0) = false) by (apply Z.ltb_ge; lia).
  cbv zeta. rewrite E. cbv iota. rewrite E. reflexivity.
Qed.



Lemma list_set_slot {A : Type} (v : A) (l : list A) (i : Z) :
  list_set l (i - 1) v = match slot (List.length l) i with
                         | Some n => match set_nth l n v with
                                     | Some r => Ret r
                                     | None => Raise IndexError
                                     end
                         | None => Raise IndexError
                         end.
Proof.
  unfold list_set, slot. cbv zeta.
  destruct (i - 1 <? 0) eqn:N.
  - destruct (i - 1 + Z.of_nat (List.length l) <? 0) eqn:M.
    + replace (0 <=? i - 1 + Z.of_nat (List.length l)) with false
        by (symmetry; apply Z.leb_gt; apply Z.ltb_lt in M; lia).
      reflexivity.
    + replace (0 <=? i - 1 + Z.of_nat (List.length l)) with true
        by (symmetry; apply Z.leb_le; apply Z.ltb_ge in M; lia).
      replace (i - 1 + Z.of_nat (List.length l) <? Z.of_nat (List.length l)) with true
        by (symmetry; apply Z.ltb_lt; apply Z.ltb_lt in N; lia).
      reflexivity.
  - rewrite N. replace (0 <=? i - 1) with true
      by (symmetry; apply Z.leb_le; apply Z.ltb_ge in N; lia).
    cbn [andb]. destruct (i - 1 <? Z.of_nat (List.length l)) eqn:M; [reflexivity |].
    apply Z.ltb_ge in M. apply Z.ltb_ge in N.
    rewrite set_nth_None by lia. reflexivity.
Qed.



(** X12: [update_square] checks no bounds of its own: an index above the
    length of the layout, or at most minus the length (a negative row),
    raises IndexError, and an index from [1 - len] to 0 (a row "00")
    writes the slot counted from the end. *)
Theorem update_square_out_of_range (b : Board) (square : Square) (i : Z) :
  pos_stoi (position square) = Ret i ->
  (Z.of_nat (List.length (layout b)) < i -> update_square b square = Raise IndexError)
  /\ (i <= - Z.of_nat (List.length (layout b)) -> update_square b square = Raise IndexError)
  /\ (- Z.of_nat (List.length (layout b)) < i <= 0 ->
      exists b', update_square b square = Ret b'
                 /\ nth_error (layout b')
                              (Z.to_nat (Z.of_nat (List.length (layout b)) + i - 1))
                    = Some (Some square)).
Proof.
  intros Hp. unfold update_square, Square_int. rewrite Hp. cbn [bind]. unfold list_set.
  cbv zeta. split; [| split].
  - intros H. assert (N : (i - 1 <? 0) = false) by (apply Z.ltb_ge; lia). rewrite N.
    cbv iota. rewrite N. rewrite set_nth_None by lia. reflexivity.
  - intros H. assert (N : (i - 1 <? 0) = true) by (apply Z.ltb_lt; lia). rewrite N.
    cbv iota.
    assert (M : (i - 1 + Z.of_nat (List.length (layout b)) <? 0) = true)
      by (apply Z.ltb_lt; lia).
    now rewrite M.
  - intros H. assert (N : (i - 1 <? 0) = true) by (apply Z.ltb_lt; lia). rewrite N.
    cbv iota.
    assert (M : (i - 1 + Z.of_nat (List.length (layout b)) <? 0) = false)
      by (apply Z.ltb_ge; lia).
    rewrite M.
    destruct (set_nth_spec (Some square) (layout b)
                           (Z.to_nat (i - 1 + Z.of_nat (List.length (layout b)))))
      as [l' [E [L [G O]]]]; [lia |].
    rewrite E. cbn [bind]. eexists. split; [reflexivity |]. cbn [layout set_layout].
    replace (Z.to_nat (Z.of_nat (List.length (layout b)) + i - 1))
      with (Z.to_nat (i - 1 + Z.of_nat (List.length (layout b)))) by lia.
    exact G.
Qed.

Lemma update_square_out_of_range_witness :
  update_square start (mkSquare "A17" None) = Raise IndexError
  /\ update_square start (mkSquare "A-16" None) = Raise IndexError
  /\ exists b', update_square start (mkSquare "C00" None) = Ret b'
                /\ nth_error (layout b') 242 = Some (Some (mkSquare "C00" None)).
Proof.
  split; [| split].
  - destruct (update_square_out_of_range start (mkSquare "A17" None) 257 eq_refl) as [H _].
    apply H. vm_compute. reflexivity.
  - destruct (update_square_out_of_range start (mkSquare "A-16" None) (-271) eq_refl)
      as [_ [H _]].
    apply H. vm_compute. discriminate.
  - destruct (update_square_out_of_range start (mkSquare "C00" None) (-13) eq_refl)
      as [_ [_ H]].
    apply H. vm_compute. split; [reflexivity | discriminate].
Defined.

(** ** Turns *)

Lemma next_turn_step (fuel : nat) (b : Board) (jumps : Z) :
  next_turn (S fuel) b jumps true
  = (t <- list_get COLORS ((COLORS_index (turn b) + jumps) mod 4) ;;
     f <- dict_item (frozen b) t ;;
     if f then next_turn fuel (set_turn b t) jumps true else Ret (set_turn b t)).
Proof. reflexivity. Qed.

Lemma set_turn_set_turn (b : Board) (s t : Color) : set_turn (set_turn b s) t = set_turn b t.
Proof. reflexivity. Qed.

Lemma set_turn_same (b : Board) : set_turn b (turn b) = b.
Proof. destruct b. reflexivity. Qed.

Ltac turn_cases b :=
  let Hw := fresh "Hw" in let Hr := fresh "Hr" in
  let Hg := fresh "Hg" in let Hb := fresh "Hb" in
  match goal with
  | K : all_keys (frozen b) |- _ =>
      destruct (K white) as [[] Hw]; destruct (K brown) as [[] Hr];
      destruct (K grey) as [[] Hg]; destruct (K black) as [[] Hb]
  end.

Ltac turn_run :=
  repeat (rewrite next_turn_step;
          cbn [turn set_turn frozen COLORS_index];
          match goal with
          | |- context [list_get COLORS (?z mod 4)] =>
              let r := eval vm_compute in (list_get COLORS (z mod 4)) in
              change (list_get COLORS (z mod 4)) with r
          end;
          cbn [bind]; unfold dict_item;
          match goal with
          | H : dict_get ?d ?c = Some _ |- context [dict_get ?d ?c] => rewrite H
          end;
          cbn [bind]).

(** X13: with every colour a key of [frozen] and at least one colour
    not frozen, [next_turn] forwards or backwards returns within four
    calls, changes the turn only, and leaves it on a colour that is not
    frozen. *)
Theorem next_turn_returns (fuel : nat) (b : Board) (jumps : Z) :
  (4 <= fuel)%nat -> jumps = 1 \/ jumps = -1 ->
  all_keys (frozen b) ->
  (exists c, dict_get (frozen b) c = Some false) ->
  exists t, next_turn fuel b jumps true = Ret (set_turn b t)
            /\ dict_get (frozen b) t = Some false.
Proof.
  intros Hf Hj K [c Hc].
  destruct fuel as [|[|[|[|fuel]]]]; try lia. clear Hf.
  destruct b as [t g cr ch fr l w ms]. cbn [frozen] in *.
  set (b := mkBoard t g cr ch fr l w ms).
  assert (K' : all_keys (frozen b)) by exact K.
  turn_cases b; cbn [frozen b] in *;
    try (destruct c; congruence);
    destruct Hj as [-> | ->]; destruct t; unfold b; turn_run;
    eexists; (split; [reflexivity | cbn [frozen]; assumption]).
Qed.

Lemma next_turn_returns_witness :
  exists t, next_turn 4 start 1 true = Ret (set_turn start t)
            /\ dict_get (frozen start) t = Some false.
Proof.
  apply (next_turn_returns 4 start 1);
    [lia | left; reflexivity | intros c; destruct c; eexists; reflexivity
     | exists white; reflexivity].
Defined.

(** X14: when the colour to move is not frozen, a step back undoes a
    step forward: [next_turn(-1)] after [next_turn()] gives the board
    back, whichever of the other colours are frozen. *)
Theorem next_turn_back (fuel : nat) (b b1 : Board) :
  (4 <= fuel)%nat -> all_keys (frozen b) ->
  dict_get (frozen b) (turn b) = Some false ->
  next_turn fuel b 1 true = Ret b1 ->
  next_turn fuel b1 (-1) true = Ret b.
Proof.
  intros Hf K Hc.
  destruct fuel as [|[|[|[|fuel]]]]; try lia. clear Hf.
  rewrite <- (set_turn_same b) at 2.
  destruct b as [t g cr ch fr l w ms]. cbn [frozen turn] in *.
  set (b := mkBoard t g cr ch fr l w ms).
  assert (K' : all_keys (frozen b)) by exact K.
  turn_cases b; cbn [frozen b] in *;
    destruct t; try congruence; unfold b; turn_run;
    intros H; injection H as <-; turn_run; reflexivity.
Qed.

Lemma next_turn_back_witness :
  exists b1, next_turn 4 start 1 true = Ret b1 /\ next_turn 4 b1 (-1) true = Ret start.
Proof.
  eexists. split; [reflexivity |].
  apply (next_turn_back 4 start);
    [lia | intros c; destruct c; eexists; reflexivity | reflexivity | reflexivity].
Defined.

(** ** What [move] and [pop] write *)

Lemma set_nth_length {A : Type} (v : A) (l : list A) :
  forall n l', set_nth l n v = Some l' -> List.length l' = List.length l.
Proof.
  induction l as [|a l IH]; intros n l' H; [discriminate H |].
  destruct n as [|n]; cbn [set_nth] in H.
  - injection H as <-. reflexivity.
  - destruct (set_nth l n v) as [r|] eqn:E; [| discriminate H]. injection H as <-.
    cbn [List.length]. f_equal. now apply (IH n).
Qed.

Lemma update_square_shape (b b' : Board) (sq : Square) :
  update_square b sq = Ret b' ->
  exists l, b' = set_layout b l /\ List.length l = List.length (layout b).
Proof.
  unfold update_square, list_set. intros H. step H. step H. step E0; [discriminate E0 |].
  step E0; [| discriminate E0]. step E0. step H. eexists. split; [reflexivity |].
  now apply set_nth_length in E2.
Qed.

Lemma next_turn_shape (fuel : nat) (jumps : Z) (skip : bool) :
  forall b b', next_turn fuel b jumps skip = Ret b' -> exists t, b' = set_turn b t.
Proof.
  induction fuel as [|fuel IH]; intros b b' H; cbn [next_turn] in H; [discriminate H |].
  step H. step H; [| step H; eauto].
  step H. step H; [| step H; eauto].
  apply IH in H. destruct H as [t ->]. now exists t.
Qed.

Lemma castle_rooks_shape (fuel : nat) (cs : list bool) (mover : res Color)
      (rooks : list (Z * string * string)) :
  forall b b', castle_rooks fuel b cs mover rooks = Ret b' ->
               exists l, b' = set_layout b l /\ List.length l = List.length (layout b).
Proof.
  induction rooks as [|[[index rook_start] rook_end] rest IH]; intros b b' H;
    cbn [castle_rooks] in H.
  - step H. exists (layout b'). split; [now destruct b' | reflexivity].
  - do 2 step H. apply IH in H. destruct H as [l [-> L]].
    step E0.
    + repeat step E0.
      repeat match goal with
             | G : update_square _ _ = Ret _ |- _ =>
                 apply update_square_shape in G; destruct G as [? [-> ?]]
             end.
      exists l. split; [reflexivity |]. cbn [layout set_layout] in *. congruence.
    + step E0. exists l. split; [reflexivity | assumption].
Qed.

Lemma grant_shape (cs : list bool) (mover : res Color) (value : bool) (ns : list Z) :
  forall b b', grant b cs mover value ns = Ret b' ->
               exists r, b' = set_castling_rights b r.
Proof.
  induction ns as [|n rest IH]; intros b b' H; cbn [grant] in H.
  - step H. exists (castling_rights b'). now destruct b'.
  - step H. step H; [| now apply IH].
    repeat step H. eauto.
Qed.

Ltac shapes :=
  repeat match goal with
         | G : update_square _ _ = Ret _ |- _ =>
             apply update_square_shape in G; destruct G as [? [-> ?]]
         | G : update_frozen _ _ = Ret _ |- _ =>
             apply update_frozen_frozen in G; destruct G as [? ->]
         | G : next_turn _ _ _ _ = Ret _ |- _ =>
             apply next_turn_shape in G; destruct G as [? ->]
         | G : castle_rooks _ _ _ _ _ = Ret _ |- _ =>
             apply castle_rooks_shape in G; destruct G as [? [-> ?]]
         | G : grant _ _ _ _ _ = Ret _ |- _ =>
             apply grant_shape in G; destruct G as [? ->]
         end.

(** X15: when [move] returns, the history is the old one with the move
    at its end, the graveyard the old one with the piece taken (if any)
    at its end, and the layout has as many slots as before; a move
    that carries no castling flag leaves the castling rights alone. *)
Theorem move_records (fuel : nat) (b b' : Board) (m : Move) :
  move fuel b m = Ret b' ->
  move_stack b' = move_stack b ++ [m]
  /\ graveyard b' = graveyard b ++ captured m
  /\ List.length (layout b') = List.length (layout b)
  /\ (castling m = None -> castling_rights b' = castling_rights b).
Proof.
  unfold move, execute, captured. intros H. step H. cbv zeta in E.
  repeat step E.
  repeat match goal with
         | G : deref ?x = Ret _ |- _ => destruct x; cbn [deref] in G; [step G | discriminate G]
         end.
  destruct (piece_at _) eqn:P in *;
    destruct (forallb _ _);
    repeat match goal with
           | G : match ?x with _ => _ end = Ret _ |- _ => step G
           | G : bind _ _ = Ret _ |- _ => step G
           | G : Ret _ = Ret _ |- _ => step G
           end;
    shapes;
    cbn [move_stack graveyard layout castling_rights set_layout set_turn set_graveyard
         set_castling_rights set_checked set_frozen set_winner set_move_stack] in *;
    repeat split; try rewrite app_nil_r; try reflexivity; try congruence; try discriminate.
Qed.

Lemma move_records_witness :
  move_stack after_queen_takes = move_stack midgame ++ [queen_takes_valid]
  /\ graveyard after_queen_takes = graveyard midgame ++ captured queen_takes_valid
  /\ List.length (layout after_queen_takes) = List.length (layout midgame)
  /\ (castling queen_takes_valid = None ->
      castling_rights after_queen_takes = castling_rights midgame).
Proof. apply (move_records 20 midgame after_queen_takes queen_takes_valid move_queen_takes). Defined.

Lemma rev_cons_last {A : Type} (l r : list A) (m : A) :
  rev l = m :: r -> l = rev r ++ [m] /\ removelast l = rev r.
Proof.
  intros H. apply (f_equal (@rev A)) in H. rewrite rev_involutive in H. cbn [rev] in H.
  subst l. split; [reflexivity | apply removelast_last].
Qed.

Lemma update_square_list_set (b b' : Board) (sq : Square) :
  update_square b sq = Ret b' ->
  exists i l, pos_stoi (position sq) = Ret i
              /\ list_set (layout b) (i - 1) (Some sq) = Ret l
              /\ b' = set_layout b l.
Proof.
  unfold update_square, Square_int. intros H. do 3 step H. do 2 eexists. repeat split. exact E0.
Qed.

(** X16: [pop] answers False exactly on an empty history, and then
    leaves the board as it is; when it answers True the history has
    lost its last move, the graveyard its last piece if that move took
    one, and the layout has kept its length. *)
Theorem pop_records (fuel : nat) (b b' : Board) (ok : bool) :
  pop fuel b = Ret (ok, b') ->
  (ok = false <-> move_stack b = [])
  /\ (ok = false -> b' = b)
  /\ (ok = true ->
      exists m, move_stack b = move_stack b' ++ [m]
                /\ graveyard b' = match captured m with
                                  | [] => graveyard b
                                  | _ :: _ => removelast (graveyard b)
                                  end
                /\ List.length (layout b') = List.length (layout b)).
Proof.
  unfold pop, captured. intros H.
  destruct (rev (move_stack b)) as [|m r] eqn:R.
  - step H. apply (f_equal (@rev Move)) in R. rewrite rev_involutive in R. cbn [rev] in R.
    split; [split; [intros _; exact R | reflexivity] |]. split; [reflexivity | discriminate].
  - destruct (rev_cons_last _ _ _ R) as [S1 S2].
    cbv zeta in H. repeat step H.
    split; [split; [discriminate | intros N; rewrite N in R; discriminate R] |].
    split; [discriminate |]. intros _. exists m.
    repeat match goal with
           | G : deref ?x = Ret _ |- _ => destruct x; cbn [deref] in G; [step G | discriminate G]
           end.
    destruct (piece_at _) eqn:P in *;
      repeat match goal with
             | G : match ?x with _ => _ end = Ret _ |- _ => step G
             | G : bind _ _ = Ret _ |- _ => step G
             | G : Ret _ = Ret _ |- _ => step G
             | G : Raise _ = Ret _ |- _ => discriminate G
             | G : check_checks _ _ = Ret _ |- _ => unfold check_checks in G
             end;
      shapes;
      cbn [move_stack graveyard layout castling_rights set_layout set_turn set_graveyard
           set_castling_rights set_checked set_frozen set_winner set_move_stack] in *;
      (split; [rewrite S2; exact S1 |]);
      (split; [try match goal with G : graveyard _ = _ |- _ => rewrite G end; reflexivity
              | congruence]).
Qed.

Lemma pop_records_witness :
  (true = false <-> move_stack after_queen_takes = [])
  /\ (true = false -> queen_undone = after_queen_takes)
  /\ (true = true ->
      exists m, move_stack after_queen_takes = move_stack queen_undone ++ [m]
                /\ graveyard queen_undone = match captured m with
                                             | [] => graveyard after_queen_takes
                                             | _ :: _ => removelast (graveyard after_queen_takes)
                                             end
                /\ List.length (layout queen_undone) = List.length (layout after_queen_takes)).
Proof. apply (pop_records 20 after_queen_takes queen_undone true pop_queen_takes). Defined.

Lemma set_nth_nth {A : Type} (v : A) (l : list A) :
  forall n l', set_nth l n v = Some l' ->
               nth_error l' n = Some v /\ forall k, k <> n -> nth_error l' k = nth_error l k.
Proof.
  induction l as [|a l IH]; intros n l' H; [discriminate H |].
  destruct n as [|n]; cbn [set_nth] in H.
  - injection H as <-. split; [reflexivity |]. intros [|k] Hk; [congruence | reflexivity].
  - destruct (set_nth l n v) as [r|] eqn:E; [| discriminate H]. injection H as <-.
    destruct (IH n r E) as [G O]. split; [exact G |].
    intros [|k] Hk; [reflexivity | cbn [nth_error]; apply O; congruence].
Qed.

Lemma list_set_nth {A : Type} (v : A) (l l' : list A) (i : Z) :
  list_set l (i - 1) v = Ret l' -> 1 <= i ->
  nth_error l' (Z.to_nat (i - 1)) = Some v
  /\ forall k, k <> Z.to_nat (i - 1) -> nth_error l' k = nth_error l k.
Proof.
  unfold list_set. intros H Hi. cbv zeta in H.
  assert (N : (i - 1 <? 0) = false) by (apply Z.ltb_ge; lia).
  rewrite N in H. cbv iota in H. rewrite N in H.
  destruct (set_nth l (Z.to_nat (i - 1)) v) as [r|] eqn:E; [| discriminate H].
  injection H as <-. now apply set_nth_nth.
Qed.

Lemma position_normal :
  forallb (fun p =>
             match Square_new p None, pos_stoi p with
             | Ret sq, Ret i => String.eqb (position sq) p && (1 <=? i)
             | _, _ => false
             end) positions = true.
Proof. vm_compute. reflexivity. Qed.

Lemma valid_position_square (p : string) (x : option Piece) :
  valid_position p = true ->
  Square_new p x = Ret (mkSquare p x) /\ exists i, 1 <= i /\ pos_stoi p = Ret i.
Proof.
  intros Hp. apply mem_In_string in Hp.
  pose proof position_normal as H. rewrite forallb_forall in H. specialize (H p Hp).
  unfold Square_new in *. destruct (str_head p) as [c| |]; cbn [bind] in *; try discriminate H.
  destruct (pos_stoi p) as [i| |]; try discriminate H.
  apply andb_true_iff in H. destruct H as [H1 H2]. apply String.eqb_eq in H1.
  cbn [position] in H1. rewrite H1. split; [reflexivity |]. exists i. split; [lia | reflexivity].
Qed.

Lemma move_result (fuel : nat) (b b1 : Board) (m : Move) :
  move fuel b m = Ret b1 ->
  move_stack b1 = move_stack b ++ [m]
  /\ graveyard b1 = graveyard b ++ captured m
  /\ exists ts p e1 e2 i j l1,
      to_square m = Some ts /\ piece_at (from_square m) = Some p
      /\ Square_new (position (from_square m)) None = Ret e1
      /\ Square_new (position ts) (piece_or (promotion m) (Some p)) = Ret e2
      /\ pos_stoi (position e1) = Ret i /\ pos_stoi (position e2) = Ret j
      /\ list_set (layout b) (i - 1) (Some e1) = Ret l1
      /\ (castling m = None ->
          list_set l1 (j - 1) (Some e2) = Ret (layout b1)
          /\ castling_rights b1 = castling_rights b).
Proof.
  unfold move, execute, captured. intros H. step H. cbv zeta in E.
  repeat step E.
  repeat match goal with
         | G : deref ?x = Ret _ |- _ =>
             destruct x eqn:?; cbn [deref] in G; [step G | discriminate G]
         end.
  repeat match goal with
         | G : update_square _ _ = Ret _ |- _ =>
             apply update_square_list_set in G; destruct G as [? [? [? [? ->]]]]
         end.
  match goal with G : to_square m = Some ?ts |- _ => destruct (piece_at ts) eqn:P end;
    destruct (forallb _ _);
    (destruct (castling m) eqn:C;
     [ repeat match goal with
              | G : match ?x with _ => _ end = Ret _ |- _ => step G
              | G : bind _ _ = Ret _ |- _ => step G
              | G : Ret _ = Ret _ |- _ => step G
              end;
       shapes
     | match goal with G : Ret _ = Ret _ |- _ => step G end; shapes ]);
    cbn [move_stack graveyard layout castling_rights set_layout set_turn set_graveyard
         set_castling_rights set_checked set_frozen set_winner set_move_stack] in *;
    (split; [reflexivity |]); (split; [try rewrite app_nil_r; reflexivity |]);
    do 7 eexists; do 7 (split; [try reflexivity; eassumption |]);
    try discriminate; intros _; split; try reflexivity; congruence.
Qed.

Lemma pop_result (fuel : nat) (b1 b2 : Board) (ok : bool) (m : Move) (r : list Move) :
  pop fuel b1 = Ret (ok, b2) -> rev (move_stack b1) = m :: r ->
  ok = true
  /\ move_stack b2 = removelast (move_stack b1)
  /\ exists ts i j l3,
      to_square m = Some ts
      /\ graveyard b2 = match piece_at ts with
                        | Some _ => removelast (graveyard b1)
                        | None => graveyard b1
                        end
      /\ pos_stoi (position (from_square m)) = Ret i /\ pos_stoi (position ts) = Ret j
      /\ list_set (layout b1) (i - 1) (Some (from_square m)) = Ret l3
      /\ (castling m = None ->
          list_set l3 (j - 1) (Some ts) = Ret (layout b2)
          /\ castling_rights b2 = castling_rights b1).
Proof.
  unfold pop. intros H R. rewrite R in H. cbv zeta in H. repeat step H.
  repeat match goal with
         | G : deref ?x = Ret _ |- _ =>
             destruct x eqn:?; cbn [deref] in G; [step G | discriminate G]
         end.
  repeat match goal with
         | G : update_square _ _ = Ret _ |- _ =>
             apply update_square_list_set in G; destruct G as [? [? [? [? ->]]]]
         end.
  match goal with G : to_square m = Some ?ts |- _ => destruct (piece_at ts) eqn:P end;
    (destruct (castling m) eqn:C;
     repeat match goal with
            | G : match ?x with _ => _ end = Ret _ |- _ => step G
            | G : bind _ _ = Ret _ |- _ => step G
            | G : Ret _ = Ret _ |- _ => step G
            | G : Raise _ = Ret _ |- _ => discriminate G
            | G : check_checks _ _ = Ret _ |- _ => unfold check_checks in G
            end;
     shapes);
    cbn [move_stack graveyard layout castling_rights set_layout set_turn set_graveyard
         set_castling_rights set_checked set_frozen set_winner set_move_stack] in *;
    (split; [reflexivity |]); (split; [reflexivity |]);
    do 4 eexists; (split; [reflexivity |]);
    (split; [rewrite P; try match goal with G : graveyard _ = _ |- _ => rewrite G end; reflexivity |]);
    do 3 (split; [eassumption |]);
    try discriminate; intros _; split; try reflexivity; congruence.
Qed.

(** X17: [pop] right after [move] answers True and gives back the
    history and the graveyard.  For a move without castling it also
    gives back the castling rights, and, when the move was built from
    the board's own two squares (at zero-padded positions of the grid),
    the whole layout. *)
Theorem move_then_pop (fuel : nat) (b b1 b2 : Board) (m : Move) (ok : bool) :
  move fuel b m = Ret b1 -> pop fuel b1 = Ret (ok, b2) ->
  ok = true
  /\ move_stack b2 = move_stack b
  /\ graveyard b2 = graveyard b
  /\ (castling m = None -> castling_rights b2 = castling_rights b)
  /\ (castling m = None ->
      forall ts, to_square m = Some ts ->
                 valid_position (position (from_square m)) = true ->
                 valid_position (position ts) = true ->
                 get_square b (position (from_square m)) = Ret (Some (from_square m)) ->
                 get_square b (position ts) = Ret (Some ts) ->
                 layout b2 = layout b).
Proof.
  intros Hm Hp.
  destruct (move_result _ _ _ _ Hm)
    as [S [G [ts [p [e1 [e2 [i [j [l1 [Hts [Hpc [He1 [He2 [Hi [Hj [L1 HC]]]]]]]]]]]]]]]].
  assert (R : rev (move_stack b1) = m :: rev (move_stack b))
    by (rewrite S, rev_app_distr; reflexivity).
  destruct (pop_result _ _ _ _ _ _ Hp R)
    as [Hok [S2 [ts' [i' [j' [l3 [Hts' [G2 [Hi' [Hj' [L3 HC']]]]]]]]]]].
  rewrite Hts in Hts'. injection Hts' as <-.
  split; [exact Hok |]. split; [rewrite S2, S; apply removelast_last |].
  split.
  { rewrite G2, G. unfold captured. rewrite Hts.
    destruct (piece_at ts); [apply removelast_last | apply app_nil_r]. }
  split.
  { intros C. destruct (HC C) as [_ K1]. destruct (HC' C) as [_ K2]. congruence. }
  intros C ts0 Hts0 Vf Vt Gf Gt. rewrite Hts in Hts0. injection Hts0 as <-.
  destruct (HC C) as [L2 _]. destruct (HC' C) as [L4 _].
  destruct (valid_position_square _ None Vf) as [Nf [i0 [Hi0 Pf]]].
  destruct (valid_position_square _ (piece_or (promotion m) (Some p)) Vt) as [Nt [j0 [Hj0 Pt]]].
  rewrite Nf in He1. injection He1 as <-. rewrite Nt in He2. injection He2 as <-.
  cbn [position] in Hi, Hj.
  assert (i = i0) by congruence. assert (j = j0) by congruence.
  assert (i' = i0) by congruence. assert (j' = j0) by congruence. subst i j i' j'.
  rewrite (get_square_at _ _ i0 Pf Hi0) in Gf. rewrite (get_square_at _ _ j0 Pt Hj0) in Gt.
  destruct (nth_error (layout b) (Z.to_nat (i0 - 1))) as [sf|] eqn:Nfs; [| discriminate Gf].
  destruct (nth_error (layout b) (Z.to_nat (j0 - 1))) as [st|] eqn:Nts; [| discriminate Gt].
  injection Gf as ->. injection Gt as ->.
  destruct (list_set_nth _ _ _ _ L1 Hi0) as [A1 B1].
  destruct (list_set_nth _ _ _ _ L2 Hj0) as [A2 B2].
  destruct (list_set_nth _ _ _ _ L3 Hi0) as [A3 B3].
  destruct (list_set_nth _ _ _ _ L4 Hj0) as [A4 B4].
  apply nth_error_ext. intros k.
  destruct (Nat.eq_dec k (Z.to_nat (j0 - 1))) as [-> | Nj]; [congruence |].
  rewrite (B4 k Nj).
  destruct (Nat.eq_dec k (Z.to_nat (i0 - 1))) as [-> | Ni]; [congruence |].
  rewrite (B3 k Ni), (B2 k Nj), (B1 k Ni). reflexivity.
Qed.

Lemma move_then_pop_witness :
  true = true
  /\ move_stack queen_undone = move_stack midgame
  /\ graveyard queen_undone = graveyard midgame
  /\ castling_rights queen_undone = castling_rights midgame
  /\ layout queen_undone = layout midgame.
Proof.
  destruct (move_then_pop 20 midgame after_queen_takes queen_undone queen_takes_valid true
                          move_queen_takes pop_queen_takes) as [H1 [H2 [H3 [H4 H5]]]].
  split; [exact H1 |]. split; [exact H2 |]. split; [exact H3 |]. split; [exact (H4 eq_refl) |].
  apply (H5 eq_refl _ eq_refl); reflexivity.
Defined.

(** ** Colours without a piece, frozen colours *)

Lemma Color_eqb_eq (a b : Color) : Color_eqb a b = true <-> a = b.
Proof. destruct a, b; split; intros H; try reflexivity; discriminate H. Qed.

Lemma mem_Color_In (c : Color) (l : list Color) : mem Color_eqb c l = true <-> In c l.
Proof.
  unfold mem. rewrite existsb_exists. split.
  - intros [x [Hx He]]. apply Color_eqb_eq in He. now subst.
  - intros H. exists c. split; [assumption | apply Color_eqb_refl].
Qed.

Lemma squares_of_color (b : Board) (c : Color) (s : Square) :
  In s (flat_map (fun a => match a with
                           | Some sq =>
                               match piece_at sq with
                               | Some p => if Color_eqb (color p) c then [sq] else []
                               | None => []
                               end
                           | None => []
                           end) (layout b))
  <-> In (Some s) (layout b) /\ exists p, piece_at s = Some p /\ color p = c.
Proof.
  rewrite in_flat_map. split.
  - intros [[sq|] [Hin H]]; [| contradiction H].
    destruct (piece_at sq) as [p|] eqn:P; [| contradiction H].
    destruct (Color_eqb (color p) c) eqn:C; [| contradiction H].
    destruct H as [<- | []]. apply Color_eqb_eq in C. eauto.
  - intros [Hin [p [P C]]]. exists (Some s). split; [exact Hin |].
    rewrite P. subst c. rewrite Color_eqb_refl. now left.
Qed.

Lemma legal_moves_cases (fuel : nat) (b : Board) (c : Color) :
  (~ has_piece b c /\ possible_legal_moves_color fuel b c = Raise ValueError)
  \/ (has_piece b c
      /\ forall cf, In cf (currently_frozen b) -> In cf (enemies c) ->
                    possible_legal_moves_color fuel b c = Raise AttributeError).
Proof.
  unfold possible_legal_moves_color.
  match goal with |- context [match ?l with _ => _ end] => destruct l as [|s r] eqn:L end.
  - left. split; [| reflexivity].
    intros [sq [p [I [P C]]]].
    assert (J : In sq []) by (rewrite <- L; apply squares_of_color; eauto). contradiction J.
  - right. assert (J : In s (s :: r)) by now left.
    rewrite <- L in J. apply squares_of_color in J. destruct J as [I [q [Q Cq]]].
    split; [now exists s, q |]. intros cf F En.
    cbn [sources]. unfold possible_moves. rewrite Q. cbn [deref bind]. rewrite Cq.
    unfold enemies in En. destruct (get_teams c true) as [team enemy_team].
    cbn [snd] in En.
    replace (existsb (fun cf0 => mem Color_eqb cf0 enemy_team) (currently_frozen b))
      with true; [reflexivity |].
    symmetry. apply existsb_exists. exists cf. split; [exact F | now apply mem_Color_In].
Qed.

(** X18: asked for the moves of a colour that has no piece on the board,
    [possible_legal_moves_color] raises ValueError, and so does
    [is_mate]. *)
Theorem possible_legal_moves_color_no_piece (fuel : nat) (b : Board) (c : Color) :
  ~ has_piece b c ->
  possible_legal_moves_color fuel b c = Raise ValueError
  /\ is_mate fuel b c = Raise ValueError.
Proof.
  intros H. destruct (legal_moves_cases fuel b c) as [[_ E] | [P _]]; [| contradiction].
  split; [exact E |]. unfold is_mate. rewrite E. reflexivity.
Qed.

Lemma possible_legal_moves_color_no_piece_witness :
  possible_legal_moves_color 4 bare white = Raise ValueError
  /\ is_mate 4 bare white = Raise ValueError.
Proof.
  apply (possible_legal_moves_color_no_piece 4 bare white).
  intros [sq [p [I [P _]]]].
  assert (E : forallb (fun o => match o with
                                | Some s => match piece_at s with
                                            | Some _ => false
                                            | None => true
                                            end
                                | None => true
                                end) (layout bare) = true) by (vm_compute; reflexivity).
  rewrite forallb_forall in E. specialize (E _ I). cbn beta iota in E.
  rewrite P in E. discriminate E.
Defined.

(** X19: [possible_moves] takes the frozen colours out of the enemy team
    with [enemy_team.remove], and the team is a tuple.  So for a colour
    that has a piece on the board while a colour of the other team is
    frozen, [possible_legal_moves_color] and [is_mate] raise
    AttributeError, at any recursion depth. *)
Theorem is_mate_frozen_enemy (fuel : nat) (b : Board) (c cf : Color) :
  has_piece b c -> In cf (currently_frozen b) -> In cf (enemies c) ->
  possible_legal_moves_color fuel b c = Raise AttributeError
  /\ is_mate fuel b c = Raise AttributeError.
Proof.
  intros P F En. destruct (legal_moves_cases fuel b c) as [[N _] | [_ E]]; [contradiction |].
  specialize (E cf F En). split; [exact E |]. unfold is_mate. rewrite E. reflexivity.
Qed.

Lemma is_mate_frozen_enemy_witness :
  possible_legal_moves_color 4 deadlock white = Raise AttributeError
  /\ is_mate 4 deadlock white = Raise AttributeError.
Proof.
  apply (is_mate_frozen_enemy 4 deadlock white brown).
  - exists (sqr "H03" pawn white), (mkPiece pawn white).
    split; [| split; reflexivity].
    apply (nth_error_In _ 39). reflexivity.
  - right. left. reflexivity.
  - left. reflexivity.
Defined.

Lemma all_keys_In {V : Type} (d : dict V) (c : Color) :
  (exists v, dict_get d c = Some v) -> In c (map fst d).
Proof.
  unfold dict_get. intros [v H].
  destruct (find (fun kv => Color_eqb (fst kv) c) d) as [kv|] eqn:F; [| discriminate H].
  apply find_some in F. destruct F as [I E]. apply Color_eqb_eq in E. subst c.
  now apply in_map.
Qed.

Lemma is_mate_raises (fuel : nat) (b : Board) (e cf : Color) :
  In cf (currently_frozen b) -> In cf (enemies e) ->
  exists x, is_mate fuel b e = Raise x.
Proof.
  intros F En. unfold is_mate.
  destruct (legal_moves_cases fuel b e) as [[_ E] | [_ E]].
  - rewrite E. now exists ValueError.
  - rewrite (E cf F En). now exists AttributeError.
Qed.

Lemma mates_raises (fuel : nat) (cf e : Color) (keys : list Color) :
  forall b, In cf (currently_frozen b) -> In cf (enemies e) -> In e keys ->
            forall r, mates fuel b keys <> Ret r.
Proof.
  induction keys as [|k rest IH]; intros b F En I r H; [contradiction I |].
  cbn [mates] in H. step H. destruct a as [z b1].
  pose proof (is_mate_board _ _ _ _ _ E) as ->.
  destruct I as [-> | I].
  - destruct (is_mate_raises fuel b e cf F En) as [x X]. congruence.
  - step H. destruct a as [more b2]. exact (IH b F En I _ E0).
Qed.

Lemma enemy_exists (cf : Color) : exists e, In cf (enemies e).
Proof. destruct cf; [exists brown | exists white | exists brown | exists white]; vm_compute; tauto. Qed.

Lemma update_frozen_after_freeze (fuel : nat) (b : Board) (cf : Color) :
  all_keys (frozen b) -> In cf (currently_frozen b) ->
  forall b', update_frozen fuel b <> Ret b'.
Proof.
  intros K F b' H. unfold update_frozen in H. step H.
  destruct (enemy_exists cf) as [e En].
  exact (mates_raises fuel cf e _ b F En (all_keys_In _ _ (K e)) _ E).
Qed.

Lemma update_frozen_stuck (fuel : nat) (b b0 : Board) (cf : Color) :
  frozen b0 = frozen b -> all_keys (frozen b) -> In cf (currently_frozen b) ->
  forall b', update_frozen fuel b0 <> Ret b'.
Proof.
  intros E K F. apply (update_frozen_after_freeze fuel b0 cf).
  - now rewrite E.
  - unfold currently_frozen in *. now rewrite E.
Qed.

Ltac layout_shapes :=
  repeat match goal with
         | G : update_square _ _ = Ret _ |- _ =>
             apply update_square_shape in G; destruct G as [? [-> ?]]
         | G : castle_rooks _ _ _ _ _ = Ret _ |- _ =>
             apply castle_rooks_shape in G; destruct G as [? [-> ?]]
         | G : grant _ _ _ _ _ = Ret _ |- _ =>
             apply grant_shape in G; destruct G as [? ->]
         | G : check_checks _ _ = Ret _ |- _ => unfold check_checks in G
         | G : match ?x with _ => _ end = Ret _ |- _ => step G
         | G : bind _ _ = Ret _ |- _ => step G
         | G : Ret _ = Ret _ |- _ => step G
         | G : Raise _ = Ret _ |- _ => discriminate G
         end.

(** X20: once a colour is frozen the game cannot go on.  [update_frozen]
    asks [is_mate] for every colour, and for a colour of the other team
    that call raises (X18, X19); so [update_frozen] and [move] never
    return, and [pop] never returns when there is a move to undo. *)
Theorem frozen_colour_stops_play (fuel : nat) (b : Board) (cf : Color) :
  all_keys (frozen b) -> In cf (currently_frozen b) ->
  (forall b', update_frozen fuel b <> Ret b')
  /\ (forall m b', move fuel b m <> Ret b')
  /\ (move_stack b <> [] -> forall r, pop fuel b <> Ret r).
Proof.
  intros K F. split; [exact (update_frozen_after_freeze fuel b cf K F) |]. split.
  - intros m b' H. unfold move, execute in H. step H. cbv zeta in E.
    repeat step E.
    repeat match goal with
           | G : deref ?x = Ret _ |- _ => destruct x; cbn [deref] in G; [step G | discriminate G]
           end.
    destruct (piece_at _) eqn:P in *; layout_shapes;
      match goal with
      | G : update_frozen _ _ = Ret _ |- _ =>
          refine (update_frozen_stuck _ b _ cf _ K F _ G); reflexivity
      end.
  - intros N [ok b'] H. unfold pop in H.
    destruct (rev (move_stack b)) as [|m r] eqn:R.
    { apply (f_equal (@rev Move)) in R. rewrite rev_involutive in R. now apply N. }
    cbv zeta in H. repeat step H.
    repeat match goal with
           | G : deref ?x = Ret _ |- _ => destruct x; cbn [deref] in G; [step G | discriminate G]
           end.
    destruct (piece_at _) eqn:P in *; layout_shapes;
      match goal with
      | G : update_frozen _ _ = Ret _ |- _ =>
          refine (update_frozen_stuck _ b _ cf _ K F _ G); reflexivity
      end.
Qed.

Lemma frozen_colour_stops_play_witness :
  update_frozen 4 deadlock <> Ret deadlock
  /\ move 4 deadlock pawn_takes_valid <> Ret deadlock
  /\ pop 4 deadlock <> Ret (true, deadlock).
Proof.
  destruct (frozen_colour_stops_play 4 deadlock white) as [H1 [H2 H3]].
  - intros c. exists true. apply deadlock_all_frozen.
  - left. reflexivity.
  - split; [apply H1 |]. split; [apply H2 |]. apply H3. discriminate.
Defined.

(** ** Squares offered and attackers found *)

Lemma list_get_In {A : Type} (l : list A) (i : Z) (a : A) : list_get l i = Ret a -> In a l.
Proof.
  unfold list_get. cbv zeta. intros H.
  destruct (_ <? 0); [discriminate H |].
  destruct (nth_error l _) eqn:N; [| discriminate H].
  injection H as <-. now apply nth_error_In in N.
Qed.

Lemma get_neighbour_In (b : Board) (sq t : Square) (column row : Z) (adjust : bool) :
  get_neighbour b sq column row adjust = Ret (Some t) -> In (Some t) (layout b).
Proof.
  unfold get_neighbour. intros H.
  destruct (match piece_at sq with Some _ => _ | None => _ end) as [c r].
  do 3 step H. step H; [discriminate H |].
  unfold get_square in H. step H. now apply list_get_In in H.
Qed.

Lemma slide_offers (c : Color) (fuel : nat) (b : Board) (sq : Square) (d : Z * Z) :
  forall k r, slide fuel b sq d k (enemies c) = Ret r -> Forall (offer b c) r.
Proof.
  induction fuel as [|fuel IH]; intros k r H; cbn [slide] in H; [discriminate H |].
  step H. destruct a as [t|]; [| step H; constructor].
  apply get_neighbour_In in E. destruct (piece_at t) as [p|] eqn:P.
  - step H. destruct (mem Color_eqb (color p) (enemies c)) eqn:M; constructor; [| constructor].
    exists t. split; [reflexivity |]. split; [exact E |].
    intros q Q. rewrite P in Q. injection Q as <-. now apply mem_Color_In.
  - step H. step H. constructor; [| now apply IH in E0].
    exists t. split; [reflexivity |]. split; [exact E |]. intros q Q. congruence.
Qed.

Lemma steps_offers (c : Color) (b : Board) (sq : Square) (ds : list (Z * Z)) :
  forall r, steps b sq ds (enemies c) = Ret r -> Forall (offer b c) r.
Proof.
  induction ds as [|d rest IH]; intros r H; cbn [steps] in H; [step H; constructor |].
  do 2 step H. specialize (IH _ eq_refl). destruct a as [t|]; [| now step H].
  apply get_neighbour_In in E. destruct (piece_at t) as [p|] eqn:P.
  - step H. destruct (mem Color_eqb (color p) (enemies c)) eqn:M; [| exact IH].
    constructor; [| exact IH]. exists t. split; [reflexivity |]. split; [exact E |].
    intros q Q. rewrite P in Q. injection Q as <-. now apply mem_Color_In.
  - step H. constructor; [| exact IH].
    exists t. split; [reflexivity |]. split; [exact E |]. intros q Q. congruence.
Qed.

Lemma concatM_Forall {A : Type} (P : A -> Prop) (l : list (res (list A))) :
  Forall (fun x => forall r, x = Ret r -> Forall P r) l ->
  forall r, concatM l = Ret r -> Forall P r.
Proof.
  induction 1 as [|x rest Hx Hl IH]; intros r H; cbn [concatM] in H; [step H; constructor |].
  destruct x as [a| |]; cbn [bind] in H; try discriminate H.
  step H. step H. apply Forall_app. split; [now apply Hx | now apply IH].
Qed.

Lemma castling_path_empty (b : Board) (sq : Square) (queenside : Z) (step_list : list Z) :
  castling_path_free b sq queenside step_list = Ret true ->
  forall s, In s step_list ->
            exists t, get_neighbour b sq (if queenside =? 0 then s else - s) 0 true
                      = Ret (Some t)
                      /\ piece_at t = None.
Proof.
  induction step_list as [|s0 rest IH]; intros H s I; [contradiction I |].
  cbn [castling_path_free] in H. step H. step H.
  destruct a as [t|]; cbn [deref] in E0; [| discriminate E0]. step E0.
  destruct (piece_at a0) eqn:P; [discriminate H |].
  destruct I as [<- | I]; [now exists a0 | now apply IH].
Qed.

Lemma castling_offers (c : Color) (b : Board) (sq : Square) (rights : list bool) :
  forall queenside r, 0 <= queenside ->
                      castling_moves b sq queenside rights = Ret r -> Forall (offer b c) r.
Proof.
  induction rights as [|granted rest IH]; intros queenside r Hq H; cbn [castling_moves] in H;
    [step H; constructor |].
  do 2 step H. step H. apply Forall_app. split; [| apply (IH (queenside + 1)); [lia | exact E0]].
  destruct granted; cbn [negb] in E; [| step E; constructor].
  step E. destruct a1; [| step E; constructor].
  step E. step E. constructor; [| constructor].
  destruct (castling_path_empty _ _ _ _ E1 2) as [t [G P]].
  { apply In_py_range_up; lia. }
  assert (E' : a1 = Some t).
  { destruct (queenside =? 0); change (- (2)) with (-2) in G; congruence. }
  subst a1. exists t. split; [reflexivity |]. split; [now apply get_neighbour_In in G |].
  intros q Q. congruence.
Qed.

Lemma slides_offers (c : Color) (fuel : nat) (b : Board) (sq : Square) (ds : list (Z * Z))
      (r : list (option Square)) :
  concatM (map (fun d => slide fuel b sq d 1 (enemies c)) ds) = Ret r -> Forall (offer b c) r.
Proof.
  apply concatM_Forall, Forall_forall. intros x I s ->.
  apply in_map_iff in I. destruct I as [d [D _]]. now apply slide_offers in D.
Qed.

Lemma check_enemy_offer (b : Board) (c : Color) (sq : Square) (o : option Square)
      (column row : Z) (adjust : bool) :
  get_neighbour b sq column row adjust = Ret o ->
  Forall (offer b c) (if check_enemy o (enemies c) then [o] else []).
Proof.
  intros G. destruct o as [t|]; cbn [check_enemy]; [| constructor].
  destruct (piece_at t) as [q|] eqn:Q; [| constructor].
  destruct (mem Color_eqb (color q) (enemies c)) eqn:M; constructor; [| constructor].
  exists t. split; [reflexivity |]. split; [now apply get_neighbour_In in G |].
  intros q' Q'. rewrite Q in Q'. injection Q' as <-. now apply mem_Color_In.
Qed.

Lemma empty_offer (b : Board) (c : Color) (sq t : Square) (column row : Z) (adjust : bool) :
  get_neighbour b sq column row adjust = Ret (Some t) -> piece_at t = None ->
  offer b c (Some t).
Proof.
  intros G P. exists t. split; [reflexivity |]. split; [now apply get_neighbour_In in G |].
  intros q Q. congruence.
Qed.

Ltac ray_or_jump H :=
  repeat step H;
  repeat match goal with G : Ret _ = Ret _ |- _ => step G end;
  cbn [app]; rewrite ?app_nil_r;
  match goal with
  | G : concatM _ = Ret _ |- _ => now apply slides_offers in G
  | G : steps _ _ _ _ = Ret _ |- _ => now apply steps_offers in G
  end.

Lemma possible_moves_Forall (fuel : nat) (b : Board) (sq : Square) (p : Piece)
      (pm : list (option Square)) :
  possible_moves fuel b sq = Ret pm -> piece_at sq = Some p ->
  Forall (offer b (color p)) pm.
Proof.
  unfold possible_moves. intros H P. rewrite P in H. cbn [deref bind] in H.
  fold (enemies (color p)) in H.
  assert (T : get_teams (color p) true = (fst (get_teams (color p) true), enemies (color p)))
    by (unfold enemies; now destruct (get_teams (color p) true)).
  rewrite T in H. clear T.
  destruct (existsb _ (currently_frozen b)); [discriminate H |].
  destruct (type p) eqn:Ty; cbn [mem existsb PieceType_eqb orb] in H.
  - (* king *)
    do 3 step H. step H. apply Forall_app. split; [now apply steps_offers in E |].
    destruct (existsb (fun r => r) a0); [| step E1; constructor].
    now apply (castling_offers (color p)) in E1.
  - (* queen *)
    repeat step H. repeat (apply Forall_app; split);
      [now apply slides_offers in E | now apply slides_offers in E0
       | now apply steps_offers in E1].
  - (* rook *) ray_or_jump H.
  - (* bishop *) ray_or_jump H.
  - (* knight *) ray_or_jump H.
  - (* pawn *)
    step H. destruct a as [t|]; [| step H; constructor].
    do 3 step H. step H.
    apply Forall_app. split; [| apply Forall_app; split; eapply check_enemy_offer; eassumption].
    destruct (piece_at t) eqn:Pt; [step E0; constructor |].
    step E0. pose proof (empty_offer b (color p) _ _ _ _ _ E Pt) as O1.
    destruct (mem String.eqb (position sq) _); [| step E0; repeat constructor; exact O1].
    step E0.
    match goal with
    | G : get_neighbour b sq 0 2 true = Ret ?x |- _ => destruct x as [t2|]
    end; [| step E0; repeat constructor; exact O1].
    destruct (piece_at t2) eqn:Pt2; step E0; repeat constructor; try exact O1.
    match goal with
    | G : get_neighbour b sq 0 2 true = Ret _ |- _ =>
        exact (empty_offer b (color p) _ _ _ _ _ G Pt2)
    end.
Qed.

Lemma not_own_enemy (c : Color) : ~ In c (enemies c).
Proof. destruct c; vm_compute; intuition discriminate. Qed.

(** X21: every entry of the list [possible_moves] returns is a square of
    the board's layout (never None) that is empty or holds a piece of
    the other team: a piece is never offered a square held by its own
    colour or by its teammate. *)
Theorem possible_moves_offers (fuel : nat) (b : Board) (sq : Square) (p : Piece)
        (pm : list (option Square)) :
  possible_moves fuel b sq = Ret pm -> piece_at sq = Some p ->
  forall o, In o pm ->
            exists t, o = Some t /\ In (Some t) (layout b)
                      /\ forall q, piece_at t = Some q ->
                                   In (color q) (enemies (color p))
                                   /\ ~ In (color q) (fst (get_teams (color p) true)).
Proof.
  intros H P o I. pose proof (possible_moves_Forall _ _ _ _ _ H P) as F.
  rewrite Forall_forall in F. destruct (F o I) as [t [-> [L Q]]].
  exists t. split; [reflexivity |]. split; [exact L |]. intros q Hq. specialize (Q q Hq).
  split; [exact Q |]. revert Q. unfold enemies.
  destruct (color p), (color q); vm_compute; intuition discriminate.
Qed.

Lemma possible_moves_offers_witness :
  exists t, Some (sqr "M10" pawn brown) = Some t /\ In (Some t) (layout midgame)
            /\ forall q, piece_at t = Some q ->
                         In (color q) (enemies (color (mkPiece queen white)))
                         /\ ~ In (color q) (fst (get_teams (color (mkPiece queen white)) true)).
Proof.
  apply (possible_moves_offers 4 midgame (sqr "I14" queen white) (mkPiece queen white)
           [Some (mkSquare "J13" None); Some (mkSquare "K12" None); Some (mkSquare "L11" None);
            Some (sqr "M10" pawn brown); Some (mkSquare "H12" None)]).
  - vm_compute. reflexivity.
  - reflexivity.
  - do 3 right. left. reflexivity.
Defined.

(** ** Check *)

Lemma not_mem_Color (c : Color) (l : list Color) : negb (mem Color_eqb c l) = true -> ~ In c l.
Proof.
  intros H I. apply mem_Color_In in I. rewrite I in H. discriminate H.
Qed.

Lemma attack_scan_attacker (c : Color) (fuel : nat) (b : Board) (sq : Square) (d : Z * Z)
      (by_types : list PieceType) :
  forall k, attack_scan fuel b sq d k by_types (enemies c) (currently_frozen b) = Ret true ->
            exists t, attacker b c t.
Proof.
  induction fuel as [|fuel IH]; intros k H; cbn [attack_scan] in H; [discriminate H |].
  step H. destruct a as [t|]; [| discriminate H].
  destruct (piece_at t) as [q|] eqn:Q; [| now apply IH in H].
  step H. apply andb_true_iff in H1. destruct H1 as [H1 H3].
  apply andb_true_iff in H1. destruct H1 as [H1 H2].
  exists t. split; [now apply get_neighbour_In in E |]. exists q.
  split; [exact Q |]. split; [now apply mem_Color_In | now apply not_mem_Color].
Qed.

Lemma knight_scan_attacker (c : Color) (b : Board) (sq : Square) (jumps : list (Z * Z)) :
  knight_scan b sq jumps (enemies c) (currently_frozen b) = Ret true ->
  exists t, attacker b c t.
Proof.
  induction jumps as [|d rest IH]; intros H; cbn [knight_scan] in H; [discriminate H |].
  step H. destruct a as [t|]; [| now apply IH].
  destruct (piece_at t) as [q|] eqn:Q; [| now apply IH].
  destruct (_ && _) eqn:C in H; [| now apply IH].
  apply andb_true_iff in C. destruct C as [C H3].
  apply andb_true_iff in C. destruct C as [H1 H2].
  exists t. split; [now apply get_neighbour_In in E |]. exists q.
  split; [exact Q |]. split; [now apply mem_Color_In | now apply not_mem_Color].
Qed.

Lemma pawn_attacker_enemy (king_color a : Color) (corner : Z) :
  In corner [0; 1; 2; 3] ->
  list_get COLORS
           (let index := COLORS_index king_color - 1 in
            if mem Color_eqb king_color (nth 1 TEAMS []) then
              if Z.land corner 1 =? (if Color_eqb king_color brown then 1 else 0)
              then index - 2 else index
            else
              (if Color_eqb king_color grey then index - 2 else index)
              + (corner - Z.land corner 1)) = Ret a ->
  In a (enemies king_color).
Proof.
  intros I H.
  destruct king_color; repeat (destruct I as [<- | I]; [| try contradiction I]);
    vm_compute in H; injection H as <-; vm_compute; tauto.
Qed.

Lemma pawn_scan_attacker (b : Board) (sq : Square) (king_color : Color) (corners : list Z) :
  incl corners [0; 1; 2; 3] ->
  pawn_scan b sq king_color corners (currently_frozen b) = Ret true ->
  exists t, attacker b king_color t.
Proof.
  induction corners as [|corner rest IH]; intros I H; cbn [pawn_scan] in H; [discriminate H |].
  assert (I0 : In corner [0; 1; 2; 3]) by (apply I; now left).
  assert (I1 : incl rest [0; 1; 2; 3]) by (intros x X; apply I; now right).
  step H. destruct a as [t|]; [| now apply IH].
  destruct (piece_at t) as [q|] eqn:Q; [| now apply IH].
  destruct (negb (PieceType_eqb (type q) pawn)); [now apply IH |].
  cbv zeta in H. step H.
  destruct (_ && _) eqn:C in H; [| now apply IH].
  apply andb_true_iff in C. destruct C as [C1 C2]. apply Color_eqb_eq in C1.
  exists t. split; [now apply get_neighbour_In in E |]. exists q.
  split; [exact Q |]. split; [| now apply not_mem_Color].
  rewrite C1. exact (pawn_attacker_enemy _ _ _ I0 E0).
Qed.

Lemma check_rays_attacker (c : Color) (fuel : nat) (b : Board) (sq : Square) (a : list nat) :
  check_rays fuel b sq a (enemies c) (currently_frozen b) = Ret true ->
  exists t, attacker b c t.
Proof.
  induction a as [|i rest IH]; intros H; cbn [check_rays] in H; [discriminate H |].
  step H. destruct a; [now apply attack_scan_attacker in E |].
  step H. destruct a; [now apply attack_scan_attacker in E0 |].
  step H. destruct a; [now apply knight_scan_attacker in E1 |].
  now apply IH.
Qed.

(** X22: when [check_check] answers True, the square holds a king, and
    some square of the layout holds a piece of the other team whose
    colour is not frozen.  A frozen colour, the king's own colour and
    its teammate never give check. *)
Theorem check_check_attacker (fuel : nat) (b : Board) (o : option Square) :
  check_check fuel b o = Ret true ->
  exists sq k t q,
    o = Some sq /\ piece_at sq = Some k /\ type k = king
    /\ In (Some t) (layout b) /\ piece_at t = Some q
    /\ In (color q) (enemies (color k))
    /\ ~ In (color q) (currently_frozen b).
Proof.
  unfold check_check. intros H. destruct o as [sq|]; [| discriminate H].
  destruct (piece_at sq) as [k|] eqn:K; [| discriminate H].
  destruct (type k) eqn:Ty; cbn [PieceType_eqb negb] in H; try discriminate H.
  fold (enemies (color k)) in H.
  assert (T : get_teams (color k) true = (fst (get_teams (color k) true), enemies (color k)))
    by (unfold enemies; now destruct (get_teams (color k) true)).
  rewrite T in H. clear T. cbv zeta in H.
  assert (A : exists t, attacker b (color k) t).
  { step H. destruct a; [now apply check_rays_attacker in E |].
    apply pawn_scan_attacker in H; [exact H | apply incl_refl]. }
  destruct A as [t [L [q [Q [I N]]]]]. exists sq, k, t, q. repeat split; assumption.
Qed.

Lemma check_check_attacker_witness :
  exists sq k t q,
    Some (sqr "N09" king brown) = Some sq /\ piece_at sq = Some k /\ type k = king
    /\ In (Some t) (layout after_queen_takes) /\ piece_at t = Some q
    /\ In (color q) (enemies (color k))
    /\ ~ In (color q) (currently_frozen after_queen_takes).
Proof.
  apply (check_check_attacker 20 after_queen_takes (Some (sqr "N09" king brown))).
  vm_compute. reflexivity.
Defined.

(** ** Accepted moves *)

Lemma Square_eqb_eq (x y : Square) : Square_eqb x y = true -> x = y.
Proof.
  destruct x as [px ax], y as [py ay]. unfold Square_eqb. cbn [position piece_at].
  intros H. apply andb_true_iff in H. destruct H as [H1 H2].
  apply String.eqb_eq in H1. apply opt_Piece_eqb_eq in H2. now subst.
Qed.

Lemma mem_Square_In (o : option Square) (l : list (option Square)) :
  mem (opt_eqb Square_eqb) o l = true -> In o l.
Proof.
  unfold mem. rewrite existsb_exists. intros [x [I E]].
  destruct o as [s|], x as [t|]; try discriminate E; [| exact I].
  cbn [opt_eqb] in E. apply Square_eqb_eq in E. now subst.
Qed.

Lemma not_team_enemy (c d : Color) :
  mem Color_eqb d (fst (get_teams c true)) = false -> In d (enemies c).
Proof. destruct c, d; vm_compute; intros H; try discriminate H; tauto. Qed.

Lemma check_loop_valid (fuel : nat) (mover : Piece) (team : list Color) (ic : bool)
      (positions : list string) :
  forall b m cks m' b',
    check_loop fuel b m mover team ic positions = Ret (Valid cks, m', b') ->
    cks = checks m'
    /\ (positions = [] /\ m' = m
        \/ exists d,
            checks m' = Some d
            /\ (ic = false ->
                dict_get_default d (color mover) true = false
                /\ forall c, other_of team (color mover) = Ret c ->
                             dict_get_default d c true = true ->
                             dict_get_default (checked b) c false = true)).
Proof.
  induction positions as [|pos rest IH]; intros b m cks m' b' H; cbn [check_loop] in H.
  - step H. split; [reflexivity |]. left. split; reflexivity.
  - do 4 step H. apply scratch_layout in E1. destruct E1 as [l ->].
    cbv zeta in H.
    destruct (negb ic && dict_get_default a2 (color mover) true) eqn:C1; [step H |].
    destruct (other_of team (color mover)) as [mate| |] eqn:O; cbn [bind] in H;
      try discriminate H.
    destruct (negb ic && dict_get_default a2 mate true
              && negb (dict_get_default (checked (set_layout (set_layout b l) (layout b)))
                                        mate false)) eqn:C2; [step H |].
    apply IH in H. destruct H as [H1 H2]. split; [exact H1 |]. right.
    destruct H2 as [[-> ->] | [d [D Hd]]].
    + exists a2. split; [reflexivity |]. intros ->. cbn [negb andb] in C1, C2.
      split; [exact C1 |]. intros c Hc Hk. injection Hc as <-.
      rewrite Hk in C2. cbn [andb] in C2. cbn [checked set_layout] in C2.
      now destruct (dict_get_default (checked b) mate false).
    + exists d. split; [exact D |]. exact Hd.
Qed.

(** X23: what [is_valid] has tested when it accepts a move.  The
    destination exists; the source holds a piece, of the side to move
    unless [ignore_turn]; a piece on the destination is of the other
    team and not frozen; no fortress wall is in the way; a promotion is
    asked for a pawn reaching its promotion rank only; [possible_moves]
    offers the destination; and the verdict carries the check map that
    is written into the move.  Unless [ignore_check], that map says the
    mover is not in check, and the teammate only if it already was. *)
Theorem is_valid_accepts (fuel : nat) (b b' : Board) (m m' : Move) (it ic : bool)
        (cks : option (dict bool)) :
  is_valid fuel b m it ic = Ret (Valid cks, m', b') ->
  exists ts p pm d,
    to_square m = Some ts /\ piece_at (from_square m) = Some p
    /\ (it = false -> color p = turn b)
    /\ (forall q, piece_at ts = Some q ->
                  In (color q) (enemies (color p)) /\ ~ In (color q) (currently_frozen b))
    /\ walls_in_the_way fuel (from_square m) ts = Ret false
    /\ (forall x, promotion m = Some x ->
                  type p = pawn
                  /\ exists rank, get_pawn_promotion_rank fuel (color p) = Ret rank
                                  /\ In (position ts) rank)
    /\ possible_moves fuel b (from_square m) = Ret pm /\ In (Some ts) pm
    /\ cks = Some d /\ checks m' = Some d
    /\ (ic = false ->
        dict_get_default d (color p) true = false
        /\ forall mate, get_teammate (color p) = Ret mate ->
                        dict_get_default d mate true = true ->
                        dict_get_default (checked b) mate false = true).
Proof.
  unfold is_valid. intros H.
  destruct (to_square m) as [ts|] eqn:Ts; [| discriminate H].
  cbv zeta in H.
  destruct (piece_at (from_square m)) as [p|] eqn:P; [| discriminate H].
  assert (T : get_teams (color p) true = (fst (get_teams (color p) true), enemies (color p)))
    by (unfold enemies; now destruct (get_teams (color p) true)).
  rewrite T in H. clear T.
  repeat step H.
  apply check_loop_valid in H. destruct H as [H1 [[N _] | [d [D Hd]]]];
    [now destruct a5 |].
  exists ts, p, a1, d.
  split; [reflexivity |]. split; [reflexivity |].
  split.
  { intros ->. cbn [negb andb] in E. destruct (Color_eqb (color p) (turn b)) eqn:C;
      [now apply Color_eqb_eq | discriminate E]. }
  split.
  { intros q Q. rewrite Q in *.
    split; [now apply not_team_enemy | apply not_mem_Color; now rewrite E6]. }
  split; [try reflexivity; exact E2 |].
  split.
  { intros x X. rewrite X in E4.
    destruct (PieceType_eqb (type p) pawn) eqn:Ty; cbn [negb] in E4; [| discriminate E4].
    split; [now destruct (type p) |].
    destruct (get_pawn_promotion_rank fuel (color p)) as [rank| |]; cbn [bind] in E4;
      try discriminate E4.
    exists rank. split; [reflexivity |].
    destruct (mem String.eqb (position ts) rank) eqn:M; [| discriminate E4].
    now apply mem_In_string. }
  split; [reflexivity |].
  split.
  { apply mem_Square_In. now destruct (mem (opt_eqb Square_eqb) (Some ts) a1). }
  split; [congruence |]. split; [exact D |].
  intros I. destruct (Hd I) as [Hm Ht]. split; [exact Hm |].
  intros mate G. apply Ht. revert G. destruct (color p); vm_compute; congruence.
Qed.

Lemma is_valid_accepts_witness :
  exists ts p pm d,
    to_square queen_takes = Some ts /\ piece_at (from_square queen_takes) = Some p
    /\ (false = false -> color p = turn midgame)
    /\ (forall q, piece_at ts = Some q ->
                  In (color q) (enemies (color p))
                  /\ ~ In (color q) (currently_frozen midgame))
    /\ walls_in_the_way 20 (from_square queen_takes) ts = Ret false
    /\ (forall x, promotion queen_takes = Some x ->
                  type p = pawn
                  /\ exists rank, get_pawn_promotion_rank 20 (color p) = Ret rank
                                  /\ In (position ts) rank)
    /\ possible_moves 20 midgame (from_square queen_takes) = Ret pm /\ In (Some ts) pm
    /\ checks queen_takes_valid = Some d /\ checks queen_takes_valid = Some d
    /\ (false = false ->
        dict_get_default d (color p) true = false
        /\ forall mate, get_teammate (color p) = Ret mate ->
                        dict_get_default d mate true = true ->
                        dict_get_default (checked midgame) mate false = true).
Proof.
  exact (is_valid_accepts 20 midgame midgame queen_takes queen_takes_valid false false
                          (checks queen_takes_valid) queen_takes_is_valid).
Defined.

Lemma check_loop_ignoring_more (fuel : nat) (mover : Piece) (team : list Color)
      (ic ic' : bool) (positions : list string) :
  (ic = true -> ic' = true) ->
  forall b m cks m' b',
    check_loop fuel b m mover team ic positions = Ret (Valid cks, m', b') ->
    check_loop fuel b m mover team ic' positions = Ret (Valid cks, m', b').
Proof.
  intros I. induction positions as [|pos rest IH]; intros b m cks m' b' H;
    cbn [check_loop] in *; [exact H |].
  destruct (get_square b pos) as [sq| |]; cbn [bind] in *; try discriminate H.
  destruct (deref sq) as [s| |]; cbn [bind] in *; try discriminate H.
  destruct (scratch b m pos) as [b2| |]; cbn [bind] in *; try discriminate H.
  destruct (check_map fuel b2 _) as [d| |]; cbn [bind] in *; try discriminate H.
  cbv zeta in *.
  destruct (negb ic && dict_get_default d (color mover) true) eqn:C1; [discriminate H |].
  destruct (other_of team (color mover)) as [mate| |]; cbn [bind] in *; try discriminate H.
  destruct (negb ic && dict_get_default d mate true
            && negb (dict_get_default (checked (set_layout b2 (layout b))) mate false))
           eqn:C2; [discriminate H |].
  apply IH in H.
  destruct ic.
  - rewrite (I eq_refl) in *. cbn [negb andb]. exact H.
  - cbn [negb andb] in C1, C2.
    rewrite C1, andb_false_r, <- andb_assoc, C2, andb_false_r. exact H.
Qed.

(** X24: the two flags of [is_valid] only switch tests off.  A move
    accepted with some flags is accepted, with the same check map and
    the same fields written into the move, when [ignore_turn] or
    [ignore_check] is set in addition: what [is_valid] accepts for the
    side to move is among the moves [possible_legal_moves_color] asks
    about with both flags set. *)
Theorem is_valid_ignoring_more (fuel : nat) (b b' : Board) (m m' : Move)
        (it ic it' ic' : bool) (cks : option (dict bool)) :
  (it = true -> it' = true) -> (ic = true -> ic' = true) ->
  is_valid fuel b m it ic = Ret (Valid cks, m', b') ->
  is_valid fuel b m it' ic' = Ret (Valid cks, m', b').
Proof.
  intros It Ic. unfold is_valid.
  destruct (to_square m) as [ts|]; [| discriminate].
  cbv zeta.
  destruct (piece_at (from_square m)) as [p|]; [| discriminate].
  destruct (negb it && negb (Color_eqb (color p) (turn b))) eqn:C; [discriminate |].
  replace (negb it' && negb (Color_eqb (color p) (turn b))) with false.
  2:{ destruct it; [rewrite (It eq_refl); reflexivity |].
      cbn [negb andb] in C. rewrite C. now rewrite andb_false_r. }
  destruct (Square_eqb (from_square m) ts); [discriminate |].
  destruct (get_teams (color p) true) as [team enemy_team].
  destruct (match piece_at ts with Some q => mem Color_eqb (color q) team | None => false end);
    [discriminate |].
  destruct (walls_in_the_way fuel (from_square m) ts) as [[]| |]; cbn [bind]; try discriminate.
  destruct (match promotion m with Some _ => _ | None => _ end) as [[msg|]| |];
    cbn [bind]; try discriminate.
  destruct (match piece_at ts with
            | Some q => mem Color_eqb (color q) (currently_frozen b)
            | None => false
            end); [discriminate |].
  destruct (possible_moves fuel b (from_square m)) as [pm| |]; cbn [bind]; try discriminate.
  destruct (negb (mem (opt_eqb Square_eqb) (Some ts) pm)); [discriminate |].
  destruct (pos_rot90 fuel "C8" (COLORS_rev_index (color p))) as [home| |]; cbn [bind];
    try discriminate.
  destruct (Square_new home _) as [home_sq| |]; cbn [bind]; try discriminate.
  destruct (if Square_eqb (from_square m) home_sq then _ else _) as [flag| |]; cbn [bind];
    try discriminate.
  destruct (match flag with Some _ => _ | None => Ret [] end) as [transit| |]; cbn [bind];
    try discriminate.
  now apply check_loop_ignoring_more.
Qed.

Lemma is_valid_ignoring_more_witness :
  is_valid 20 midgame queen_takes true true
  = Ret (Valid (checks queen_takes_valid), queen_takes_valid, midgame).
Proof.
  apply (is_valid_ignoring_more 20 midgame midgame queen_takes queen_takes_valid
                                false false true true);
    [discriminate | discriminate | exact queen_takes_is_valid].
Defined.

(** ** Kings *)

Lemma kings_of_color (b : Board) (col : Color) (s : Square) :
  In s (flat_map (fun o => match o with
                           | Some sq =>
                               if opt_eqb Piece_eqb (piece_at sq) (Some (mkPiece king col))
                               then [sq] else []
                           | None => []
                           end) (layout b))
  <-> In (Some s) (layout b) /\ piece_at s = Some (mkPiece king col).
Proof.
  rewrite in_flat_map. split.
  - intros [[sq|] [I H]]; [| contradiction H].
    destruct (opt_eqb Piece_eqb (piece_at sq) _) eqn:E; [| contradiction H].
    destruct H as [<- | []]. split; [exact I | now apply opt_Piece_eqb_eq].
  - intros [I P]. exists (Some s). split; [exact I |]. rewrite P.
    cbn [opt_eqb Piece_eqb type color PieceType_eqb andb]. rewrite Color_eqb_refl. now left.
Qed.

Lemma kings_mapM (b : Board) (cols : list Color) :
  match mapM (fun col =>
                list_get (flat_map (fun o => match o with
                                             | Some sq =>
                                                 if opt_eqb Piece_eqb (piece_at sq)
                                                            (Some (mkPiece king col))
                                                 then [sq] else []
                                             | None => []
                                             end) (layout b)) 0) cols with
  | Ret ks => map piece_at ks = map (fun c => Some (mkPiece king c)) cols
              /\ Forall (fun s => In (Some s) (layout b)) ks
  | Raise e => e = IndexError /\ exists c, In c cols /\ no_king b c
  | OutOfFuel => False
  end.
Proof.
  induction cols as [|col rest IH]; cbn [mapM]; [split; [reflexivity | constructor] |].
  pose proof (kings_of_color b col) as K.
  destruct (flat_map _ (layout b)) as [|s l] eqn:L; cbn [list_get nth_error Z.ltb Z.compare Z.to_nat bind].
  - split; [reflexivity |]. exists col. split; [now left |].
    intros s I P. now apply (K s).
  - destruct (K s) as [[I P] _]; [now left |].
    destruct (mapM _ rest) as [ks| e |]; cbn [bind].
    + destruct IH as [M F]. split; [cbn [map]; now rewrite P, M | now constructor].
    + destruct IH as [-> [c [Ic N]]]. split; [reflexivity |]. exists c. split; [now right | exact N].
    + exact IH.
Qed.

(** X25: [get_kings] returns, in the order of [COLORS], one square of the
    layout holding the king of each colour that is not ignored.  When
    the king of such a colour is not on the board, the [[0]] of the
    one-liner raises IndexError. *)
Theorem get_kings_result (b : Board) (ignore : option Color) :
  match get_kings b ignore with
  | Ret ks => map piece_at ks = map (fun c => Some (mkPiece king c)) (wanted ignore)
              /\ Forall (fun s => In (Some s) (layout b)) ks
  | Raise e => e = IndexError /\ exists c, In c (wanted ignore) /\ no_king b c
  | OutOfFuel => False
  end.
Proof. exact (kings_mapM b (wanted ignore)). Qed.

(** ** The board after an exception *)

Lemma check_loop_run_forget (fuel : nat) (mover : Piece) (team : list Color) (ic : bool)
      (positions : list string) :
  forall m b,
    forget (check_loop_run fuel m mover team ic positions b)
    = check_loop fuel b m mover team ic positions.
Proof.
  induction positions as [|pos rest IH]; intros m b; [reflexivity |].
  cbn [check_loop_run check_loop]. unfold bind_run, read, write, ret_run, scratch.
  destruct (get_square b pos) as [o| |]; cbn [bind forget]; try reflexivity.
  destruct (deref o) as [sq| |]; cbn [bind forget]; try reflexivity.
  destruct (Square_new (position (from_square m)) None) as [e1| |]; cbn [bind forget];
    try reflexivity.
  destruct (update_square b e1) as [b1| |]; cbn [bind forget]; try reflexivity.
  destruct (Square_new pos _) as [e2| |]; cbn [bind forget]; try reflexivity.
  destruct (update_square b1 e2) as [b2| |]; cbn [bind forget]; try reflexivity.
  destruct (check_map fuel b2 _) as [cks| |]; cbn [bind forget]; try reflexivity.
  destruct (negb ic && dict_get_default cks (color mover) true); [reflexivity |].
  destruct (other_of team (color mover)) as [c| |]; cbn [bind forget]; try reflexivity.
  destruct (negb ic && dict_get_default cks c true && _); [reflexivity |].
  apply IH.
Qed.

Lemma is_valid_run_forget (fuel : nat) (b : Board) (m : Move) (it ic : bool) :
  forget (is_valid_run fuel m it ic b) = is_valid fuel b m it ic.
Proof.
  unfold is_valid_run, is_valid.
  destruct (to_square m) as [ts|]; [| reflexivity].
  cbv zeta.
  destruct (piece_at (from_square m)) as [p|]; [| reflexivity].
  unfold bind_run, read, ret_run.
  destruct (negb it && negb (Color_eqb (color p) (turn b))); [reflexivity |].
  destruct (Square_eqb (from_square m) ts); [reflexivity |].
  destruct (get_teams (color p) true) as [team enemy_team].
  destruct (match piece_at ts with Some q => mem Color_eqb (color q) team | None => false end);
    [reflexivity |].
  destruct (walls_in_the_way fuel (from_square m) ts) as [[]| |]; cbn [bind forget];
    try reflexivity.
  destruct (match promotion m with Some _ => _ | None => _ end) as [[msg|]| |];
    cbn [bind forget]; try reflexivity.
  destruct (match piece_at ts with
            | Some q => mem Color_eqb (color q) (currently_frozen b)
            | None => false
            end); [reflexivity |].
  destruct (possible_moves fuel b (from_square m)) as [pm| |]; cbn [bind forget];
    try reflexivity.
  destruct (negb (mem (opt_eqb Square_eqb) (Some ts) pm)); [reflexivity |].
  destruct (pos_rot90 fuel "C8" (COLORS_rev_index (color p))) as [home| |]; cbn [bind forget];
    try reflexivity.
  destruct (Square_new home _) as [home_sq| |]; cbn [bind forget]; try reflexivity.
  destruct (if Square_eqb (from_square m) home_sq then _ else _) as [flag| |];
    cbn [bind forget]; try reflexivity.
  destruct (match flag with Some _ => _ | None => Ret [] end) as [transit| |];
    cbn [bind forget]; try reflexivity.
  apply check_loop_run_forget.
Qed.

(** Whenever [is_valid] returns, the board it leaves is the board it was
    given. *)
Lemma is_valid_run_returns (fuel : nat) (b b' : Board) (m m' : Move) (it ic : bool)
      (v : verdict) :
  is_valid_run fuel m it ic b = Returned (v, m') b' -> b' = b.
Proof.
  intros H. pose proof (is_valid_run_forget fuel b m it ic) as F. rewrite H in F.
  cbn [forget] in F. symmetry in F. now apply is_valid_board in F.
Qed.

(** C5: a failing input.  On a board without the brown king white's pawn
    step F13-F12 passes every test before the simulation; [is_valid]
    empties F13, puts the pawn on F12, and [get_kings] raises IndexError
    before [self.layout = tmp] is reached: the call leaves the
    simulated layout on the board. *)
Theorem is_valid_raise_unrestored :
  is_valid 20 kingless pawn_step false false = Raise IndexError
  /\ exists left,
      is_valid_run 20 pawn_step false false kingless = Raised IndexError left
      /\ get_square kingless "F13" = Ret (Some (sqr "F13" pawn white))
      /\ get_square kingless "F12" = Ret (Some (mkSquare "F12" None))
      /\ get_square left "F13" = Ret (Some (mkSquare "F13" None))
      /\ get_square left "F12" = Ret (Some (sqr "F12" pawn white))
      /\ layout left <> layout kingless.
Proof.
  split; [vm_compute; reflexivity |].
  eexists. split; [vm_compute; reflexivity |].
  repeat (split; [vm_compute; reflexivity |]).
  intros H. apply (f_equal (fun l => nth_error l 197)) in H. vm_compute in H. discriminate H.
Qed.

Lemma check_loop_run_raised (fuel : nat) (mover : Piece) (team : list Color) (ic : bool)
      (positions : list string) :
  forall m b e b',
    check_loop_run fuel m mover team ic positions b = Raised e b' ->
    exists l, b' = set_layout b l.
Proof.
  assert (Same : forall b : Board, b = set_layout b (layout b)) by (now intros []).
  induction positions as [|pos rest IH]; intros m b e b' H; [discriminate H |].
  cbn [check_loop_run] in H. unfold bind_run, read, write, ret_run in H.
  destruct (get_square b pos) as [o| |]; cbn [bind] in H;
    [| injection H as _ <-; eauto | discriminate H].
  destruct (deref o) as [sq| |]; [| injection H as _ <-; eauto | discriminate H].
  destruct (Square_new (position (from_square m)) None) as [e1| |];
    [| injection H as _ <-; eauto | discriminate H].
  destruct (update_square b e1) as [b1| |] eqn:U1;
    [| injection H as _ <-; eauto | discriminate H].
  apply update_square_layout in U1. destruct U1 as [l1 ->].
  destruct (Square_new pos _) as [e2| |]; [| injection H as _ <-; eauto | discriminate H].
  destruct (update_square (set_layout b l1) e2) as [b2| |] eqn:U2;
    [| injection H as _ <-; eauto | discriminate H].
  apply update_square_layout in U2. destruct U2 as [l2 ->].
  destruct (check_map fuel _ _) as [cks| |];
    [| injection H as _ <-; now exists l2 | discriminate H].
  destruct (negb ic && dict_get_default cks (color mover) true); [discriminate H |].
  destruct (other_of team (color mover)) as [c| |];
    [| injection H as _ <-; now exists (layout b) | discriminate H].
  destruct (negb ic && dict_get_default cks c true && _); [discriminate H |].
  apply IH in H. destruct H as [l ->]. now exists l.
Qed.

(** When [is_valid] raises, the layout is the only field that can differ
    from what it was. *)
Lemma is_valid_run_raised (fuel : nat) (b b' : Board) (m : Move) (it ic : bool) (e : exn) :
  is_valid_run fuel m it ic b = Raised e b' -> exists l, b' = set_layout b l.
Proof.
  assert (Same : forall b : Board, b = set_layout b (layout b)) by (now intros []).
  unfold is_valid_run. intros H.
  destruct (to_square m) as [ts|]; [| discriminate H].
  cbv zeta in H.
  destruct (piece_at (from_square m)) as [p|]; [| discriminate H].
  unfold bind_run, read, ret_run in H.
  destruct (negb it && negb (Color_eqb (color p) (turn b))); [discriminate H |].
  destruct (Square_eqb (from_square m) ts); [discriminate H |].
  destruct (get_teams (color p) true) as [team enemy_team].
  destruct (match piece_at ts with Some q => mem Color_eqb (color q) team | None => false end);
    [discriminate H |].
  destruct (walls_in_the_way fuel (from_square m) ts) as [[]| |];
    [discriminate H | | injection H as _ <-; eauto | discriminate H].
  destruct (match promotion m with Some _ => _ | None => _ end) as [[msg|]| |];
    [discriminate H | | injection H as _ <-; eauto | discriminate H].
  destruct (match piece_at ts with
            | Some q => mem Color_eqb (color q) (currently_frozen b)
            | None => false
            end); [discriminate H |].
  destruct (possible_moves fuel b (from_square m)) as [pm| |];
    [| injection H as _ <-; eauto | discriminate H].
  destruct (negb (mem (opt_eqb Square_eqb) (Some ts) pm)); [discriminate H |].
  destruct (pos_rot90 fuel "C8" (COLORS_rev_index (color p))) as [home| |];
    [| injection H as _ <-; eauto | discriminate H].
  destruct (Square_new home _) as [home_sq| |];
    [| injection H as _ <-; eauto | discriminate H].
  destruct (if Square_eqb (from_square m) home_sq then _ else _) as [flag| |];
    [| injection H as _ <-; eauto | discriminate H].
  destruct (match flag with Some _ => _ | None => Ret [] end) as [transit| |];
    [| injection H as _ <-; eauto | discriminate H].
  now apply check_loop_run_raised in H.
Qed.

(** ** Castling in the simulation *)

Lemma update_square_slot (b b' : Board) (sq : Square) :
  update_square b sq = Ret b' ->
  exists i n,
    pos_stoi (position sq) = Ret i
    /\ slot (List.length (layout b)) i = Some n
    /\ nth_error (layout b') n = Some (Some sq)
    /\ (forall k, k <> n -> nth_error (layout b') k = nth_error (layout b) k)
    /\ List.length (layout b') = List.length (layout b)
    /\ b' = set_layout b (layout b').
Proof.
  unfold update_square, Square_int. intros H. step H. rewrite list_set_slot in H.
  destruct (slot (List.length (layout b)) a) as [n|] eqn:S; cbn [bind] in H; [| discriminate H].
  destruct (set_nth (layout b) n (Some sq)) as [l|] eqn:N; cbn [bind] in H; [| discriminate H].
  step H. destruct (set_nth_nth _ _ _ _ N) as [G O].
  exists a, n. split; [reflexivity |]. split; [exact S |]. cbn [layout set_layout].
  split; [exact G |]. split; [exact O |]. split; [now apply set_nth_length in N | reflexivity].
Qed.

(** What the simulation writes: the slot of the source square gets the
    emptied square, the slot of [pos] gets the moving piece (last, so it
    wins if the two slots are one), and every other slot, like every
    other field of the board, is as before. *)
Lemma scratch_writes (b b2 : Board) (m : Move) (pos : string) :
  scratch b m pos = Ret b2 ->
  exists empty moved i j n1 n2,
    Square_new (position (from_square m)) None = Ret empty
    /\ Square_new pos (piece_or (promotion m) (piece_at (from_square m))) = Ret moved
    /\ pos_stoi (position empty) = Ret i /\ slot (List.length (layout b)) i = Some n1
    /\ pos_stoi (position moved) = Ret j /\ slot (List.length (layout b)) j = Some n2
    /\ nth_error (layout b2) n2 = Some (Some moved)
    /\ (n1 <> n2 -> nth_error (layout b2) n1 = Some (Some empty))
    /\ (forall k, k <> n1 -> k <> n2 -> nth_error (layout b2) k = nth_error (layout b) k)
    /\ b2 = set_layout b (layout b2).
Proof.
  unfold scratch. intros H. do 3 step H.
  apply update_square_slot in E0. destruct E0 as [i [n1 [I [S1 [G1 [O1 [L1 B1]]]]]]].
  apply update_square_slot in H. destruct H as [j [n2 [J [S2 [G2 [O2 [L2 B2]]]]]]].
  rewrite L1 in S2.
  exists a, a1, i, j, n1, n2. repeat (split; [first [reflexivity | assumption] |]).
  split; [intros N; now rewrite (O2 n1 N) |].
  split; [intros k K1 K2; now rewrite (O2 k K2), (O1 k K1) |].
  rewrite B2, B1. reflexivity.
Qed.

Lemma check_loop_last (fuel : nat) (mover : Piece) (team : list Color) (ic : bool)
      (last : string) (before : list string) :
  forall b m cks m' b',
    check_loop fuel b m mover team ic (before ++ [last]) = Ret (Valid cks, m', b') ->
    exists b2 ignore d,
      scratch b m last = Ret b2 /\ check_map fuel b2 ignore = Ret d
      /\ cks = Some d /\ checks m' = Some d.
Proof.
  induction before as [|pos rest IH]; intros b m cks m' b' H; cbn [app check_loop] in H.
  - do 4 step H. cbv zeta in H.
    destruct (negb ic && _) in H; [step H |].
    step H. destruct (_ && _) in H; [step H |]. step H.
    do 3 eexists. split; [reflexivity |]. split; [eassumption |]. split; reflexivity.
  - do 4 step H. cbv zeta in H.
    destruct (negb ic && _) in H; [step H |].
    step H. destruct (_ && _) in H; [step H |].
    apply scratch_layout in E1. destruct E1 as [l ->].
    apply IH in H. destruct H as [b2 [ignore [d [S [C [K1 K2]]]]]].
    exists b2, ignore, d. split; [| now repeat split].
    replace b with (set_layout (set_layout b l) (layout b)) at 1 by (now destruct b).
    exact S.
Qed.

(** The check map [is_valid] returns, and writes into the move, is the
    one computed on the simulated layout of the destination. *)
Lemma is_valid_checks_simulated (fuel : nat) (b b' : Board) (m m' : Move) (it ic : bool)
      (cks : option (dict bool)) :
  is_valid fuel b m it ic = Ret (Valid cks, m', b') ->
  exists ts b2 ignore d,
    to_square m = Some ts /\ scratch b m (position ts) = Ret b2
    /\ check_map fuel b2 ignore = Ret d /\ cks = Some d /\ checks m' = Some d.
Proof.
  unfold is_valid. intros H.
  destruct (to_square m) as [ts|] eqn:Ts; [| discriminate H].
  cbv zeta in H. repeat step H.
  apply check_loop_last in H. destruct H as [b2 [ignore [d [S [C [K1 K2]]]]]].
  exists ts, b2, ignore, d. split; [reflexivity |]. split; [| now repeat split].
  destruct a4; exact S.
Qed.

Lemma move_castle : move 20 midgame castle_valid = Ret after_castle.
Proof. vm_cast_no_check (eq_refl (Ret after_castle)). Qed.

(** C4: a failing input.  After [opening] white castles king side: the
    king goes from H14 over G14 to F14, the rook from E14 to G14.
    [is_valid] recognises the castling and tries the king on G14 and on
    F14; on both layouts the rook is still on E14, and the check map it
    returns is the one of the second.  [move] then moves the rook to G14
    and takes that map for the position it has built. *)
Theorem castling_simulation_without_rook :
  new_move midgame "H14" "F14" None = Ret castle
  /\ is_valid 20 midgame castle false false
     = Ret (Valid (checks castle_valid), castle_valid, midgame)
  /\ castling castle_valid = Some [true; false]
  /\ pos_rot90 4 "C5" (COLORS_rev_index white) = Ret "E14"
  /\ pos_rot90 4 "C7" (COLORS_rev_index white) = Ret "G14"
  /\ (exists b1,
        scratch midgame castle_valid "G14" = Ret b1
        /\ get_square b1 "H14" = Ret (Some (mkSquare "H14" None))
        /\ get_square b1 "G14" = Ret (Some (sqr "G14" king white))
        /\ get_square b1 "E14" = Ret (Some (sqr "E14" rook white)))
  /\ (exists b2,
        scratch midgame castle_valid "F14" = Ret b2
        /\ get_square b2 "H14" = Ret (Some (mkSquare "H14" None))
        /\ get_square b2 "F14" = Ret (Some (sqr "F14" king white))
        /\ get_square b2 "E14" = Ret (Some (sqr "E14" rook white))
        /\ get_square b2 "G14" = Ret (Some (mkSquare "G14" None))
        /\ exists d, check_map 20 b2 None = Ret d /\ checks castle_valid = Some d)
  /\ move 20 midgame castle_valid = Ret after_castle
  /\ get_square after_castle "F14" = Ret (Some (sqr "F14" king white))
  /\ get_square after_castle "E14" = Ret (Some (mkSquare "E14" None))
  /\ get_square after_castle "G14" = Ret (Some (sqr "G14" rook white))
  /\ Some (checked after_castle) = checks castle_valid.
Proof.
  split; [reflexivity |]. split; [apply castle_is_valid |].
  repeat (split; [reflexivity |]).
  split.
  { eexists. split; [vm_compute; reflexivity |]. repeat split; reflexivity. }
  split.
  { eexists. split; [vm_compute; reflexivity |].
    repeat (split; [reflexivity |]).
    eexists. split; [vm_compute; reflexivity | reflexivity]. }
  split; [exact move_castle |].
  repeat split; reflexivity.
Qed.

(** ** Undoing the winning move *)







